(** * Haier hOn air-conditioner app: session client and device command mapping

  A shallow embedding of [lib/HonApi.js] (token state, single-flight
  refresh, authenticated requests, command envelope) and of
  [drivers/aircon/device.js] (wire/capability tables, state mapping and
  the capability setters), followed by the properties proved about them.

  JavaScript values are modelled by [JsVal]; numbers are the finite
  doubles seen as rationals plus [NaN].  Objects used as dictionaries are
  finite maps from property names to values. *)

From Stdlib Require Import ZArith QArith Qround Qminmax String Ascii List Lia Lqa DecimalString.
From stdpp Require Import base option strings gmap list.

Open Scope string_scope.

(** ** JavaScript values and the coercions the sources rely on *)

Module Js.

Inductive JsNum : Type :=
| NaN
| Num (q : Q).

#[warnings="-register-all"]
Inductive JsVal : Type :=
| JUndefined
| JNull
| JBool (b : bool)
| JNumber (n : JsNum)
| JString (s : string)
| JObject (fields : list (string * JsVal)).

(** Property read [o.k] / [o[k]]: [undefined] on anything that is not an
    object carrying the key.  Properties inherited from the prototype are
    not modelled. *)
Fixpoint assoc (k : string) (fields : list (string * JsVal)) : option JsVal :=
  match fields with
  | [] => None
  | (k', v) :: rest => if String.eqb k k' then Some v else assoc k rest
  end.

Definition get (o : JsVal) (k : string) : JsVal :=
  match o with
  | JObject fields => default JUndefined (assoc k fields)
  | _ => JUndefined
  end.

(** [k in o] for an object [o]. *)
Definition has_key (k : string) (o : JsVal) : bool :=
  match o with
  | JObject fields => bool_decide (is_Some (assoc k fields))
  | _ => false
  end.

Definition is_object (v : JsVal) : bool :=
  match v with JObject _ => true | _ => false end.

Definition is_undefined (v : JsVal) : bool :=
  match v with JUndefined => true | _ => false end.

Definition num_eqb (a : JsNum) (q : Q) : bool :=
  match a with
  | NaN => false
  | Num x => Qeq_bool x q
  end.

Definition num_ltb (a : JsNum) (q : Q) : bool :=
  match a with
  | NaN => false
  | Num x => negb (Qle_bool q x)
  end.

Definition num_geb (a : JsNum) (q : Q) : bool :=
  match a with
  | NaN => false
  | Num x => Qle_bool q x
  end.

Definition isNaN (a : JsNum) : bool :=
  match a with NaN => true | Num _ => false end.

(** Truthiness, as tested by [if (v)], [!v], [a || b] and [a && b]. *)
Definition truthy (v : JsVal) : bool :=
  match v with
  | JUndefined | JNull => false
  | JBool b => b
  | JNumber NaN => false
  | JNumber (Num q) => negb (Qeq_bool q 0)
  | JString s => negb (String.eqb s "")
  | JObject _ => true
  end.

(** [a || b] *)
Definition or_else (a b : JsVal) : JsVal := if truthy a then a else b.

(** [a === 'literal'] *)
Definition str_eqb (v : JsVal) (s : string) : bool :=
  match v with JString s' => String.eqb s' s | _ => false end.

(** [table[v]] on a dictionary whose own keys are the strings of
    [table]: a string key is looked up as it is, every other value is
    turned into a property key that none of the tables below owns. *)
Definition index {A} (table : gmap string A) (v : JsVal) : option A :=
  match v with JString s => table !! s | _ => None end.

(** [Math.round]: nearest integer, halves towards plus infinity. *)
Definition Math_round (q : Q) : Z := Qfloor (q + (1 # 2)).

(** [String(n)] for an integer [n] (decimal digits, a leading minus
    sign for negatives), exact below 10^21 in magnitude. *)
Definition String_of_int (n : Z) : string :=
  NilEmpty.string_of_int (Z.to_int n).

(** [String.prototype.split(sep)] for a one-character separator. *)
Fixpoint split (sep : ascii) (s : string) : list string :=
  match s with
  | EmptyString => [EmptyString]
  | String c rest =>
      if Ascii.eqb c sep then EmptyString :: split sep rest
      else match split sep rest with
           | seg :: segs => String c seg :: segs
           | [] => [String c EmptyString]
           end
  end.

(** [String.prototype.toUpperCase] on ASCII text. *)
Definition upper_ascii (c : ascii) : ascii :=
  let n := nat_of_ascii c in
  if ((97 <=? n)%nat && (n <=? 122)%nat)%bool then ascii_of_nat (n - 32) else c.

Fixpoint toUpperCase (s : string) : string :=
  match s with
  | EmptyString => EmptyString
  | String c rest => String (upper_ascii c) (toUpperCase rest)
  end.

Fixpoint contains (c : ascii) (s : string) : bool :=
  match s with
  | EmptyString => false
  | String c' rest => (Ascii.eqb c' c || contains c rest)%bool
  end.

(** A decimal reader for the numeric strings this wire format carries
    ("0", "1", "22", "-3", "22.5"): an optional minus sign, digits and
    an optional fraction.  It is one admissible instance of the runtime's
    string-to-number conversion, used to run the model on examples. *)
Definition digit_of (c : ascii) : option Z :=
  let n := nat_of_ascii c in
  if ((48 <=? n)%nat && (n <=? 57)%nat)%bool then Some (Z.of_nat (n - 48)) else None.

Fixpoint read_digits (s : string) (acc : Z) (len : nat) : option (Z * nat * string) :=
  match s with
  | EmptyString => Some (acc, len, EmptyString)
  | String c rest =>
      match digit_of c with
      | Some d => read_digits rest (10 * acc + d)%Z (S len)
      | None => Some (acc, len, s)
      end
  end.

Definition read_unsigned (s : string) : JsNum :=
  match read_digits s 0%Z 0%nat with
  | Some (ip, n1, EmptyString) =>
      match n1 with O => NaN | S _ => Num (inject_Z ip) end
  | Some (ip, n1, String c frac) =>
      if Ascii.eqb c "." then
        match read_digits frac 0%Z 0%nat with
        | Some (fp, n2, EmptyString) =>
            match n1, n2 with
            | O, O => NaN
            | _, _ => Num (inject_Z ip + Qmake fp (Pos.of_nat (10 ^ n2)))
            end
        | _ => NaN
        end
      else NaN
  | None => NaN
  end.

Definition decimalToNumber (s : string) : JsNum :=
  match s with
  | EmptyString => Num 0
  | String c rest =>
      if Ascii.eqb c "-" then
        match read_unsigned rest with
        | Num q => Num (- q)
        | NaN => NaN
        end
      else read_unsigned s
  end.

(** The runtime's conversion of a string to a number is the engine's,
    not this repository's: the development is parametric in it. *)
Class Runtime := { StringToNumber : string -> JsNum }.

(** [Number(v)] and the implicit numeric coercion of [<], [>=], [*]. *)
Definition ToNumber `{Runtime} (v : JsVal) : JsNum :=
  match v with
  | JUndefined => NaN
  | JNull => Num 0
  | JBool b => Num (if b then 1 else 0)
  | JNumber n => n
  | JString s => StringToNumber s
  | JObject _ => NaN
  end.

Definition num_add (a b : JsNum) : JsNum :=
  match a, b with
  | Num x, Num y => Num (x + y)
  | _, _ => NaN
  end.

Definition num_mul (a b : JsNum) : JsNum :=
  match a, b with
  | Num x, Num y => Num (x * y)
  | _, _ => NaN
  end.

(** [String(Math.round(v))] *)
Definition String_of_rounded (n : JsNum) : string :=
  match n with
  | NaN => "NaN"
  | Num q => String_of_int (Math_round q)
  end.

Definition decimalRuntime : Runtime := {| StringToNumber := decimalToNumber |}.

End Js.

Export Js.


(** ** Property reads and enumeration *)

Module JsObject.

(** [o.k] as an expression: reading a property of [null] or [undefined]
    throws a [TypeError], rendered as [None]. *)
Definition read (o : JsVal) (k : string) : option JsVal :=
  match o with
  | JNull | JUndefined => None
  | _ => Some (get o k)
  end.

(** [a === q] for a number literal [q]. *)
Definition is_number (a : JsVal) (q : Q) : bool :=
  match a with JNumber n => num_eqb n q | _ => false end.

(** The own keys of an object are distinct: of the fields of the model
    the first with a given key counts, as for [get]. *)
Fixpoint own_entries (seen : list string) (fields : list (string * JsVal))
    : list (string * JsVal) :=
  match fields with
  | [] => []
  | (k, v) :: rest =>
      if existsb (String.eqb k) seen then own_entries seen rest
      else (k, v) :: own_entries (k :: seen) rest
  end.

(** The indexed characters of a string, from index [i] on. *)
Fixpoint characters (i : nat) (s : string) : list (string * JsVal) :=
  match s with
  | EmptyString => []
  | String c rest =>
      (String_of_int (Z.of_nat i), JString (String c EmptyString))
      :: characters (S i) rest
  end.

(** [Object.entries(o)] for a value that is neither [null] nor
    [undefined], up to the order of the entries. *)
Definition entries (o : JsVal) : list (string * JsVal) :=
  match o with
  | JObject fields => own_entries [] fields
  | JString s => characters 0 s
  | _ => []
  end.

(** An object the program builds: its own properties, and its prototype,
    which is [Object.prototype] for a literal until an assignment to
    [__proto__] puts a parsed object or [null] in its place.  A parsed
    object keeps [Object.prototype] as its own prototype. *)
Inductive Prototype : Type :=
| ObjectPrototype
| NullPrototype
| Parsed (fields : list (string * JsVal)).

Record Obj : Type := {
  own : gmap string JsVal;
  prototype : Prototype;
}.

(** [{}] *)
Definition literal : Obj := {| own := ∅; prototype := ObjectPrototype |}.

(** Creating or overwriting an own data property. *)
Definition define (k : string) (v : JsVal) (o : Obj) : Obj :=
  {| own := <[k := v]> (own o); prototype := prototype o |}.

(** The setter of the accessor [__proto__] of [Object.prototype]: an
    object or [null] becomes the prototype, any other value is ignored. *)
Definition set_prototype (v : JsVal) (o : Obj) : Obj :=
  match v with
  | JObject fields => {| own := own o; prototype := Parsed fields |}
  | JNull => {| own := own o; prototype := NullPrototype |}
  | _ => o
  end.

(** [o[k] = v]: an own property is overwritten; otherwise the prototype
    chain decides.  Every property found there is a writable data
    property, which makes the assignment create an own property, except
    [__proto__] of [Object.prototype], whose setter is called instead. *)
Definition put (k : string) (v : JsVal) (o : Obj) : Obj :=
  let through_object_prototype :=
    if String.eqb k "__proto__" then set_prototype v o else define k v o in
  match own o !! k with
  | Some _ => define k v o
  | None =>
      match prototype o with
      | Parsed fields =>
          match assoc k fields with
          | Some _ => define k v o
          | None => through_object_prototype
          end
      | ObjectPrototype => through_object_prototype
      | NullPrototype => define k v o
      end
  end.

(** [o[k]] where the object or a parsed prototype provides the property;
    [None] stands for [undefined] and for what [Object.prototype] itself
    provides (its methods, and itself as the value of [__proto__]), which
    is not modelled. *)
Definition property (o : Obj) (k : string) : option JsVal :=
  match own o !! k with
  | Some v => Some v
  | None =>
      match prototype o with
      | Parsed fields =>
          match assoc k fields with
          | Some v => Some v
          | None => if String.eqb k "__proto__" then Some (JObject fields) else None
          end
      | _ => None
      end
  end.

(** The names under which every object finds a property of
    [Object.prototype]. *)
Definition OBJECT_PROTOTYPE_NAMES : list string :=
  [ "constructor"; "__defineGetter__"; "__defineSetter__"; "hasOwnProperty";
    "__lookupGetter__"; "__lookupSetter__"; "isPrototypeOf";
    "propertyIsEnumerable"; "toString"; "valueOf"; "__proto__"; "toLocaleString" ].

(** [Object.assign(target, source)]: every own enumerable property of the
    source is assigned to the target, as by [target[k] = source[k]]. *)
Definition assign (target : Obj) (source : JsVal) : Obj :=
  foldl (fun acc entry => put (fst entry) (snd entry) acc) target (entries source).

(** The prototype an assignment of [v] to [__proto__] leaves a literal
    with ([None]: no such assignment). *)
Definition chosen_prototype (v : option JsVal) : Prototype :=
  match v with
  | Some (JObject inherited) => Parsed inherited
  | Some JNull => NullPrototype
  | _ => ObjectPrototype
  end.

End JsObject.

Export JsObject.

(** ** Results of fallible operations *)

Inductive Result (E A : Type) : Type :=
| Ok (a : A)
| Thrown (e : E).
Arguments Ok {E A} a.
Arguments Thrown {E A} e.

(** ** lib/HonApi.js *)

Module HonApi.

Definition API_URL : string := "https://api-iot.he.services".
Definition APP_VERSION : string := "2.0.10".
Definition OS_VERSION : string := "17.6.1".
Definition DEVICE_MODEL : string := "iPhone16,2".
Definition USER_AGENT : string := "hOn/2.0.10 (iPhone; iOS 17.6.1; Scale/3.00)".

(** Milliseconds. *)
Definition TOKEN_LIFETIME_MS : Z := 8 * 60 * 60 * 1000.
Definition TOKEN_EXPIRY_BUFFER : Z := 60 * 60 * 1000.

(** One constructor per [throw new Error(...)] of the class, with the
    values its message interpolates, and the exceptions the runtime
    itself can raise on these paths. *)
Inductive Error : Type :=
| NoRefreshTokenAvailable
| TokenRefreshFailed (status : Z) (text : string)
| NotAuthenticatedNoRefreshToken
| CognitoTokenFailed (status : Z) (text : string)
| NoCognitoToken
| TokensNotSet
| RefreshErrorDuringRequest (cause : Error)
| AuthFailedAfterRefresh (status : Z) (text : string)
| ApiRequestFailed (status : Z) (text : string)
| FetchRejected
| InvalidJson
| TypeError
| RangeError.

(** [error.status]: only the error of a failed API request is given one. *)
Definition error_status (e : Error) : option Z :=
  match e with
  | ApiRequestFailed status _ => Some status
  | _ => None
  end.

(** A settled [fetch]: the status line, and the body as [response.text()]
    and [response.json()] deliver it ([None] when the body is not JSON). *)
Record Response : Type := {
  status : Z;
  text : string;
  json : option JsVal;
}.

(** [response.ok] *)
Definition ok (r : Response) : bool := ((200 <=? status r) && (status r <=? 299))%Z.

(** Calls made to the two persistence callbacks of the constructor. *)
Inductive Hook : Type :=
| OnTokenRefresh (refreshToken : JsVal)
| OnTokensUpdated (accessToken idToken : JsVal).

(** The fields of a [HonApi] instance; [journal] lists the callback
    invocations, oldest first. *)
Record Api : Type := {
  refreshToken : JsVal;
  accessToken : JsVal;
  idToken : JsVal;
  cognitoToken : JsVal;
  tokenExpiresAt : option JsNum;
  _mobileId : string;
  _authenticated : bool;
  _refreshPromise : option nat;
  journal : list Hook;
}.

Definition constructor (options_refreshToken : JsVal) (uuid : string) : Api :=
  {| refreshToken := or_else options_refreshToken JNull;
     accessToken := JNull;
     idToken := JNull;
     cognitoToken := JNull;
     tokenExpiresAt := None;
     _mobileId := uuid;
     _authenticated := false;
     _refreshPromise := None;
     journal := [] |}.

Definition set_refreshPromise (p : option nat) (a : Api) : Api :=
  {| refreshToken := refreshToken a; accessToken := accessToken a;
     idToken := idToken a; cognitoToken := cognitoToken a;
     tokenExpiresAt := tokenExpiresAt a; _mobileId := _mobileId a;
     _authenticated := _authenticated a; _refreshPromise := p;
     journal := journal a |}.

Definition set_authenticated (b : bool) (a : Api) : Api :=
  {| refreshToken := refreshToken a; accessToken := accessToken a;
     idToken := idToken a; cognitoToken := cognitoToken a;
     tokenExpiresAt := tokenExpiresAt a; _mobileId := _mobileId a;
     _authenticated := b; _refreshPromise := _refreshPromise a;
     journal := journal a |}.

Definition set_cognitoToken (t : JsVal) (a : Api) : Api :=
  {| refreshToken := refreshToken a; accessToken := accessToken a;
     idToken := idToken a; cognitoToken := t;
     tokenExpiresAt := tokenExpiresAt a; _mobileId := _mobileId a;
     _authenticated := _authenticated a; _refreshPromise := _refreshPromise a;
     journal := journal a |}.

(** The truthiness of [this.tokenExpiresAt] ([null] or a number). *)
Definition expiry_set (e : option JsNum) : bool :=
  match e with
  | Some n => truthy (JNumber n)
  | None => false
  end.

(** [Date.now() > this.tokenExpiresAt - TOKEN_EXPIRY_BUFFER] *)
Definition past_buffer (now : Z) (e : option JsNum) : bool :=
  match e with
  | Some n => num_ltb (num_add n (Num (inject_Z (- TOKEN_EXPIRY_BUFFER)))) (inject_Z now)
  | None => false
  end.

Definition isAuthenticated (now : Z) (a : Api) : bool :=
  if (negb (_authenticated a) || negb (truthy (cognitoToken a))
      || negb (truthy (idToken a)))%bool then false
  else if (expiry_set (tokenExpiresAt a) && past_buffer now (tokenExpiresAt a))%bool
  then false
  else true.

Definition isTokenExpired (now : Z) (a : Api) : bool :=
  if negb (expiry_set (tokenExpiresAt a)) then true
  else match tokenExpiresAt a with
       | Some n => num_ltb n (inject_Z now)
       | None => true
       end.

(** [setTokens(accessToken, idToken, refreshToken = null)], called at
    time [now]; an omitted third argument is [undefined] and takes the
    default. *)
Definition setTokens (now : Z) (accessToken' idToken' refreshToken' : JsVal)
    (a : Api) : Api :=
  let refreshToken' := if is_undefined refreshToken' then JNull else refreshToken' in
  {| refreshToken := if truthy refreshToken' then refreshToken' else refreshToken a;
     accessToken := accessToken';
     idToken := idToken';
     cognitoToken := cognitoToken a;
     tokenExpiresAt := Some (Num (inject_Z (now + TOKEN_LIFETIME_MS)));
     _mobileId := _mobileId a;
     _authenticated := _authenticated a;
     _refreshPromise := _refreshPromise a;
     journal := journal a |}.

(** *** The two-phase refresh, cut at its suspension points

    [_refreshAccessToken] runs in three uninterrupted stretches: up to
    the [fetch] of the token endpoint, from that response up to the
    [fetch] of [_getCognitoToken], and from that response to the end.
    (A response stands for the settled [fetch] together with its body;
    no field is written between the two.) *)

Inductive Request : Type :=
| TokenRequest (refresh_token : JsVal)
| LoginRequest (id_token : JsVal) (mobileId : string).

Definition is_token_request (r : Request) : bool :=
  match r with TokenRequest _ => true | LoginRequest _ _ => false end.

Definition is_login_request (r : Request) : bool :=
  match r with LoginRequest _ _ => true | TokenRequest _ => false end.

(** [new Date(t).toISOString()] throws a [RangeError] outside this range. *)
Definition date_in_range (t : JsNum) : bool :=
  match t with
  | NaN => false
  | Num q => (Qle_bool (- 8640000000000000) q && Qle_bool q 8640000000000000)%bool
  end.

(** First stretch: the guard on the stored refresh token, then the
    request to [/services/oauth2/token]. *)
Definition refresh_begin (a : Api) : Error + Request :=
  if negb (truthy (refreshToken a)) then inl NoRefreshTokenAvailable
  else inr (TokenRequest (refreshToken a)).

(** The request [_getCognitoToken] sends, from the fields at that time. *)
Definition login_request (a : Api) : Request :=
  LoginRequest (idToken a) (_mobileId a).

(** Second stretch, resumed at time [now] with the token endpoint's
    response.  Fields assigned before a throw stay assigned. *)
Definition refresh_resume `{Runtime} (now : Z) (r : Response) (a : Api)
    : Api * (Error + Request) :=
  if negb (ok r) then (a, inl (TokenRefreshFailed (status r) (text r)))
  else
    match json r with
    | None => (a, inl InvalidJson)
    | Some JNull | Some JUndefined => (a, inl TypeError)
    | Some result =>
        let access := get result "access_token" in
        let id := get result "id_token" in
        let rotated := truthy (get result "refresh_token") in
        let refresh := if rotated then get result "refresh_token" else refreshToken a in
        let expiresIn := or_else (get result "expires_in") (JNumber (Num 28800)) in
        let expiresAt :=
          num_add (Num (inject_Z now)) (num_mul (ToNumber expiresIn) (Num 1000)) in
        let a' :=
          {| refreshToken := refresh;
             accessToken := access;
             idToken := id;
             cognitoToken := cognitoToken a;
             tokenExpiresAt := Some expiresAt;
             _mobileId := _mobileId a;
             _authenticated := _authenticated a;
             _refreshPromise := _refreshPromise a;
             journal := journal a
                        ++ (if rotated then [OnTokenRefresh refresh] else [])
                        ++ [OnTokensUpdated access id] |} in
        if date_in_range expiresAt then (a', inr (login_request a'))
        else (a', inl RangeError)
    end.

(** [_getCognitoToken] resumed with the response of [/auth/v1/login]. *)
Definition cognito_resume (r : Response) (a : Api) : Api * option Error :=
  if negb (ok r) then (a, Some (CognitoTokenFailed (status r) (text r)))
  else
    match json r with
    | None => (a, Some InvalidJson)
    | Some JNull | Some JUndefined => (a, Some TypeError)
    | Some result =>
        let token :=
          match get result "cognitoUser" with
          | JNull | JUndefined => JUndefined
          | cognitoUser => get cognitoUser "Token"
          end in
        if negb (truthy token) then (a, Some NoCognitoToken)
        else (set_cognitoToken token a, None)
    end.

(** Third stretch of [_refreshAccessToken]. *)
Definition refresh_finish (r : Response) (a : Api) : Api * option Error :=
  match cognito_resume r a with
  | (a', None) => (set_authenticated true a', None)
  | (a', Some e) => (a', Some e)
  end.

(** *** The client shared by cooperating callers

    One [HonApi] object serves every device.  Callers run to their next
    [await]; timers and network callbacks interleave between them.  The
    system state keeps, next to the object's fields, every invocation of
    [_refreshAccessToken] that has not been reaped yet (by the promise
    [_safeRefresh] created for it), the requests put on the wire (tagged
    with that promise), the callers suspended on a promise, oldest first,
    and what each caller has got back. *)

(** The three places that await [_safeRefresh()]: [_ensureAuthenticated];
    the [try] of the retry path of [_apiRequest], whose [catch] clears
    [_authenticated]; and the app, at start-up. *)
Inductive Path : Type :=
| ViaEnsure
| ViaRetry
| Direct.

Inductive Outcome : Type :=
| Fulfilled
| Rejected (e : Error).

Inductive Phase : Type :=
| AwaitingToken
| AwaitingLogin
| Settled (o : Outcome).

Inductive Seen : Type :=
| Fresh
| Refused (e : Error)
| Awaited (p : nat) (o : Outcome) (credentials : Api).

Record System : Type := {
  api : Api;
  flights : gmap nat Phase;
  promises : nat;
  wire : list (nat * Request);
  waiting : list (nat * nat * Path);
  seen : list (nat * Seen);
}.

Definition boot (a : Api) : System :=
  {| api := a; flights := ∅; promises := 0; wire := [];
     waiting := []; seen := [] |}.

(** What can happen to the shared client: the app calls [_safeRefresh];
    a caller enters [_ensureAuthenticated]; a caller whose request was
    answered 401 or 403 enters the retry path of [_apiRequest]; the token
    or the login endpoint answers ([None]: the [fetch] rejects); the
    [finally] callback of a settled promise runs. *)
Inductive Event : Type :=
| CallSafeRefresh (caller : nat)
| CallEnsureAuthenticated (caller : nat) (now : Z)
| CallRetry (caller : nat)
| TokenReply (p : nat) (now : Z) (reply : option Response)
| LoginReply (p : nat) (reply : option Response)
| Finally (p : nat).

(** [_safeRefresh()], called by [caller] from [path]: join the promise
    in the guard, or start [_refreshAccessToken], chain [finally] and
    store the new promise in the guard.  Either way the caller awaits
    that promise. *)
Definition _safeRefresh (caller : nat) (path : Path) (s : System) : System :=
  match _refreshPromise (api s) with
  | Some p =>
      {| api := api s; flights := flights s; promises := promises s;
         wire := wire s; waiting := waiting s ++ [(caller, p, path)];
         seen := seen s |}
  | None =>
      let p := promises s in
      let started :=
        match refresh_begin (api s) with
        | inr request => (AwaitingToken, [(p, request)])
        | inl e => (Settled (Rejected e), [])
        end in
      {| api := set_refreshPromise (Some p) (api s);
         flights := <[p := fst started]> (flights s);
         promises := S p;
         wire := wire s ++ snd started;
         waiting := waiting s ++ [(caller, p, path)];
         seen := seen s |}
  end.

Definition saw (caller : nat) (what : Seen) (s : System) : System :=
  {| api := api s; flights := flights s; promises := promises s;
     wire := wire s; waiting := waiting s;
     seen := seen s ++ [(caller, what)] |}.

(** [_ensureAuthenticated()], called by [caller] at time [now]. *)
Definition _ensureAuthenticated (caller : nat) (now : Z) (s : System) : System :=
  if isAuthenticated now (api s) then saw caller Fresh s
  else if truthy (refreshToken (api s)) then _safeRefresh caller ViaEnsure s
  else saw caller (Refused NotAuthenticatedNoRefreshToken) s.

Definition advance (p : nat) (a : Api) (ph : Phase) (sent : list (nat * Request))
    (s : System) : System :=
  {| api := a; flights := <[p := ph]> (flights s); promises := promises s;
     wire := wire s ++ sent; waiting := waiting s; seen := seen s |}.

Definition awaits (p : nat) (w : nat * nat * Path) : bool := Nat.eqb (snd (fst w)) p.

(** A caller suspended on promise [p] resumes with its outcome [o] and
    reads the object as it is at that moment; on the retry path the
    [catch] around the [await] then clears [_authenticated], which is
    what the callers resumed after this one find. *)
Definition resume (p : nat) (o : Outcome) (s : System) (w : nat * nat * Path) : System :=
  let found := saw (fst (fst w)) (Awaited p o (api s)) s in
  match snd w, o with
  | ViaRetry, Rejected _ =>
      {| api := set_authenticated false (api found); flights := flights found;
         promises := promises found; wire := wire found;
         waiting := waiting found; seen := seen found |}
  | _, _ => found
  end.

(** The [finally] callback of promise [p] clears the guard; the promise
    it returned then settles and, in the same microtask checkpoint (before
    any timer or network callback runs), the callers awaiting it resume
    one after the other, in the order in which they called. *)
Definition reap (p : nat) (o : Outcome) (s : System) : System :=
  foldl (resume p o)
        {| api := set_refreshPromise None (api s);
           flights := delete p (flights s);
           promises := promises s;
           wire := wire s;
           waiting := List.filter (fun w => negb (awaits p w)) (waiting s);
           seen := seen s |}
        (List.filter (awaits p) (waiting s)).

(** One event; [None] when the event cannot occur in the state (a reply
    to a request that is not pending, a callback of an unsettled
    promise). *)
Definition step `{Runtime} (s : System) (ev : Event) : option System :=
  match ev with
  | CallSafeRefresh caller => Some (_safeRefresh caller Direct s)
  | CallEnsureAuthenticated caller now => Some (_ensureAuthenticated caller now s)
  | CallRetry caller => Some (_safeRefresh caller ViaRetry s)
  | TokenReply p now reply =>
      match flights s !! p with
      | Some AwaitingToken =>
          match reply with
          | None => Some (advance p (api s) (Settled (Rejected FetchRejected)) [] s)
          | Some r =>
              match refresh_resume now r (api s) with
              | (a, inr request) => Some (advance p a AwaitingLogin [(p, request)] s)
              | (a, inl e) => Some (advance p a (Settled (Rejected e)) [] s)
              end
          end
      | _ => None
      end
  | LoginReply p reply =>
      match flights s !! p with
      | Some AwaitingLogin =>
          match reply with
          | None => Some (advance p (api s) (Settled (Rejected FetchRejected)) [] s)
          | Some r =>
              match refresh_finish r (api s) with
              | (a, None) => Some (advance p a (Settled Fulfilled) [] s)
              | (a, Some e) => Some (advance p a (Settled (Rejected e)) [] s)
              end
          end
      | _ => None
      end
  | Finally p =>
      match flights s !! p with
      | Some (Settled o) => Some (reap p o s)
      | _ => None
      end
  end.

Fixpoint run `{Runtime} (s : System) (evs : list Event) : option System :=
  match evs with
  | [] => Some s
  | ev :: rest =>
      match step s ev with
      | Some s' => run s' rest
      | None => None
      end
  end.

(** Requests of each kind issued on behalf of promise [p]. *)
Definition token_requests (p : nat) (w : list (nat * Request)) : nat :=
  length (List.filter (fun x => (Nat.eqb (fst x) p && is_token_request (snd x))%bool) w).

Definition login_requests (p : nat) (w : list (nat * Request)) : nat :=
  length (List.filter (fun x => (Nat.eqb (fst x) p && is_login_request (snd x))%bool) w).

(** *** The command envelope *)

(** The [options] argument of [sendCommand]. *)
Record CommandOptions : Type := {
  programName : JsVal;
  ancillaryParameters : option (gmap string JsVal);
  applianceOptions : JsVal;
}.

Record Device : Type := {
  appVersion : string;
  mobileId : string;
  mobileOs : string;
  osVersion : string;
  deviceModel : string;
}.

Record Attributes : Type := {
  channel : string;
  origin : string;
  energyLabel : string;
}.

Record Payload : Type := {
  p_macAddress : string;
  p_timestamp : string;
  p_commandName : string;
  p_transactionId : string;
  p_applianceOptions : JsVal;
  p_device : Device;
  p_attributes : Attributes;
  p_ancillaryParameters : gmap string JsVal;
  p_parameters : gmap string JsVal;
  p_applianceType : string;
  p_programName : option string;
}.

(** [s.slice(0, -1)] *)
Fixpoint drop_last (s : string) : string :=
  match s with
  | EmptyString => EmptyString
  | String c EmptyString => EmptyString
  | String c rest => String c (drop_last rest)
  end.

(** [(options.programName || 'iot_auto').toUpperCase()], which is only
    evaluated for [startProgram]; a truthy value that is not a string
    has no such method. *)
Definition program_name (commandName : string) (programName : JsVal)
    : Result Error (option string) :=
  if String.eqb commandName "startProgram" then
    match or_else programName (JString "iot_auto") with
    | JString s => Ok (Some (toUpperCase s))
    | _ => Thrown TypeError
    end
  else Ok None.

(** The payload [sendCommand] builds, from the ISO time [iso] of
    [new Date()] and the object's [_mobileId]. *)
Definition payload (iso : string) (this : Api) (macAddress commandName : string)
    (parameters : gmap string JsVal) (options : CommandOptions)
    : Result Error Payload :=
  let now := drop_last iso ++ "Z" in
  match program_name commandName (programName options) with
  | Thrown e => Thrown e
  | Ok name =>
      Ok {| p_macAddress := macAddress;
            p_timestamp := now;
            p_commandName := commandName;
            p_transactionId := macAddress ++ "_" ++ now;
            p_applianceOptions := or_else (applianceOptions options) (JObject []);
            p_device := {| appVersion := APP_VERSION;
                           mobileId := _mobileId this;
                           mobileOs := "ios";
                           osVersion := OS_VERSION;
                           deviceModel := DEVICE_MODEL |};
            p_attributes := {| channel := "mobileApp";
                               origin := "standardProgram";
                               energyLabel := "0" |};
            p_ancillaryParameters := default ∅ (ancillaryParameters options);
            p_parameters := parameters;
            p_applianceType := "AC";
            p_programName := name |}
  end.

(** *** Authenticated requests

    [_apiRequest] and [sendCommand] are written as programs over the
    operations they suspend on or touch the object with; whatever the
    rest of the system does meanwhile shows only in the answers. *)

Record HttpRequest : Type := {
  url : string;
  http_method : JsVal;
  http_headers : gmap string JsVal;
  http_body : option Payload;
}.

Inductive Call : Type -> Type :=
| EnsureAuthenticated : Call (Result Error unit)
| SafeRefresh : Call (Result Error unit)
| ReadThis : Call Api
| SetAuthenticated (b : bool) : Call unit
| Clock : Call string
| Fetch (rq : HttpRequest) : Call (option Response).

Inductive Prog (A : Type) : Type :=
| Return (a : A)
| Throw (e : Error)
| Do {X : Type} (c : Call X) (k : X -> Prog A).
Arguments Return {A} a.
Arguments Throw {A} e.
Arguments Do {A X} c k.

Fixpoint bind {A B} (m : Prog A) (f : A -> Prog B) : Prog B :=
  match m with
  | Return a => f a
  | Throw e => Throw e
  | Do c k => Do c (fun x => bind (k x) f)
  end.

(** [try { m } catch (e) { h e }] *)
Fixpoint catch {A} (m : Prog A) (h : Error -> Prog A) : Prog A :=
  match m with
  | Return a => Return a
  | Throw e => h e
  | Do c k => Do c (fun x => catch (k x) h)
  end.

(** [await] of an operation that may reject. *)
Definition await {A} (c : Call (Result Error A)) : Prog A :=
  Do c (fun r => match r with Ok a => Return a | Thrown e => Throw e end).

#[export] Instance prog_ret : MRet Prog := fun A a => Return a.
#[export] Instance prog_bind : MBind Prog := fun A B f m => bind m f.

Definition _buildAuthHeaders (a : Api) : gmap string JsVal :=
  {[ "User-Agent" := JString USER_AGENT;
     "Accept" := JString "*/*";
     "Accept-Language" := JString "en-US;q=1";
     "Content-Type" := JString "application/json";
     "cognito-token" := cognitoToken a;
     "id-token" := idToken a ]}.

(** The [options] argument of [_apiRequest]; [body], when present, is
    the object handed to [JSON.stringify] (the only caller passing one
    is [sendCommand], with its payload; an object is truthy). *)
Record RequestOptions : Type := {
  method : JsVal;
  headers : gmap string JsVal;
  body : option Payload;
}.

Definition no_options : RequestOptions :=
  {| method := JUndefined; headers := ∅; body := None |}.

Definition is_auth_failure (r : Response) : bool :=
  ((status r =? 401) || (status r =? 403))%Z.

(** The closure [doFetch]: headers are built from the fields as they are
    when it is called; entries of [options.headers] win. *)
Definition doFetch (endpoint : string) (options : RequestOptions) : Prog Response :=
  Do ReadThis (fun this =>
  Do (Fetch {| url := API_URL ++ endpoint;
               http_method := or_else (method options) (JString "GET");
               http_headers := headers options ∪ _buildAuthHeaders this;
               http_body := body options |})
     (fun reply => match reply with
                   | Some r => Return r
                   | None => Throw FetchRejected
                   end)).

Definition _apiRequest (endpoint : string) (options : RequestOptions) : Prog JsVal :=
  await EnsureAuthenticated;;
  (* Level 0: normal request *)
  response ← doFetch endpoint options;
  response ←
    (if is_auth_failure response then
       catch (await SafeRefresh)
             (fun refreshError =>
                Do (SetAuthenticated false) (fun _ =>
                Throw (RefreshErrorDuringRequest refreshError)));;
       (* Level 1: retry with fresh tokens *)
       response ← doFetch endpoint options;
       if is_auth_failure response then
         Do (SetAuthenticated false) (fun _ =>
         Throw (AuthFailedAfterRefresh (status response) (text response)))
       else Return response
     else Return response);
  if negb (ok response) then
    Throw (ApiRequestFailed (status response) (text response))
  else
    match json response with
    | Some v => Return v
    | None => Throw InvalidJson
    end.

(** A performed operation with its answer. *)
Inductive Step : Type :=
| Did {X : Type} (c : Call X) (x : X).

(** Run a program against an environment that answers the [n]-th
    operation; the trace lists what was done, in order. *)
Fixpoint exec {A} (env : forall X, nat -> Call X -> X) (n : nat) (m : Prog A)
    : list Step * Result Error A :=
  match m with
  | Return a => ([], Ok a)
  | Throw e => ([], Thrown e)
  | Do c k =>
      let x := env _ n c in
      let rest := exec env (S n) (k x) in
      (Did c x :: fst rest, snd rest)
  end.

Definition fetched (st : Step) : option (option Response) :=
  match st with
  | @Did X c x =>
      match c in Call T return T -> option (option Response) with
      | Fetch _ => fun reply => Some reply
      | _ => fun _ => None
      end x
  end.

Definition refreshed (st : Step) : option (Result Error unit) :=
  match st with
  | @Did X c x =>
      match c in Call T return T -> option (Result Error unit) with
      | SafeRefresh => fun r => Some r
      | _ => fun _ => None
      end x
  end.

Definition marked (st : Step) : option bool :=
  match st with
  | @Did X c x =>
      match c with
      | SetAuthenticated b => Some b
      | _ => None
      end
  end.

Definition requested (st : Step) : option HttpRequest :=
  match st with
  | @Did X c x =>
      match c with
      | Fetch rq => Some rq
      | _ => None
      end
  end.

(** Replies to the [fetch] calls, outcomes of the [_safeRefresh] calls
    and values assigned to [_authenticated], each in program order. *)
Definition responses (tr : list Step) : list (option Response) := omap fetched tr.
Definition refreshes (tr : list Step) : list (Result Error unit) := omap refreshed tr.
Definition marks (tr : list Step) : list bool := omap marked tr.
Definition requests (tr : list Step) : list HttpRequest := omap requested tr.

(** What the tail of [_apiRequest] makes of the response it ends with. *)
Definition conclude (r : Response) : Result Error JsVal :=
  if negb (ok r) then Thrown (ApiRequestFailed (status r) (text r))
  else match json r with
       | Some v => Ok v
       | None => Thrown InvalidJson
       end.

(** [sendCommand(macAddress, commandName, parameters = {}, options = {})] *)
Definition sendCommand (macAddress commandName : string)
    (parameters : gmap string JsVal) (options : CommandOptions) : Prog JsVal :=
  Do Clock (fun iso =>
  Do ReadThis (fun this =>
  match payload iso this macAddress commandName parameters options with
  | Thrown e => Throw e
  | Ok p =>
      _apiRequest "/commands/v1/send"
        {| method := JString "POST"; headers := ∅; body := Some p |}
  end)).

(** *** Vocabulary for the statements below *)

(** Requests on the wire on behalf of a refresh rejected with [e]: none
    when no refresh token was stored; the token request alone when the
    token exchange was refused or its expiry could not be dated; both
    requests when the login was refused; the token request and at most
    the login request for the failures either exchange can raise.  The
    remaining errors are not raised by the refresh. *)
Definition rejected_counts (p : nat) (e : Error) (w : list (nat * Request)) : Prop :=
  match e with
  | NoRefreshTokenAvailable => token_requests p w = 0 /\ login_requests p w = 0
  | TokenRefreshFailed _ _ | RangeError =>
      token_requests p w = 1 /\ login_requests p w = 0
  | CognitoTokenFailed _ _ | NoCognitoToken =>
      token_requests p w = 1 /\ login_requests p w = 1
  | FetchRejected | InvalidJson | TypeError =>
      token_requests p w = 1 /\ login_requests p w <= 1
  | _ => False
  end.

(** Requests on the wire for an invocation in a given phase. *)
Definition phase_counts (p : nat) (ph : Phase) (w : list (nat * Request)) : Prop :=
  match ph with
  | AwaitingToken => token_requests p w = 1 /\ login_requests p w = 0
  | AwaitingLogin => token_requests p w = 1 /\ login_requests p w = 1
  | Settled Fulfilled => token_requests p w = 1 /\ login_requests p w = 1
  | Settled (Rejected e) => rejected_counts p e w
  end.

(** Errors of the stretch that handles the token reply, and of the one
    that handles the login reply. *)
Definition token_stage_error (e : Error) : Prop :=
  match e with
  | TokenRefreshFailed _ _ | RangeError | FetchRejected | InvalidJson | TypeError => True
  | _ => False
  end.

Definition login_stage_error (e : Error) : Prop :=
  match e with
  | CognitoTokenFailed _ _ | NoCognitoToken | FetchRejected | InvalidJson | TypeError => True
  | _ => False
  end.

(** A reply moves the living invocation on: it settles rejected at either
    stage, or settles fulfilled after the login reply, or sends the login
    request after the token reply. *)
Definition moves (p : nat) (ph ph' : Phase) (sent : list (nat * Request)) : Prop :=
  (sent = [] /\ ph = AwaitingToken /\
   exists e, ph' = Settled (Rejected e) /\ token_stage_error e) \/
  (sent = [] /\ ph = AwaitingLogin /\
   exists e, ph' = Settled (Rejected e) /\ login_stage_error e) \/
  (sent = [] /\ ph = AwaitingLogin /\ ph' = Settled Fulfilled) \/
  (exists rq, sent = [(p, rq)] /\ is_login_request rq = true /\
              ph = AwaitingToken /\ ph' = AwaitingLogin).

(** The credentials the object holds: its four tokens and their
    expiry. *)
Definition credentials_of (a : Api)
    : JsVal * JsVal * JsVal * JsVal * option JsNum :=
  (refreshToken a, accessToken a, idToken a, cognitoToken a, tokenExpiresAt a).

(** Two readings of the object that differ in [_authenticated] at most. *)
Definition same_but_flag (a b : Api) : Prop :=
  set_authenticated false a = set_authenticated false b.

(** The event [ev] is a call by [caller] that reaches [_safeRefresh] in
    state [s], from [path]. *)
Definition reaches_safeRefresh (ev : Event) (caller : nat) (path : Path) (s : System)
    : Prop :=
  match ev with
  | CallSafeRefresh c => c = caller /\ path = Direct
  | CallRetry c => c = caller /\ path = ViaRetry
  | CallEnsureAuthenticated c now =>
      c = caller /\ path = ViaEnsure /\
      isAuthenticated now (api s) = false /\ truthy (refreshToken (api s)) = true
  | _ => False
  end.

(** The state [s] with one more caller suspended on promise [p]. *)
Definition joined (caller p : nat) (path : Path) (s : System) : System :=
  {| api := api s; flights := flights s; promises := promises s; wire := wire s;
     waiting := waiting s ++ [(caller, p, path)]; seen := seen s |}.

(** The object as a caller finds it when promise [p], settled with [o],
    resumes it after the callers [before] it, [a] being the object the
    callback left: the flag is cleared when the refresh was rejected and
    one of those callers came through the retry path. *)
Definition via_retry (w : nat * nat * Path) : bool :=
  match snd w with ViaRetry => true | _ => false end.

Definition is_rejected (o : Outcome) : bool :=
  match o with Rejected _ => true | Fulfilled => false end.

Definition found_after (o : Outcome) (before : list (nat * nat * Path)) (a : Api) : Api :=
  if (is_rejected o && existsb via_retry before)%bool then set_authenticated false a
  else a.

(** What holds in every state the shared client can reach. *)
Record Inv (s : System) : Prop := {
  inv_flight :
    match _refreshPromise (api s) with
    | None => flights s = ∅ /\ waiting s = []
    | Some p =>
        (exists ph, flights s = {[p := ph]} /\ phase_counts p ph (wire s)) /\
        p < promises s /\
        (forall c q path, (c, q, path) ∈ waiting s -> q = p)
    end;
  inv_fresh :
    forall q, promises s <= q ->
      token_requests q (wire s) = 0 /\ login_requests q (wire s) = 0;
  inv_counts :
    forall q, token_requests q (wire s) <= 1 /\ login_requests q (wire s) <= 1;
  inv_seen :
    forall c q o a,
      (c, Awaited q o a) ∈ seen s ->
      flights s !! q = None /\ q < promises s /\
      phase_counts q (Settled o) (wire s) /\
      (forall c' o' a',
          (c', Awaited q o' a') ∈ seen s ->
          o' = o /\ same_but_flag a' a /\ (o = Fulfilled -> a' = a));
}.

(** Sample answers of the service. *)
Definition unauthorized : Response :=
  {| status := 401; text := "Unauthorized"; json := None |}.

Definition success (v : JsVal) : Response :=
  {| status := 200; text := ""; json := Some v |}.

Definition token_grant : JsVal :=
  JObject [ ("access_token", JString "access-2");
            ("id_token", JString "id-2");
            ("expires_in", JNumber (Num 28800)) ].

Definition login_grant : JsVal :=
  JObject [ ("cognitoUser", JObject [ ("Token", JString "cognito-2") ]) ].

(** A client that holds a refresh token and nothing else. *)
Definition stale_client : Api := constructor (JString "refresh-1") "mobile-1".

(** An environment whose first request is answered 401 and whose refresh
    fails. *)
Definition refusing (X : Type) (n : nat) (c : Call X) : X :=
  match c in Call T return T with
  | EnsureAuthenticated => Ok tt
  | SafeRefresh => Thrown NoRefreshTokenAvailable
  | ReadThis => stale_client
  | SetAuthenticated _ => tt
  | Clock => "2024-01-01T12:00:00.000Z"
  | Fetch _ => Some unauthorized
  end.

(** An environment whose first request is answered 401, whose refresh
    succeeds and whose second request is answered 200. *)
Definition recovering (X : Type) (n : nat) (c : Call X) : X :=
  match c in Call T return T with
  | EnsureAuthenticated => Ok tt
  | SafeRefresh => Ok tt
  | ReadThis => stale_client
  | SetAuthenticated _ => tt
  | Clock => "2024-01-01T12:00:00.000Z"
  | Fetch _ => Some (if (n <? 3)%nat then unauthorized else success (JObject []))
  end.

Definition bad_request : Response :=
  {| status := 400; text := "invalid_grant"; json := None |}.

(** Two callers meet a refresh whose token exchange is refused. *)
Definition refused_exchange : list Event :=
  [ CallEnsureAuthenticated 1 1700000000000;
    CallSafeRefresh 2;
    TokenReply 0 1700000000500 (Some bad_request);
    Finally 0 ].

(** Three callers meet one refresh: the first starts it, the second
    joins through [_ensureAuthenticated], the third through the retry
    path; both requests are answered, the callback runs. *)
Definition three_callers : list Event :=
  [ CallEnsureAuthenticated 1 1700000000000;
    CallEnsureAuthenticated 2 1700000000001;
    TokenReply 0 1700000000500 (Some (success token_grant));
    CallRetry 3;
    LoginReply 0 (Some (success login_grant));
    Finally 0 ].

(** A client that was signed in and whose tokens have lapsed. *)
Definition lapsed_client : Api :=
  {| refreshToken := JString "refresh-1";
     accessToken := JString "access-1";
     idToken := JString "id-1";
     cognitoToken := JString "cognito-1";
     tokenExpiresAt := Some (Num 1600000000000);
     _mobileId := "mobile-1";
     _authenticated := true;
     _refreshPromise := None;
     journal := [] |}.

(** A caller on the retry path starts a refresh, a second caller joins
    it through [_ensureAuthenticated]; the token exchange is refused. *)
Definition refused_retry : list Event :=
  [ CallRetry 1;
    CallEnsureAuthenticated 2 1700000000000;
    TokenReply 0 1700000000500 (Some bad_request);
    Finally 0 ].
(** The state the three callers leave behind. *)
Definition three_callers_end : System :=
  Eval vm_compute in
    default (boot stale_client) (@run decimalRuntime (boot stale_client) three_callers).

(** The state the refused exchange leaves behind. *)
Definition refused_exchange_end : System :=
  Eval vm_compute in
    default (boot stale_client) (@run decimalRuntime (boot stale_client) refused_exchange).

(** The state the refused retry leaves behind. *)
Definition refused_retry_end : System :=
  Eval vm_compute in
    default (boot lapsed_client) (@run decimalRuntime (boot lapsed_client) refused_retry).

(** The state after the first of the three callers has started the
    refresh. *)
Definition refresh_started : System :=
  Eval vm_compute in
    default (boot stale_client)
            (@run decimalRuntime (boot stale_client)
                  [CallEnsureAuthenticated 1 1700000000000]).
(** *** Initialisation with pre-set tokens *)

(** [initializeWithTokens()] up to its suspension: the guard on the two
    tokens, then the login request of [_getCognitoToken]. *)
Definition initialize_begin (a : Api) : Error + Request :=
  if (negb (truthy (accessToken a)) || negb (truthy (idToken a)))%bool
  then inl TokensNotSet
  else inr (login_request a).

(** [initializeWithTokens()] with no other caller in between: the
    requests it sends, the object it leaves and the error it throws, given
    the reply to the login request ([None] when the [fetch] rejects). *)
Definition initializeWithTokens (reply : option Response) (a : Api)
    : Api * list Request * option Error :=
  match initialize_begin a with
  | inl e => (a, [], Some e)
  | inr request =>
      match reply with
      | None => (a, [request], Some FetchRejected)
      | Some r =>
          match cognito_resume r a with
          | (a', None) => (set_authenticated true a', [request], None)
          | (a', Some e) => (a', [request], Some e)
          end
      end
  end.

(** *** Appliance state *)

(** The tail of [getApplianceState]: [null] without a payload, else the
    shadow parameters flattened into one object, with the last
    connection event beside them. *)
Definition flatten (result : JsVal) : Result Error (option Obj) :=
  match read result "payload" with
  | None => Thrown TypeError
  | Some context =>
      if negb (truthy context) then Ok None
      else
        let state := literal in
        let parameters :=
          match get context "shadow" with
          | JNull | JUndefined => JUndefined
          | shadow => get shadow "parameters"
          end in
        let state := if truthy parameters then assign state parameters else state in
        let state :=
          if truthy (get context "lastConnEvent")
          then put "lastConnEvent" (get context "lastConnEvent") state
          else state in
        Ok (Some state)
  end.

Section Endpoints.

(** The engine's percent-encoding of a query component. *)
Variable encodeURIComponent : string -> string.

(** [getApplianceState(macAddress)] *)
Definition getApplianceState (macAddress : string)
    : Prog (option Obj) :=
  result ← _apiRequest ("/commands/v1/context?macAddress="
                        ++ encodeURIComponent macAddress
                        ++ "&applianceType=AC&category=CYCLE") no_options;
  match flatten result with
  | Ok state => Return state
  | Thrown e => Throw e
  end.

End Endpoints.

(** *** Vocabulary for the statements on persistence and requests *)

(** The refresh token last handed to [onTokenRefresh], [initial] when
    the callback was never called; likewise the pair of tokens last
    handed to [onTokensUpdated]. *)
Definition stored_refreshToken (initial : JsVal) (calls : list Hook) : JsVal :=
  foldl (fun current h =>
           match h with OnTokenRefresh t => t | _ => current end) initial calls.

Definition stored_tokens (initial : JsVal * JsVal) (calls : list Hook) : JsVal * JsVal :=
  foldl (fun current h =>
           match h with OnTokensUpdated a i => (a, i) | _ => current end) initial calls.

(** The object as each [doFetch] found it, in program order. *)
Definition read_this (st : Step) : option Api :=
  match st with
  | @Did X c x =>
      match c in Call T return T -> option Api with
      | ReadThis => fun a => Some a
      | _ => fun _ => None
      end x
  end.

Definition reads (tr : list Step) : list Api := omap read_this tr.

(** A login reply that carries the token [token]. *)
Definition grants (r : Response) (token : JsVal) : Prop :=
  ok r = true /\
  exists result : JsVal,
    json r = Some result /\
    get (get result "cognitoUser") "Token" = token /\
    truthy token = true.

(** The object [a'] holds what was persisted since it was [a]: its
    journal extends that of [a], and its refresh token, access token and
    id token are the ones last handed to the callbacks (those of [a]
    where a callback was not called since). *)
Definition persisted_since (a a' : Api) : Prop :=
  exists calls : list Hook,
    journal a' = (journal a ++ calls)%list /\
    refreshToken a' = stored_refreshToken (refreshToken a) calls /\
    (accessToken a', idToken a') = stored_tokens (accessToken a, idToken a) calls /\
    _mobileId a' = _mobileId a.

(** The session flag is set and a Cognito token is at hand. *)
Definition signed_in (a : Api) : Prop :=
  _authenticated a = true /\ truthy (cognitoToken a) = true.

(** The object [b] is [a] up to the guard, or [a] up to the guard with
    the session flag cleared. *)
Definition same_or_signed_out (a b : Api) : Prop :=
  set_refreshPromise None b = set_refreshPromise None a \/
  set_refreshPromise None b = set_authenticated false (set_refreshPromise None a).

(** A call that enters the retry path of [_apiRequest]. *)
Definition is_retry (ev : Event) : bool :=
  match ev with CallRetry _ => true | _ => false end.

(** What a caller can be told by a client that never had a refresh
    token. *)
Definition told_without_token (x : Seen) : Prop :=
  x = Fresh \/ x = Refused NotAuthenticatedNoRefreshToken \/
  exists p credentials, x = Awaited p (Rejected NoRefreshTokenAvailable) credentials.

(** A client that was never given a refresh token, and three events on
    it: a caller that finds it unauthenticated, the app calling
    [_safeRefresh], and the callback of the refresh the latter started. *)
Definition bare_client : Api := constructor JUndefined "mobile-1".

Definition bare_calls : list Event :=
  [ CallEnsureAuthenticated 1 1700000000000;
    CallSafeRefresh 2;
    Finally 0 ].

(** Tokens from the login popup, installed on a new client. *)
Definition popup_client : Api :=
  setTokens 1700000000000 (JString "access-1") (JString "id-1") (JString "refresh-1")
            (constructor JUndefined "mobile-1").

End HonApi.

(** ** drivers/aircon/device.js (and the MAC handling of driver.js) *)

Module Aircon.

(** *** Wire/capability tables *)

(** Mapping from hOn machMode values to Homey HVAC modes. *)
Definition HON_TO_HVAC_MODE : gmap string string :=
  {[ "0" := "auto"; "1" := "cool"; "2" := "dry"; "3" := "dry";
     "4" := "heat"; "5" := "fan_only"; "6" := "fan_only" ]}.

Definition HVAC_MODE_TO_HON : gmap string Z :=
  {[ "auto" := 0%Z; "cool" := 1%Z; "heat" := 4%Z; "dry" := 2%Z;
     "fan_only" := 6%Z; "10_heating" := 4%Z ]}.

Definition HON_TO_FAN_SPEED : gmap string string :=
  {[ "1" := "high"; "2" := "medium"; "3" := "low"; "4" := "auto";
     "5" := "auto" ]}.

Definition FAN_SPEED_TO_HON : gmap string Z :=
  {[ "high" := 1%Z; "medium" := 2%Z; "low" := 3%Z; "auto" := 5%Z ]}.

Definition HVAC_MODE_TO_PROGRAM : gmap string string :=
  {[ "auto" := "IOT_AUTO"; "cool" := "IOT_COOL"; "heat" := "IOT_HEAT";
     "dry" := "IOT_DRY"; "fan_only" := "IOT_FAN";
     "10_heating" := "IOT_10_HEATING" ]}.

Definition ECO_PILOT_TO_HON : gmap string string :=
  {[ "off" := "0"; "avoid" := "1"; "follow" := "2" ]}.

Definition HON_TO_ECO_PILOT : gmap string string :=
  {[ "0" := "off"; "1" := "avoid"; "2" := "follow" ]}.

Record Toggle : Type := {
  capability : string;
  param : string;
  inverted : bool;
}.

(** Toggle capabilities with their API parameter names, in the order of
    the object literal. *)
Definition TOGGLE_CAPABILITIES : list Toggle :=
  [ {| capability := "hon_silent_mode"; param := "muteStatus"; inverted := false |};
    {| capability := "hon_rapid_mode"; param := "rapidMode"; inverted := false |};
    {| capability := "hon_sleep_mode"; param := "silentSleepStatus"; inverted := false |};
    {| capability := "hon_screen_display"; param := "screenDisplayStatus"; inverted := false |};
    {| capability := "hon_echo_mode"; param := "echoStatus"; inverted := true |};
    {| capability := "hon_eco_mode"; param := "ecoMode"; inverted := false |};
    {| capability := "hon_health_mode"; param := "healthMode"; inverted := false |} ].

(** [table[n]] for a number [n]: the property key of an integer is its
    decimal form; no other number names a key of the tables above. *)
Definition index_num {A} (table : gmap string A) (n : JsNum) : option A :=
  match n with
  | NaN => None
  | Num q =>
      if Qeq_bool q (inject_Z (Qfloor q)) then table !! String_of_int (Qfloor q)
      else None
  end.

(** Wire machMode to capability value and back, as the poll and the
    setters use the two tables. *)
Definition hvac_of_wire (v : Z) : option string :=
  index_num HON_TO_HVAC_MODE (Num (inject_Z v)).

Definition wire_of_hvac (mode : string) : option Z :=
  index HVAC_MODE_TO_HON (JString mode).

(** *** Canonical MAC address *)

(** [raw.split('#')[0]] *)
Definition canonicalMac (raw : string) : string :=
  match split "#" raw with
  | first :: _ => first
  | [] => ""
  end.

(** [onInit]: [this.deviceId], from [this.getData().id]. *)
Definition deviceId_of_data (id : JsVal) : string :=
  match or_else id (JString "") with
  | JString rawId => canonicalMac rawId
  | _ => ""
  end.

(** [onPairListDevices]: the [data.id] of a listed appliance. *)
Definition paired_id (macAddress applianceId : JsVal) : string :=
  match or_else (or_else macAddress applianceId) (JString "") with
  | JString fullMac => canonicalMac fullMac
  | _ => ""
  end.

(** *** The device object and its surroundings *)

Inductive Error : Type :=
| ApiNotAvailable
| TemperatureFixedInAntiFreeze
| UnknownHvacMode (value : JsVal)
| UnknownFanSpeed (value : JsVal)
| UnknownSwingMode (value : JsVal)
| CloudError (e : HonApi.Error).

(** The arguments of one [api.sendCommand(...)] call. *)
Record SendArgs : Type := {
  macAddress : string;
  commandName : string;
  parameters : gmap string JsVal;
  options : HonApi.CommandOptions;
}.

(** What the device does to the outside, in order. *)
Inductive Effect : Type :=
| SendCommand (args : SendArgs)
| SetCapabilityValue (name : string) (value : JsVal)
| Trigger (card : string) (token : string) (value : JsVal)
| SetTimeout (ms : Z).

(** The device's fields, the host's capability store, the clock, the
    answer the cloud client gives to a command, and the effects so far. *)
Record World : Type := {
  deviceId : string;
  _api : bool;
  app_api : bool;
  capabilities : gset string;
  values : gmap string JsVal;
  _mandatoryParams : option (gmap string JsVal);
  _ancillaryParams : option (gmap string JsVal);
  _applianceOptions : JsVal;
  _skipPollUntil : Z;
  clock : Z;
  cloud : SendArgs -> Result HonApi.Error JsVal;
  effects : list Effect;
}.

Definition M (A : Type) : Type := World -> Result Error A * World.

Definition ret {A} (a : A) : M A := fun w => (Ok a, w).

Definition throw {A} (e : Error) : M A := fun w => (Thrown e, w).

Definition bind {A B} (m : M A) (f : A -> M B) : M B :=
  fun w =>
    match m w with
    | (Ok a, w') => f a w'
    | (Thrown e, w') => (Thrown e, w')
    end.

#[export] Instance M_ret : MRet M := @ret.
#[export] Instance M_bind : MBind M := fun A B f m => bind m f.

Definition emit (e : Effect) (w : World) : World :=
  {| deviceId := deviceId w; _api := _api w; app_api := app_api w;
     capabilities := capabilities w; values := values w;
     _mandatoryParams := _mandatoryParams w;
     _ancillaryParams := _ancillaryParams w;
     _applianceOptions := _applianceOptions w;
     _skipPollUntil := _skipPollUntil w; clock := clock w;
     cloud := cloud w; effects := effects w ++ [e] |}.

Definition store (name : string) (v : JsVal) (w : World) : World :=
  {| deviceId := deviceId w; _api := _api w; app_api := app_api w;
     capabilities := capabilities w; values := <[name := v]> (values w);
     _mandatoryParams := _mandatoryParams w;
     _ancillaryParams := _ancillaryParams w;
     _applianceOptions := _applianceOptions w;
     _skipPollUntil := _skipPollUntil w; clock := clock w;
     cloud := cloud w; effects := effects w |}.

Definition set_api (b : bool) (w : World) : World :=
  {| deviceId := deviceId w; _api := b; app_api := app_api w;
     capabilities := capabilities w; values := values w;
     _mandatoryParams := _mandatoryParams w;
     _ancillaryParams := _ancillaryParams w;
     _applianceOptions := _applianceOptions w;
     _skipPollUntil := _skipPollUntil w; clock := clock w;
     cloud := cloud w; effects := effects w |}.

Definition set_skipPollUntil (t : Z) (w : World) : World :=
  {| deviceId := deviceId w; _api := _api w; app_api := app_api w;
     capabilities := capabilities w; values := values w;
     _mandatoryParams := _mandatoryParams w;
     _ancillaryParams := _ancillaryParams w;
     _applianceOptions := _applianceOptions w;
     _skipPollUntil := t; clock := clock w;
     cloud := cloud w; effects := effects w |}.

(** [this.getCapabilityValue(name)]: [null] until a value is set. *)
Definition getCapabilityValue (name : string) : M JsVal :=
  fun w => (Ok (default JNull (values w !! name)), w).

Definition hasCapability (name : string) : M bool :=
  fun w => (Ok (bool_decide (name ∈ capabilities w)), w).

(** [await this.setCapabilityValue(name, v).catch(this.error)]: the host
    stores the value of a capability the device has and rejects the call
    otherwise; the rejection is logged, never thrown. *)
Definition setCapabilityValue (name : string) (v : JsVal) : M unit :=
  fun w =>
    let w' := emit (SetCapabilityValue name v) w in
    (Ok tt, if bool_decide (name ∈ capabilities w) then store name v w' else w').

(** [getDeviceTriggerCard(card).trigger(this, { token: value }).catch(...)] *)
Definition trigger (card token : string) (value : JsVal) : M unit :=
  fun w => (Ok tt, emit (Trigger card token value) w).

(** [_getApi()]: the cached client, else the app's, cached from then on. *)
Definition _getApi : M bool :=
  fun w =>
    if _api w then (Ok true, w)
    else (Ok (app_api w), set_api (app_api w) w).

(** [await api.sendCommand(macAddress, commandName, parameters, options)] *)
Definition sendCommand (commandName : string) (parameters : gmap string JsVal)
    (options : HonApi.CommandOptions) : M unit :=
  fun w =>
    let args := {| macAddress := deviceId w; commandName := commandName;
                   parameters := parameters; options := options |} in
    match cloud w args with
    | Ok _ => (Ok tt, emit (SendCommand args) w)
    | Thrown e => (Thrown (CloudError e), emit (SendCommand args) w)
    end.

(** The tail shared by every setter: skip regular polls for 10 s, then
    schedule a fresh poll. *)
Definition settle : M unit :=
  fun w => (Ok tt, emit (SetTimeout 10000) (set_skipPollUntil (clock w + 10000) w)).

Definition mandatoryParams : M (gmap string JsVal) :=
  fun w => (Ok (default ∅ (_mandatoryParams w)), w).

(** The [options] every setter passes, with the given [programName]. *)
Definition commandOptions (programName : JsVal) : M HonApi.CommandOptions :=
  fun w =>
    (Ok {| HonApi.programName := programName;
           HonApi.ancillaryParameters := Some (default ∅ (_ancillaryParams w));
           HonApi.applianceOptions :=
             or_else (_applianceOptions w) (JObject []) |}, w).

(** *** Polled state to capabilities *)

(** [state.name] on the flattened state object. *)
Definition field (state : gmap string JsVal) (name : string) : JsVal :=
  default JUndefined (state !! name).

(** A wire value is a bare scalar or an object carrying the scalar under
    [parNewVal] or [parValue]. *)
Definition _extractValue (value : JsVal) : JsVal :=
  if (truthy value && is_object value)%bool then
    if has_key "parNewVal" value then get value "parNewVal"
    else if has_key "parValue" value then get value "parValue"
    else value
  else value.

(** [Number(this._extractValue(state[name]))] *)
Definition wire_number `{Runtime} (state : gmap string JsVal) (name : string) : JsNum :=
  ToNumber (_extractValue (field state name)).

Definition present (state : gmap string JsVal) (name : string) : bool :=
  negb (is_undefined (field state name)).

Definition is10Heating `{Runtime} (state : gmap string JsVal) : bool :=
  num_eqb (wire_number state "10degreeHeatingStatus") 1.

Definition when (b : bool) (m : M unit) : M unit := if b then m else mret tt.

(** The blocks of [_updateCapabilities], in source order. *)

Definition update_onoff `{Runtime} (state : gmap string JsVal) : M unit :=
  when (present state "onOffStatus")
    (let isOn := num_eqb (wire_number state "onOffStatus") 1 in
     setCapabilityValue "onoff" (JBool isOn)).

Definition update_indoor `{Runtime} (state : gmap string JsVal) : M unit :=
  when (present state "tempIndoor")
    (let temp := wire_number state "tempIndoor" in
     when (negb (isNaN temp))
       (setCapabilityValue "measure_temperature" (JNumber temp);;
        has ← hasCapability "measure_temperature.indoor";
        when has (setCapabilityValue "measure_temperature.indoor" (JNumber temp)))).

Definition update_target `{Runtime} (state : gmap string JsVal) : M unit :=
  if is10Heating state then
    setCapabilityValue "target_temperature" (JNumber (Num 10))
  else
    when (present state "tempSel")
      (let temp := wire_number state "tempSel" in
       when (negb (isNaN temp) && num_geb temp 16)%bool
         (setCapabilityValue "target_temperature" (JNumber temp))).

Definition update_mode `{Runtime} (state : gmap string JsVal) : M unit :=
  has ← hasCapability "hon_hvac_mode";
  when (present state "machMode" && has)%bool
    (prevMode ← getCapabilityValue "hon_hvac_mode";
     let newMode :=
       if is10Heating state then "10_heating"
       else
         let modeValue := wire_number state "machMode" in
         default "auto" (index_num HON_TO_HVAC_MODE modeValue) in
     setCapabilityValue "hon_hvac_mode" (JString newMode);;
     when (negb (str_eqb prevMode newMode))
       (trigger "hon_hvac_mode_changed" "mode" (JString newMode))).

Definition update_fan `{Runtime} (state : gmap string JsVal) : M unit :=
  has ← hasCapability "hon_fan_speed";
  when (present state "windSpeed" && has)%bool
    (prevSpeed ← getCapabilityValue "hon_fan_speed";
     let speedValue := wire_number state "windSpeed" in
     let speed := default "auto" (index_num HON_TO_FAN_SPEED speedValue) in
     setCapabilityValue "hon_fan_speed" (JString speed);;
     when (negb (str_eqb prevSpeed speed))
       (trigger "hon_fan_speed_changed" "speed" (JString speed))).

Definition update_swing `{Runtime} (state : gmap string JsVal) : M unit :=
  has ← hasCapability "hon_swing_mode";
  when has
    (let horizontal := wire_number state "windDirectionHorizontal" in
     let vertical := wire_number state "windDirectionVertical" in
     let swingMode :=
       if (num_eqb horizontal 7 && num_eqb vertical 8)%bool then "both"
       else if num_eqb horizontal 7 then "horizontal"
       else if num_eqb vertical 8 then "vertical"
       else "off" in
     setCapabilityValue "hon_swing_mode" (JString swingMode)).

Definition update_eco_pilot `{Runtime} (state : gmap string JsVal) : M unit :=
  has ← hasCapability "hon_eco_pilot";
  when (present state "humanSensingStatus" && has)%bool
    (prevPilot ← getCapabilityValue "hon_eco_pilot";
     let val := wire_number state "humanSensingStatus" in
     let mode := default "off" (index_num HON_TO_ECO_PILOT val) in
     setCapabilityValue "hon_eco_pilot" (JString mode);;
     when (negb (str_eqb prevPilot mode))
       (trigger "hon_eco_pilot_changed" "mode" (JString mode))).

Definition update_toggle `{Runtime} (state : gmap string JsVal) (config : Toggle) : M unit :=
  has ← hasCapability (capability config);
  when (present state (param config) && has)%bool
    (let val := num_eqb (wire_number state (param config)) 1 in
     setCapabilityValue (capability config)
       (JBool (if inverted config then negb val else val))).

Fixpoint update_toggles `{Runtime} (state : gmap string JsVal) (configs : list Toggle)
    : M unit :=
  match configs with
  | [] => mret tt
  | config :: rest => update_toggle state config;; update_toggles state rest
  end.

Definition update_outdoor `{Runtime} (state : gmap string JsVal) : M unit :=
  has ← hasCapability "measure_temperature.outdoor";
  when has
    (let outdoor := or_else (field state "tempOutdoor") (field state "tempAirOutdoor") in
     when (negb (is_undefined outdoor))
       (let temp := ToNumber (_extractValue outdoor) in
        when (negb (isNaN temp))
          (setCapabilityValue "measure_temperature.outdoor" (JNumber temp)))).

Definition _updateCapabilities `{Runtime} (state : gmap string JsVal) : M unit :=
  update_onoff state;;
  update_indoor state;;
  update_target state;;
  update_mode state;;
  update_fan state;;
  update_swing state;;
  update_eco_pilot state;;
  update_toggles state TOGGLE_CAPABILITIES;;
  update_outdoor state.

(** *** Capability setters *)

Definition text_of (n : Z) : JsVal := JString (String_of_int n).

(** [_setOnOff(value)] *)
Definition _setOnOff (value : bool) : M unit :=
  api ← _getApi;
  if negb api then throw ApiNotAvailable
  else
    (if value then
       (* Turn ON using startProgram with current mode *)
       current ← getCapabilityValue "hon_hvac_mode";
       let currentMode := or_else current (JString "auto") in
       let programName := default "IOT_AUTO" (index HVAC_MODE_TO_PROGRAM currentMode) in
       let machMode := default 0%Z (index HVAC_MODE_TO_HON currentMode) in
       mandatory ← mandatoryParams;
       let params := mandatory in
       let params := <["onOffStatus" := JString "1"]> params in
       let params := <["machMode" := text_of machMode]> params in
       opts ← commandOptions (JString programName);
       sendCommand "startProgram" params opts
     else
       (* Turn OFF using stopProgram, mandatory params included *)
       mandatory ← mandatoryParams;
       let params := mandatory in
       let params := <["onOffStatus" := JString "0"]> params in
       opts ← commandOptions JUndefined;
       sendCommand "stopProgram" params opts);;
    settle.

Definition Qltb (x y : Q) : bool := negb (Qle_bool y x).

(** [_setTargetTemperature(value)] for a finite number [value]. *)
Definition _setTargetTemperature (value : Q) : M unit :=
  api ← _getApi;
  if negb api then throw ApiNotAvailable
  else
    (* Clamp to 16-30 for normal modes (10 is only valid in anti-freeze) *)
    current ← getCapabilityValue "hon_hvac_mode";
    let currentMode := or_else current (JString "auto") in
    if str_eqb currentMode "10_heating" then throw TemperatureFixedInAntiFreeze
    else
      let value := if Qltb value 16 then 16%Q else value in
      let value := if Qltb 30 value then 30%Q else value in
      let machMode := default 0%Z (index HVAC_MODE_TO_HON currentMode) in
      fan ← getCapabilityValue "hon_fan_speed";
      let currentFanSpeed := or_else fan (JString "auto") in
      let windSpeed := default 4%Z (index FAN_SPEED_TO_HON currentFanSpeed) in
      mandatory ← mandatoryParams;
      let params := mandatory in
      let params := <["onOffStatus" := JString "1"]> params in
      let params := <["tempSel" := text_of (Math_round value)]> params in
      let params := <["machMode" := text_of machMode]> params in
      let params := <["windSpeed" := text_of windSpeed]> params in
      opts ← commandOptions JUndefined;
      sendCommand "settings" params opts;;
      settle.

(** [_setHvacMode(value)] *)
Definition _setHvacMode `{Runtime} (value : JsVal) : M unit :=
  api ← _getApi;
  if negb api then throw ApiNotAvailable
  else if str_eqb value "10_heating" then
    (* Anti-freeze mode uses startProgram with IOT_10_HEATING *)
    mandatory ← mandatoryParams;
    let params := mandatory in
    let params := <["onOffStatus" := JString "1"]> params in
    let params := <["machMode" := JString "4"]> params in
    let params := <["10degreeHeatingStatus" := JString "1"]> params in
    opts ← commandOptions (JString "IOT_10_HEATING");
    sendCommand "startProgram" params opts;;
    setCapabilityValue "target_temperature" (JNumber (Num 10));;
    setCapabilityValue "onoff" (JBool true);;
    settle
  else
    match index HVAC_MODE_TO_HON value with
    | None => throw (UnknownHvacMode value)
    | Some machMode =>
        (* Use startProgram to change mode (ensures 10degreeHeating is turned off) *)
        temp ← getCapabilityValue "target_temperature";
        let currentTemp := or_else temp (JNumber (Num 16)) in
        let currentTemp :=
          if num_ltb (ToNumber currentTemp) 16 then JNumber (Num 16) else currentTemp in
        fan ← getCapabilityValue "hon_fan_speed";
        let currentFanSpeed := or_else fan (JString "auto") in
        let windSpeed := default 5%Z (index FAN_SPEED_TO_HON currentFanSpeed) in
        let programName := default "IOT_AUTO" (index HVAC_MODE_TO_PROGRAM value) in
        mandatory ← mandatoryParams;
        let params := mandatory in
        let params := <["onOffStatus" := JString "1"]> params in
        let params := <["machMode" := text_of machMode]> params in
        let params := <["tempSel" := JString (String_of_rounded (ToNumber currentTemp))]> params in
        let params := <["windSpeed" := text_of windSpeed]> params in
        let params := <["10degreeHeatingStatus" := JString "0"]> params in
        opts ← commandOptions (JString programName);
        sendCommand "startProgram" params opts;;
        setCapabilityValue "target_temperature" currentTemp;;
        setCapabilityValue "onoff" (JBool true);;
        settle
    end.

(** The commands handed to the cloud client, oldest first. *)
Definition sent (w : World) : list SendArgs :=
  omap (fun e => match e with SendCommand args => Some args | _ => None end)
       (effects w).

(** *** Vocabulary for the statements below *)

(** [_getApi()] yields a client. *)
Definition with_api (w : World) : Prop := (_api w || app_api w)%bool = true.

(** [currentMode] as the setters read it. *)
Definition current_mode (w : World) : JsVal :=
  or_else (default JNull (values w !! "hon_hvac_mode")) (JString "auto").

(** The two guards of [_setTargetTemperature] on its argument. *)
Definition clamped (t : Q) : Q :=
  let value := if Qltb t 16 then 16%Q else t in
  if Qltb 30 value then 30%Q else value.


(** The payload the cloud client builds for a command of the device. *)
Definition envelope (iso : string) (this : HonApi.Api) (args : SendArgs)
    : Result HonApi.Error HonApi.Payload :=
  HonApi.payload iso this (macAddress args) (commandName args)
                 (parameters args) (options args).

(** The command sent last, and a parameter of it. *)
Definition last_sent (w : World) : option SendArgs := last (sent w).

Definition last_parameter (w : World) (name : string) : option (option JsVal) :=
  (fun args => parameters args !! name) <$> last_sent w.

(** A paired, idle device of an account with a live client. *)
Definition device_in (mode : JsVal) (temperature : JsVal)
    (mandatory : option (gmap string JsVal)) : World :=
  {| deviceId := "aa-bb-cc-dd-ee-ff";
     _api := false;
     app_api := true;
     capabilities :=
       {[ "onoff"; "target_temperature"; "measure_temperature";
          "hon_hvac_mode"; "hon_fan_speed" ]};
     values := {[ "hon_hvac_mode" := mode; "target_temperature" := temperature ]};
     _mandatoryParams := mandatory;
     _ancillaryParams := None;
     _applianceOptions := JUndefined;
     _skipPollUntil := 0;
     clock := 1700000000000;
     cloud := fun _ => Ok JNull;
     effects := [] |}.

(** Sample inputs. *)
Definition sample_mandatory : gmap string JsVal :=
  {[ "tempUnit" := JString "0"; "windDirectionVertical" := JString "5" ]}.

Definition cool_device : World :=
  device_in (JString "cool") (JNumber (Num 22)) (Some sample_mandatory).

Definition anti_freeze_device : World :=
  device_in (JString "10_heating") (JNumber (Num 10)) (Some sample_mandatory).


(** A device in anti-freeze mode whose mandatory set carries the flag
    at its default. *)
Definition anti_freeze_default_flag : World :=
  device_in (JString "10_heating") (JNumber (Num 10))
            (Some {[ "10degreeHeatingStatus" := JString "0" ]}).

(** *** The other setters *)

(** [_setFanSpeed(value)] *)
Definition _setFanSpeed `{Runtime} (value : JsVal) : M unit :=
  api ← _getApi;
  if negb api then throw ApiNotAvailable
  else
    match index FAN_SPEED_TO_HON value with
    | None => throw (UnknownFanSpeed value)
    | Some windSpeed =>
        (* Get current values *)
        temp ← getCapabilityValue "target_temperature";
        let currentTemp := or_else temp (JNumber (Num 16)) in
        current ← getCapabilityValue "hon_hvac_mode";
        let currentMode := or_else current (JString "auto") in
        let machMode := default 0%Z (index HVAC_MODE_TO_HON currentMode) in
        (* Start with all mandatory parameters *)
        mandatory ← mandatoryParams;
        let params := mandatory in
        let params := <["onOffStatus" := JString "1"]> params in
        let params := <["tempSel" := JString (String_of_rounded (ToNumber currentTemp))]> params in
        let params := <["machMode" := text_of machMode]> params in
        let params := <["windSpeed" := text_of windSpeed]> params in
        (* Preserve anti-freeze mode if active *)
        let params :=
          if str_eqb currentMode "10_heating"
          then <["10degreeHeatingStatus" := JString "1"]> params else params in
        opts ← commandOptions JUndefined;
        sendCommand "settings" params opts;;
        settle
    end.

(** The [switch] of [_setSwingMode]: horizontal and vertical direction. *)
Definition swing_directions (value : JsVal) : option (string * string) :=
  if str_eqb value "off" then Some ("0", "5")
  else if str_eqb value "vertical" then Some ("0", "8")
  else if str_eqb value "horizontal" then Some ("7", "5")
  else if str_eqb value "both" then Some ("7", "8")
  else None.

(** [_setSwingMode(value)] *)
Definition _setSwingMode `{Runtime} (value : JsVal) : M unit :=
  api ← _getApi;
  if negb api then throw ApiNotAvailable
  else
    match swing_directions value with
    | None => throw (UnknownSwingMode value)
    | Some (windDirectionHorizontal, windDirectionVertical) =>
        (* Get current values *)
        temp ← getCapabilityValue "target_temperature";
        let currentTemp := or_else temp (JNumber (Num 16)) in
        current ← getCapabilityValue "hon_hvac_mode";
        let currentMode := or_else current (JString "auto") in
        let machMode := default 0%Z (index HVAC_MODE_TO_HON currentMode) in
        fan ← getCapabilityValue "hon_fan_speed";
        let currentFanSpeed := or_else fan (JString "auto") in
        let windSpeed := default 4%Z (index FAN_SPEED_TO_HON currentFanSpeed) in
        (* Start with all mandatory parameters *)
        mandatory ← mandatoryParams;
        let params := mandatory in
        let params := <["onOffStatus" := JString "1"]> params in
        let params := <["tempSel" := JString (String_of_rounded (ToNumber currentTemp))]> params in
        let params := <["machMode" := text_of machMode]> params in
        let params := <["windSpeed" := text_of windSpeed]> params in
        let params := <["windDirectionHorizontal" := JString windDirectionHorizontal]> params in
        let params := <["windDirectionVertical" := JString windDirectionVertical]> params in
        (* Preserve anti-freeze mode if active *)
        let params :=
          if str_eqb currentMode "10_heating"
          then <["10degreeHeatingStatus" := JString "1"]> params else params in
        opts ← commandOptions JUndefined;
        sendCommand "settings" params opts;;
        settle
    end.

(** [_setToggle(paramName, apiValue)]: a settings command with one
    parameter changed. *)
Definition _setToggle `{Runtime} (paramName : string) (apiValue : JsVal) : M unit :=
  api ← _getApi;
  if negb api then throw ApiNotAvailable
  else
    (* Build params from current state *)
    current ← getCapabilityValue "hon_hvac_mode";
    let currentMode := or_else current (JString "auto") in
    let machMode := default 0%Z (index HVAC_MODE_TO_HON currentMode) in
    temp ← getCapabilityValue "target_temperature";
    let currentTemp := or_else temp (JNumber (Num 16)) in
    let currentTemp :=
      if num_ltb (ToNumber currentTemp) 16 then JNumber (Num 16) else currentTemp in
    fan ← getCapabilityValue "hon_fan_speed";
    let currentFanSpeed := or_else fan (JString "auto") in
    let windSpeed := default 5%Z (index FAN_SPEED_TO_HON currentFanSpeed) in
    mandatory ← mandatoryParams;
    onoff ← getCapabilityValue "onoff";
    let params := mandatory in
    let params := <["onOffStatus" := JString (if truthy onoff then "1" else "0")]> params in
    let params := <["machMode" := text_of machMode]> params in
    let params := <["tempSel" := JString (String_of_rounded (ToNumber currentTemp))]> params in
    let params := <["windSpeed" := text_of windSpeed]> params in
    (* Preserve anti-freeze mode if active *)
    let params :=
      if str_eqb currentMode "10_heating"
      then <["10degreeHeatingStatus" := JString "1"]> params else params in
    (* params[paramName] = apiValue, on the literal the spread made *)
    let params :=
      own (put paramName apiValue {| own := params; prototype := ObjectPrototype |}) in
    opts ← commandOptions JUndefined;
    sendCommand "settings" params opts;;
    settle.

(** *** Polling *)

Definition DEFAULT_POLL_INTERVAL : Z := 5000.

(** [Math.min] and [Math.max] of two numbers. *)
Definition num_min (a b : JsNum) : JsNum :=
  match a, b with
  | Num x, Num y => Num (if Qle_bool x y then x else y)
  | _, _ => NaN
  end.

Definition num_max (a b : JsNum) : JsNum :=
  match a, b with
  | Num x, Num y => Num (if Qle_bool x y then y else x)
  | _, _ => NaN
  end.

(** [_startPolling]: the period handed to [setInterval], from the
    [poll_interval] setting (seconds). *)
Definition intervalMs `{Runtime} (poll_interval : JsVal) : JsNum :=
  let intervalSec :=
    or_else poll_interval (JNumber (Num (inject_Z DEFAULT_POLL_INTERVAL / 1000))) in
  num_mul (num_max (Num 5) (num_min (Num 3600) (ToNumber intervalSec))) (Num 1000).

(** [hay.includes(needle)] *)
Fixpoint includes (needle hay : string) : bool :=
  (String.prefix needle hay
   || match hay with
      | EmptyString => false
      | String _ rest => includes needle rest
      end)%bool.

(** What a poll meets outside the device object: the client's answer to
    [isAuthenticated()], the outcome of [getApplianceState] ([null], or
    the flattened state by what its properties read as; a rejection by the
    message of its error), and the host's [getAvailable()]. *)
Record Surroundings : Type := {
  authenticated : bool;
  applianceState : Result string (option (gmap string JsVal));
  available : bool;
}.

(** The call a poll makes to the host about the device's availability. *)
Inductive Availability : Type :=
| SetUnavailable (reason : string)
| SetAvailable.

(** [_pollDeviceState()], yielding the availability call it made. *)
Definition _pollDeviceState `{Runtime} (env : Surroundings) : M (option Availability) :=
  fun w =>
    (* Skip poll if a command was recently sent *)
    if (clock w <? _skipPollUntil w)%Z then (Ok None, w)
    else
      (api ← _getApi;
       if (negb api || negb (authenticated env))%bool then
         mret (Some (SetUnavailable "Not authenticated"))
       else
         match applianceState env with
         | Ok None => mret None
         | Ok (Some state) =>
             (* Update capabilities from state *)
             _updateCapabilities state;;
             mret (if negb (available env) then Some SetAvailable else None)
         | Thrown message =>
             mret (if (includes "auth" message || includes "401" message)%bool
                   then Some (SetUnavailable "Authentication failed")
                   else None)
         end) w.



(** *** Vocabulary for the statements on setters and polls *)

(** A call of one of the six setters. *)
Inductive Setter : Type :=
| SetOnOff (value : bool)
| SetTargetTemperature (value : Q)
| SetHvacMode (value : JsVal)
| SetFanSpeed (value : JsVal)
| SetSwingMode (value : JsVal)
| SetToggle (paramName : string) (apiValue : JsVal).

Definition call `{Runtime} (s : Setter) : M unit :=
  match s with
  | SetOnOff value => _setOnOff value
  | SetTargetTemperature value => _setTargetTemperature value
  | SetHvacMode value => _setHvacMode value
  | SetFanSpeed value => _setFanSpeed value
  | SetSwingMode value => _setSwingMode value
  | SetToggle paramName apiValue => _setToggle paramName apiValue
  end.

(** The value handed to the mode setter or to the fan-speed setter is
    not a name under which every object finds a property of
    [Object.prototype]: under such a name the tables of the source answer
    with that property, which [index] leaves out. *)
Definition plain (s : Setter) : Prop :=
  match s with
  | SetHvacMode (JString name) | SetFanSpeed (JString name) =>
      name ∉ OBJECT_PROTOTYPE_NAMES
  | _ => True
  end.

(** The capability values a setter reports once its command was
    accepted, in order. *)
Fixpoint report (reports : list (string * JsVal)) : M unit :=
  match reports with
  | [] => mret tt
  | (name, value) :: rest => setCapabilityValue name value;; report rest
  end.

(** The end every setter has in common: the command with the device's
    options, the reports, the poll window and its timer. *)
Definition dispatch (commandName : string) (parameters : gmap string JsVal)
    (programName : JsVal) (reports : list (string * JsVal)) : M unit :=
  opts ← commandOptions programName;
  sendCommand commandName parameters opts;;
  report reports;;
  settle.

(** The arguments of the command a setter dispatches from [w]. *)
Definition dispatched (commandName : string) (parameters : gmap string JsVal)
    (programName : JsVal) (w : World) : SendArgs :=
  {| macAddress := deviceId w;
     commandName := commandName;
     parameters := parameters;
     options :=
       {| HonApi.programName := programName;
          HonApi.ancillaryParameters := Some (default ∅ (_ancillaryParams w));
          HonApi.applianceOptions := or_else (_applianceOptions w) (JObject []) |} |}.

(** The parameter names the setters write themselves. *)
Definition WRITTEN : list string :=
  [ "onOffStatus"; "machMode"; "tempSel"; "windSpeed"; "10degreeHeatingStatus";
    "windDirectionHorizontal"; "windDirectionVertical" ].

(** The timers armed so far. *)
Definition timers (w : World) : list Z :=
  omap (fun e => match e with SetTimeout ms => Some ms | _ => None end) (effects w).

(** [currentTemp] and [currentFanSpeed] as the setters read them, and
    [currentTemp] after the reset from the anti-freeze display value. *)
Definition current_temperature (w : World) : JsVal :=
  or_else (default JNull (values w !! "target_temperature")) (JNumber (Num 16)).

Definition floored_temperature `{Runtime} (w : World) : JsVal :=
  if num_ltb (ToNumber (current_temperature w)) 16 then JNumber (Num 16)
  else current_temperature w.

Definition current_fan (w : World) : JsVal :=
  or_else (default JNull (values w !! "hon_fan_speed")) (JString "auto").

(** The anti-freeze flag as the settings commands preserve it. *)
Definition preserved (w : World) (params : gmap string JsVal) : gmap string JsVal :=
  if str_eqb (current_mode w) "10_heating"
  then <["10degreeHeatingStatus" := JString "1"]> params
  else params.

(** The device with other capability values and a longer list of
    effects, everything else as in [w]. *)
Definition shown (v : gmap string JsVal) (e : list Effect) (w : World) : World :=
  {| deviceId := deviceId w; _api := _api w; app_api := app_api w;
     capabilities := capabilities w; values := v;
     _mandatoryParams := _mandatoryParams w;
     _ancillaryParams := _ancillaryParams w;
     _applianceOptions := _applianceOptions w;
     _skipPollUntil := _skipPollUntil w; clock := clock w;
     cloud := cloud w; effects := e |}.

(** The effects that stay within the host: a capability value, a
    trigger card. *)
Definition host_call (e : Effect) : Prop :=
  match e with
  | SetCapabilityValue _ _ | Trigger _ _ _ => True
  | SendCommand _ | SetTimeout _ => False
  end.

(** A step of the state mapping on a device with the capabilities [C]:
    it completes, lays the values [W] over the stored ones and calls
    the host only; nothing else changes. *)
Definition maps_state (C : gset string) (m : M unit) (W : gmap string JsVal) : Prop :=
  forall w : World,
    capabilities w = C ->
    exists E : list Effect,
      m w = (Ok tt, shown (W ∪ values w) (effects w ++ E) w) /\ Forall host_call E.

End Aircon.

(** * Properties *)

(** ** Objects: assignment and enumeration *)

Module ObjectProps.

Lemma existsb_eqb_elem (k : string) (seen : list string) :
  existsb (String.eqb k) seen = true <-> k ∈ seen.
Proof.
  rewrite existsb_exists. split.
  - intros (x & Hin & E). apply String.eqb_eq in E. subst. apply list_elem_of_In. exact Hin.
  - intros Hin. exists k. split; [apply list_elem_of_In; exact Hin|apply String.eqb_refl].
Qed.

Lemma put_plain (k : string) (v : JsVal) (o : Obj) :
  k <> "__proto__" -> put k v o = define k v o.
Proof.
  intros Hk. unfold put. apply String.eqb_neq in Hk. rewrite Hk.
  destruct (own o !! k); [reflexivity|].
  destruct (prototype o) as [| |fields]; try reflexivity.
  destruct (assoc k fields); reflexivity.
Qed.

Lemma put_proto (v : JsVal) (o : Obj) :
  own o !! "__proto__" = None -> prototype o = ObjectPrototype ->
  put "__proto__" v o = set_prototype v o.
Proof. intros Ho Hp. unfold put. rewrite Ho, Hp. reflexivity. Qed.

Lemma assign_own_entries (seen : list string) (fields : list (string * JsVal))
    (o : Obj) :
  own o !! "__proto__" = None ->
  (existsb (String.eqb "__proto__") seen = false -> prototype o = ObjectPrototype) ->
  let o' := foldl (fun acc entry => put (fst entry) (snd entry) acc) o
                  (own_entries seen fields) in
  (forall k,
     own o' !! k
     = if (existsb (String.eqb k) seen || String.eqb k "__proto__")%bool then own o !! k
       else match assoc k fields with
            | Some v => Some v
            | None => own o !! k
            end) /\
  prototype o'
  = if existsb (String.eqb "__proto__") seen then prototype o
    else chosen_prototype (assoc "__proto__" fields).
Proof.
  revert seen o. induction fields as [|[k' v'] rest IH]; intros seen o Ho Hp; cbn zeta.
  - cbn [own_entries foldl assoc]. split.
    + intros k. destruct (_ || _)%bool; reflexivity.
    + destruct (existsb _ seen) eqn:E; [reflexivity|]. rewrite Hp by reflexivity. reflexivity.
  - cbn [own_entries assoc].
    destruct (existsb (String.eqb k') seen) eqn:Es'.
    + destruct (IH seen o Ho Hp) as [IH1 IH2]. split.
      * intros k. rewrite IH1.
        destruct (existsb (String.eqb k) seen) eqn:Es; [reflexivity|]. cbn [orb].
        destruct (String.eqb k "__proto__"); [reflexivity|].
        destruct (String.eqb k k') eqn:E; [|reflexivity].
        apply String.eqb_eq in E. subst. congruence.
      * rewrite IH2. destruct (existsb (String.eqb "__proto__") seen) eqn:Es; [reflexivity|].
        destruct (String.eqb "__proto__" k') eqn:E; [|reflexivity].
        apply String.eqb_eq in E. subst. congruence.
    + cbn [foldl fst snd].
      destruct (String.eqb k' "__proto__") eqn:Ek.
      * apply String.eqb_eq in Ek. subst k'.
        rewrite put_proto by auto.
        assert (own (set_prototype v' o) = own o) as Eo by (destruct v'; reflexivity).
        destruct (IH ("__proto__" :: seen) (set_prototype v' o)) as [IH1 IH2].
        { rewrite Eo. exact Ho. }
        { cbn [existsb]. rewrite String.eqb_refl. discriminate. }
        split.
        -- intros k. rewrite IH1, Eo. cbn [existsb].
           destruct (String.eqb k "__proto__") eqn:E.
           ++ rewrite ?orb_true_r. reflexivity.
           ++ cbn [orb]. reflexivity.
        -- rewrite IH2. cbn [existsb]. rewrite String.eqb_refl. cbn [orb].
           rewrite Es'. unfold set_prototype.
           destruct v'; cbn [prototype chosen_prototype]; try reflexivity;
             apply Hp; exact Es'.
      * assert (k' <> "__proto__") as Hk by (apply String.eqb_neq; exact Ek).
        rewrite put_plain by exact Hk.
        destruct (IH (k' :: seen) (define k' v' o)) as [IH1 IH2].
        { cbn [define own]. rewrite lookup_insert_ne by exact Hk. exact Ho. }
        { cbn [existsb]. rewrite String.eqb_sym, Ek. cbn [orb]. exact Hp. }
        split.
        -- intros k. rewrite IH1. cbn [existsb define own].
           destruct (String.eqb k k') eqn:E.
           ++ apply String.eqb_eq in E. subst k'. cbn [orb]. rewrite Ek, Es'. cbn [orb].
              apply lookup_insert_eq.
           ++ cbn [orb]. assert (k' <> k) as Hne.
              { intros ->. rewrite String.eqb_refl in E. discriminate. }
              rewrite lookup_insert_ne by exact Hne. reflexivity.
        -- rewrite IH2. cbn [existsb define prototype].
           rewrite String.eqb_sym, Ek. reflexivity.
Qed.

Lemma assign_object (fields : list (string * JsVal)) :
  (forall k,
     own (assign literal (JObject fields)) !! k
     = if String.eqb k "__proto__" then None else assoc k fields) /\
  prototype (assign literal (JObject fields)) = chosen_prototype (assoc "__proto__" fields).
Proof.
  destruct (assign_own_entries [] fields literal) as [H1 H2];
    [apply lookup_empty|reflexivity|].
  split; [|exact H2].
  intros k. unfold assign, entries. rewrite H1. cbn [existsb orb literal own].
  rewrite lookup_empty. destruct (String.eqb k "__proto__"); [reflexivity|].
  destruct (assoc k fields); reflexivity.
Qed.

Lemma put_other (k p : string) (v : JsVal) (o : Obj) :
  k <> p -> own (put p v o) !! k = own o !! k.
Proof.
  intros Hk. unfold put.
  assert (own (define p v o) !! k = own o !! k) as Hd
    by (cbn [define own]; apply lookup_insert_ne; congruence).
  assert (own (set_prototype v o) !! k = own o !! k) as Hs
    by (destruct v; reflexivity).
  destruct (own o !! p); [exact Hd|].
  destruct (prototype o) as [| |fields]; [| exact Hd |].
  - destruct (String.eqb p "__proto__"); assumption.
  - destruct (assoc p fields); [exact Hd|].
    destruct (String.eqb p "__proto__"); assumption.
Qed.

End ObjectProps.

(** ** Device: tables, MAC, state mapping and setters *)

Module AirconProps.
Import Aircon.

Lemma split_without_separator (sep : ascii) (s : string) :
  contains sep s = false -> split sep s = [s].
Proof.
  induction s as [|c s IH]; simpl; [reflexivity|].
  intros Hc. apply orb_false_iff in Hc as [Hc Hs].
  rewrite Hc, (IH Hs). reflexivity.
Qed.

Lemma split_at_first_separator (sep : ascii) (mac suffix : string) :
  contains sep mac = false ->
  split sep (mac ++ String sep suffix) = mac :: split sep suffix.
Proof.
  induction mac as [|c mac IH]; simpl.
  - intros _. rewrite Ascii.eqb_refl. reflexivity.
  - intros Hc. apply orb_false_iff in Hc as [Hc Hs].
    rewrite Hc, (IH Hs). reflexivity.
Qed.

Lemma getApi_available (w : World) :
  with_api w -> exists w', _getApi w = (Ok true, w') /\ w' = set_api true w.
Proof.
  unfold with_api, _getApi. destruct w as [d a b c v m an ao s cl cld e]; simpl.
  destruct a; simpl; intros H.
  - eexists; split; reflexivity.
  - subst b. eexists; split; reflexivity.
Qed.

(** C9: the canonical MAC of [mac#suffix] is [mac], the part before the
    first [#], and a MAC without [#] is its own canonical form; this is
    what both [onInit] and [onPairListDevices] compute from a string. *)
Theorem canonical_mac :
  (forall mac suffix : string,
      contains "#" mac = false -> canonicalMac (mac ++ "#" ++ suffix) = mac) /\
  (forall mac : string, contains "#" mac = false -> canonicalMac mac = mac) /\
  (forall raw : string, deviceId_of_data (JString raw) = canonicalMac raw) /\
  (forall (fullMac : string) (applianceId : JsVal),
      fullMac <> "" -> paired_id (JString fullMac) applianceId = canonicalMac fullMac).
Proof.
  split; [|split; [|split]].
  - intros mac suffix H. unfold canonicalMac.
    change ("#" ++ suffix) with (String "#" suffix).
    rewrite (split_at_first_separator "#" mac suffix H). reflexivity.
  - intros mac H. unfold canonicalMac.
    rewrite (split_without_separator "#" mac H). reflexivity.
  - intros raw. unfold deviceId_of_data, or_else. simpl.
    destruct raw; reflexivity.
  - intros fullMac aid H. unfold paired_id, or_else. simpl.
    destruct fullMac; [congruence|]. reflexivity.
Qed.

(** C7: every wire machMode value in 0..6 maps to a capability value
    that maps back to the same wire value, except the aliases: 3 goes
    to dry and comes back as 2, 5 goes to fan_only and comes back as 6. *)
Theorem hvac_mode_round_trip :
  (forall v : Z,
      (0 <= v <= 6)%Z ->
      exists mode : string,
        hvac_of_wire v = Some mode /\
        wire_of_hvac mode
        = Some (if (v =? 3)%Z then 2%Z else if (v =? 5)%Z then 6%Z else v)) /\
  hvac_of_wire 3 = Some "dry" /\ wire_of_hvac "dry" = Some 2%Z /\
  hvac_of_wire 5 = Some "fan_only" /\ wire_of_hvac "fan_only" = Some 6%Z.
Proof.
  split; [|repeat split; vm_compute; reflexivity].
  intros v H.
  assert (v = 0 \/ v = 1 \/ v = 2 \/ v = 3 \/ v = 4 \/ v = 5 \/ v = 6)%Z
    as [->|[->|[->|[->|[->|[->| ->]]]]]] by lia;
    eexists; split; vm_compute; reflexivity.
Qed.

Lemma sent_emit (e : Effect) (w : World) :
  sent (emit e w)
  = (sent w ++ match e with SendCommand args => [args] | _ => [] end)%list.
Proof.
  unfold sent, emit; simpl. rewrite omap_app. simpl.
  destruct e; reflexivity.
Qed.

Lemma sendCommand_sent name params opts (w : World) :
  sent (snd (sendCommand name params opts w))
  = (sent w ++ [ {| macAddress := deviceId w; commandName := name;
                    parameters := params; options := opts |} ])%list.
Proof.
  unfold sendCommand. destruct (cloud w _); simpl; apply sent_emit.
Qed.

(** C6: the parameters of the stop command are exactly the mandatory
    set with [onOffStatus] put to "0": every other name has the value
    (or absence) it has in the mandatory set, and the envelope carries
    these parameters and no program name. *)
Theorem stop_command_parameters (w : World) :
  with_api w ->
  exists args : SendArgs,
    sent (snd (_setOnOff false w)) = (sent w ++ [args])%list /\
    commandName args = "stopProgram" /\
    parameters args
    = <["onOffStatus" := JString "0"]> (default ∅ (_mandatoryParams w)) /\
    parameters args !! "onOffStatus" = Some (JString "0") /\
    (forall name : string,
        name <> "onOffStatus" ->
        parameters args !! name = default ∅ (_mandatoryParams w) !! name) /\
    (forall (iso : string) (this : HonApi.Api),
        exists p : HonApi.Payload,
          envelope iso this args = Ok p /\
          HonApi.p_commandName p = "stopProgram" /\
          HonApi.p_parameters p = parameters args /\
          HonApi.p_programName p = None).
Proof.
  intros H.
  destruct (getApi_available w H) as (w' & Hg & ->).
  unfold _setOnOff, mbind, M_bind, bind. rewrite Hg. cbn [negb].
  unfold mandatoryParams, commandOptions, settle. cbn beta iota.
  eexists. split.
  - set (c := sendCommand _ _ _ _).
    pose proof (sendCommand_sent "stopProgram"
      (<["onOffStatus" := JString "0"]> (default ∅ (_mandatoryParams (set_api true w))))
      {| HonApi.programName := JUndefined;
         HonApi.ancillaryParameters := Some (default ∅ (_ancillaryParams (set_api true w)));
         HonApi.applianceOptions := or_else (_applianceOptions (set_api true w)) (JObject []) |}
      (set_api true w)) as Hs.
    fold c in Hs. destruct c as [[[]|e] w1]; simpl in *.
    + rewrite sent_emit, app_nil_r. exact Hs.
    + exact Hs.
  - simpl. split; [reflexivity|]. split; [reflexivity|].
    split; [apply lookup_insert_eq|]. split.
    + intros name Hn. apply lookup_insert_ne. congruence.
    + intros iso this. eexists. split; [reflexivity|]. simpl. auto.
Qed.

Lemma bind_ok {A B} (m : M A) (f : A -> M B) (w w' : World) (a : A) :
  m w = (Ok a, w') -> bind m f w = f a w'.
Proof. unfold bind. intros ->. reflexivity. Qed.

Lemma after_send name params opts (k : unit -> M unit) (w : World) :
  (forall w1, sent (snd (k tt w1)) = sent w1) ->
  sent (snd (bind (sendCommand name params opts) k w))
  = (sent w ++ [ {| macAddress := deviceId w; commandName := name;
                    parameters := params; options := opts |} ])%list.
Proof.
  intros Hk. unfold bind.
  pose proof (sendCommand_sent name params opts w) as Hs.
  destruct (sendCommand name params opts w) as [[[]|e] w1]; simpl in *.
  - rewrite Hk. exact Hs.
  - exact Hs.
Qed.

Lemma settle_quiet (w : World) : sent (snd (settle w)) = sent w.
Proof. unfold settle; simpl. rewrite sent_emit, app_nil_r. reflexivity. Qed.

Lemma setCapabilityValue_quiet name v (w : World) :
  sent (snd (setCapabilityValue name v w)) = sent w.
Proof.
  unfold setCapabilityValue; simpl.
  case_bool_decide; simpl; [change (sent (store name v (emit (SetCapabilityValue name v) w))) with (sent (emit (SetCapabilityValue name v) w))|];
  rewrite sent_emit, app_nil_r; reflexivity.
Qed.

#[export] Instance Math_round_proper : Proper (Qeq ==> eq) Math_round.
Proof. intros x y E. unfold Math_round. apply Qfloor_comp. rewrite E. reflexivity. Qed.

Lemma Math_round_integer (n : Z) : Math_round (inject_Z n) = n.
Proof.
  unfold Math_round, inject_Z, Qplus, Qfloor; simpl.
  rewrite Z.mul_1_r. 
  symmetry. apply (Z.div_unique _ _ n 1); lia.
Qed.

Lemma Qltb_lt (x y : Q) : Qltb x y = true <-> (x < y)%Q.
Proof.
  unfold Qltb. rewrite negb_true_iff. split.
  - intros H. apply Qnot_le_lt. intros Hle. apply Qle_bool_iff in Hle. congruence.
  - intros H. destruct (Qle_bool y x) eqn:E; [|reflexivity].
    apply Qle_bool_iff in E. exfalso. apply (Qlt_not_le _ _ H E).
Qed.

Lemma Qltb_ge (x y : Q) : Qltb x y = false <-> (y <= x)%Q.
Proof.
  unfold Qltb. rewrite negb_false_iff. apply Qle_bool_iff.
Qed.

Lemma clamped_min_max (t : Q) : (clamped t == Qmin 30 (Qmax 16 t))%Q.
Proof.
  unfold clamped.
  destruct (Qltb t 16) eqn:E1.
  - apply Qltb_lt in E1.
    assert (Qmax 16 t == 16)%Q as Hm by (apply Q.max_l; apply Qlt_le_weak; exact E1).
    assert (Qltb 30 16 = false) as -> by reflexivity.
    rewrite Hm. symmetry. apply Q.min_r. discriminate.
  - apply Qltb_ge in E1.
    assert (Qmax 16 t == t)%Q as Hm by (apply Q.max_r; exact E1).
    rewrite Hm.
    destruct (Qltb 30 t) eqn:E2.
    + apply Qltb_lt in E2. symmetry. apply Q.min_l. apply Qlt_le_weak; exact E2.
    + apply Qltb_ge in E2. symmetry. apply Q.min_r. exact E2.
Qed.

Lemma clamped_integer (t : Q) (n : Z) :
  (t == inject_Z n)%Q -> Math_round (clamped t) = Z.min 30 (Z.max 16 n).
Proof.
  intros E. unfold clamped.
  destruct (Qltb t 16) eqn:E1.
  - apply Qltb_lt in E1. rewrite E in E1.
    change 16%Q with (inject_Z 16) in E1. rewrite <- Zlt_Qlt in E1.
    assert (Qltb 30 16 = false) as -> by reflexivity.
    change 16%Q with (inject_Z 16). rewrite Math_round_integer. lia.
  - apply Qltb_ge in E1. rewrite E in E1.
    change 16%Q with (inject_Z 16) in E1. rewrite <- Zle_Qle in E1.
    destruct (Qltb 30 t) eqn:E2.
    + apply Qltb_lt in E2. rewrite E in E2.
      change 30%Q with (inject_Z 30) in E2. rewrite <- Zlt_Qlt in E2.
      change 30%Q with (inject_Z 30). rewrite Math_round_integer. lia.
    + apply Qltb_ge in E2. rewrite E in E2.
      change 30%Q with (inject_Z 30) in E2. rewrite <- Zle_Qle in E2.
      rewrite E, Math_round_integer. lia.
Qed.

Lemma setTargetTemperature_sends (t : Q) (w : World) :
  with_api w ->
  str_eqb (current_mode w) "10_heating" = false ->
  exists args : SendArgs,
    sent (snd (_setTargetTemperature t w)) = (sent w ++ [args])%list /\
    commandName args = "settings" /\
    parameters args !! "tempSel" = Some (text_of (Math_round (clamped t))).
Proof.
  intros H Hm.
  destruct (getApi_available w H) as (w' & Hg & ->).
  unfold _setTargetTemperature, mbind, M_bind.
  rewrite (bind_ok _ _ _ _ _ Hg). cbn [negb].
  unfold getCapabilityValue at 1. unfold bind at 1.
  change (values (set_api true w)) with (values w).
  fold (current_mode w). rewrite Hm.
  unfold getCapabilityValue, mandatoryParams, commandOptions.
  unfold bind at 1 2 3. 
  rewrite after_send by apply settle_quiet.
  eexists. split; [reflexivity|]. split; [reflexivity|].
  cbn [parameters].
  rewrite !lookup_insert_ne by discriminate.
  rewrite lookup_insert_eq. reflexivity.
Qed.

Lemma not_anti_freeze (w : World) :
  values w !! "hon_hvac_mode" <> Some (JString "10_heating") ->
  str_eqb (current_mode w) "10_heating" = false.
Proof.
  intros H. unfold current_mode, or_else.
  destruct (values w !! "hon_hvac_mode") as [v|]; simpl; [|reflexivity].
  destruct (truthy v); [|reflexivity].
  destruct v; simpl; try reflexivity.
  destruct (String.eqb s "10_heating") eqn:E; [|reflexivity].
  apply String.eqb_eq in E. subst s. congruence.
Qed.

(** C4 (as amended): outside anti-freeze, a request for [t] sends the
    settings command with [tempSel] the decimal form of
    [Math.round(min(30, max(16, t)))]; for an integer [t] this is
    [min(30, max(16, t))] itself, so 5 gives "16", 35 gives "30" and 22
    gives "22". *)
Theorem target_temperature_sent (t : Q) (w : World) :
  with_api w ->
  values w !! "hon_hvac_mode" <> Some (JString "10_heating") ->
  exists args : SendArgs,
    sent (snd (_setTargetTemperature t w)) = (sent w ++ [args])%list /\
    commandName args = "settings" /\
    parameters args !! "tempSel"
    = Some (JString (String_of_int (Math_round (Qmin 30 (Qmax 16 t))))) /\
    (forall n : Z,
        (t == inject_Z n)%Q ->
        parameters args !! "tempSel"
        = Some (JString (String_of_int (Z.min 30 (Z.max 16 n))))).
Proof.
  intros H Hm.
  destruct (setTargetTemperature_sends t w H (not_anti_freeze w Hm))
    as (args & Hs & Hc & Ht).
  exists args. split; [exact Hs|]. split; [exact Hc|]. split.
  - rewrite Ht. unfold text_of. rewrite (clamped_min_max t). reflexivity.
  - intros n E. rewrite Ht. unfold text_of.
    rewrite (clamped_integer t n E). reflexivity.
Qed.

(** A request for 22.5 in cool mode sends "23", which is not
    [min(30, max(16, 22.5))]. *)
Lemma half_degree_is_rounded :
  last_parameter
    (snd (_setTargetTemperature (45 # 2)
            (device_in (JString "cool") (JNumber (Num 22)) None)))
    "tempSel"
  = Some (Some (JString "23"))
  /\ ~ (Qmin 30 (Qmax 16 (45 # 2)) == 23)%Q.
Proof.
  split; [vm_compute; reflexivity|].
  intros E. vm_compute in E. discriminate.
Qed.

Lemma bind_quiet {A} (m : M A) (k : A -> M unit) (w : World) :
  sent (snd (m w)) = sent w ->
  (forall a w1, sent (snd (k a w1)) = sent w1) ->
  sent (snd (bind m k w)) = sent w.
Proof.
  intros Hm Hk. unfold bind. destruct (m w) as [[a|e] w1]; simpl in *.
  - rewrite Hk. exact Hm.
  - exact Hm.
Qed.

Lemma report_tail_quiet (v : JsVal) (w : World) :
  sent (snd ((setCapabilityValue "target_temperature" v;;
              setCapabilityValue "onoff" (JBool true);;
              settle) w)) = sent w.
Proof.
  unfold mbind, M_bind.
  apply bind_quiet; [apply setCapabilityValue_quiet|]. intros _ w1.
  apply bind_quiet; [apply setCapabilityValue_quiet|]. intros _ w2.
  apply settle_quiet.
Qed.

Lemma program_modes (mode program : string) :
  HVAC_MODE_TO_PROGRAM !! mode = Some program ->
  (mode, program) ∈ [ ("auto", "IOT_AUTO"); ("cool", "IOT_COOL");
                      ("heat", "IOT_HEAT"); ("dry", "IOT_DRY");
                      ("fan_only", "IOT_FAN");
                      ("10_heating", "IOT_10_HEATING") ].
Proof.
  unfold HVAC_MODE_TO_PROGRAM. intros H.
  repeat (rewrite lookup_insert in H; case_decide;
          [simplify_eq; set_solver|]).
  rewrite lookup_singleton in H. case_decide; simplify_eq. set_solver.
Qed.

(** The anti-freeze branch of [_setHvacMode]. *)
Lemma setHvacMode_anti_freeze `{Runtime} (w : World) :
  with_api w ->
  exists args : SendArgs,
    sent (snd (_setHvacMode (JString "10_heating") w)) = (sent w ++ [args])%list /\
    commandName args = "startProgram" /\
    HonApi.programName (options args) = JString "IOT_10_HEATING" /\
    parameters args !! "machMode" = Some (JString "4") /\
    parameters args !! "10degreeHeatingStatus" = Some (JString "1").
Proof.
  intros Hw.
  destruct (getApi_available w Hw) as (w' & Hg & ->).
  unfold _setHvacMode, mbind, M_bind.
  rewrite (bind_ok _ _ _ _ _ Hg). cbn [negb].
  change (str_eqb (JString "10_heating") "10_heating") with true. cbn iota.
  unfold mandatoryParams, commandOptions. unfold bind at 1 2.
  rewrite after_send by (intros w1; apply (report_tail_quiet _ w1)).
  eexists. split; [reflexivity|]. split; [reflexivity|]. split; [reflexivity|].
  cbn [parameters]. split.
  - rewrite lookup_insert_ne by discriminate. apply lookup_insert_eq.
  - apply lookup_insert_eq.
Qed.

(** The mode-change branch of [_setHvacMode]. *)
Lemma setHvacMode_change `{Runtime} (value : JsVal) (machMode : Z) (w : World) :
  with_api w ->
  str_eqb value "10_heating" = false ->
  index HVAC_MODE_TO_HON value = Some machMode ->
  exists args : SendArgs,
    sent (snd (_setHvacMode value w)) = (sent w ++ [args])%list /\
    commandName args = "startProgram" /\
    HonApi.programName (options args)
    = JString (default "IOT_AUTO" (index HVAC_MODE_TO_PROGRAM value)) /\
    parameters args !! "machMode" = Some (text_of machMode) /\
    parameters args !! "10degreeHeatingStatus" = Some (JString "0").
Proof.
  intros Hw Hv Hm.
  destruct (getApi_available w Hw) as (w' & Hg & ->).
  unfold _setHvacMode, mbind, M_bind.
  rewrite (bind_ok _ _ _ _ _ Hg). cbn [negb].
  rewrite Hv, Hm.
  unfold getCapabilityValue, mandatoryParams, commandOptions.
  unfold bind at 1 2 3 4.
  rewrite after_send by (intros w1; apply (report_tail_quiet _ w1)).
  eexists. split; [reflexivity|]. split; [reflexivity|]. split; [reflexivity|].
  cbn [parameters]. split.
  - rewrite !lookup_insert_ne by discriminate. apply lookup_insert_eq.
  - apply lookup_insert_eq.
Qed.

Lemma after_send_at (m : M unit) (k : unit -> M unit) (w : World)
    name params opts :
  m w = sendCommand name params opts w ->
  (forall w1, sent (snd (k tt w1)) = sent w1) ->
  sent (snd (bind m k w))
  = (sent w ++ [ {| macAddress := deviceId w; commandName := name;
                    parameters := params; options := opts |} ])%list.
Proof.
  intros E Hk. rewrite <- (after_send name params opts k w Hk).
  unfold bind. rewrite E. reflexivity.
Qed.

(** Power-on through [_setOnOff(true)]. *)
Lemma setOnOff_on (w : World) :
  with_api w ->
  exists args : SendArgs,
    sent (snd (_setOnOff true w)) = (sent w ++ [args])%list /\
    commandName args = "startProgram" /\
    HonApi.programName (options args)
    = JString (default "IOT_AUTO" (index HVAC_MODE_TO_PROGRAM (current_mode w))) /\
    parameters args
    = <["machMode" := text_of (default 0%Z (index HVAC_MODE_TO_HON (current_mode w)))]>
        (<["onOffStatus" := JString "1"]> (default ∅ (_mandatoryParams w))).
Proof.
  intros Hw.
  destruct (getApi_available w Hw) as (w' & Hg & ->).
  unfold _setOnOff, mbind, M_bind.
  rewrite (bind_ok _ _ _ _ _ Hg). cbn [negb].
  unfold getCapabilityValue, mandatoryParams, commandOptions.
  unfold bind at 2 3 4. cbn beta.
  erewrite after_send_at; [|reflexivity|apply settle_quiet].
  eexists. split; [reflexivity|]. split; [reflexivity|]. split; reflexivity.
Qed.

Lemma current_mode_known (mode : string) (w : World) :
  mode <> "" ->
  values w !! "hon_hvac_mode" = Some (JString mode) ->
  current_mode w = JString mode.
Proof.
  intros Hn Hv. unfold current_mode, or_else. rewrite Hv. simpl.
  destruct (String.eqb mode "") eqn:E; [|reflexivity].
  apply String.eqb_eq in E. contradiction.
Qed.

(** C3 (as amended): for every mode X with program identifier P, every
    path that issues a startProgram command for X, the mode change and the
    power-on through the on/off capability alike, carries programName
    equal to the upper-cased P; the mode change writes the anti-freeze flag
    into the outgoing parameters, "1" when X is anti-freeze and "0"
    otherwise. *)
Theorem start_program_name_and_flag `{Runtime} (mode program : string) (w : World) :
  HVAC_MODE_TO_PROGRAM !! mode = Some program ->
  with_api w ->
  (exists args : SendArgs,
      sent (snd (_setHvacMode (JString mode) w)) = (sent w ++ [args])%list /\
      commandName args = "startProgram" /\
      (forall iso this, exists p,
          envelope iso this args = Ok p /\
          HonApi.p_programName p = Some (toUpperCase program)) /\
      parameters args !! "10degreeHeatingStatus"
      = Some (JString (if String.eqb mode "10_heating" then "1" else "0")))
  /\
  (values w !! "hon_hvac_mode" = Some (JString mode) ->
   exists args : SendArgs,
      sent (snd (_setOnOff true w)) = (sent w ++ [args])%list /\
      commandName args = "startProgram" /\
      (forall iso this, exists p,
          envelope iso this args = Ok p /\
          HonApi.p_programName p = Some (toUpperCase program))).
Proof.
  intros Hp Hw. split.
  - apply program_modes in Hp.
    rewrite !elem_of_cons, elem_of_nil in Hp.
    destruct Hp as [Hp|[Hp|[Hp|[Hp|[Hp|[Hp|[]]]]]]]; simplify_eq.
    6: { destruct (setHvacMode_anti_freeze w Hw) as (args & Hs & Hc & Hn & _ & Hf).
         exists args. split; [exact Hs|]. split; [exact Hc|]. split; [|exact Hf].
         intros iso this. unfold envelope, HonApi.payload. rewrite Hc, Hn.
         eexists; split; reflexivity. }
    all: match goal with
         | Hw' : with_api ?w0 |- context [_setHvacMode (JString ?m) ?w0] =>
             edestruct (setHvacMode_change (JString m))
               as (args & Hs & Hc & Hn & _ & Hf);
             [exact Hw'|reflexivity|vm_compute; reflexivity|]
         end;
      exists args; (split; [exact Hs|]); (split; [exact Hc|]); (split; [|exact Hf]);
      intros iso this; unfold envelope, HonApi.payload; rewrite Hc, Hn;
      eexists; split; reflexivity.
  - intros Hv.
    destruct (setOnOff_on w Hw) as (args & Hs & Hc & Hn & Hpar).
    assert (mode <> "") as Hne.
    { intros ->. vm_compute in Hp. discriminate. }
    rewrite (current_mode_known mode w Hne Hv) in Hn.
    exists args. split; [exact Hs|]. split; [exact Hc|].
    intros iso this. unfold envelope, HonApi.payload. rewrite Hc, Hn.
    simpl. rewrite Hp. simpl.
    apply program_modes in Hp.
    rewrite !elem_of_cons, elem_of_nil in Hp.
    destruct Hp as [Hp|[Hp|[Hp|[Hp|[Hp|[Hp|[]]]]]]]; simplify_eq;
      eexists; split; reflexivity.
Qed.

(** Power-on in cool mode before the mandatory set is known sends
    startProgram without the anti-freeze flag; power-on in anti-freeze
    mode sends the flag as the mandatory set has it, here "0". *)
Lemma power_on_leaves_flag_unwritten :
  let w := snd (_setOnOff true (device_in (JString "cool") (JNumber (Num 22)) None)) in
  let w' := snd (_setOnOff true anti_freeze_default_flag) in
  (commandName <$> last_sent w) = Some "startProgram" /\
  last_parameter w "onOffStatus" = Some (Some (JString "1")) /\
  last_parameter w "10degreeHeatingStatus" = Some None /\
  last_parameter w "10degreeHeatingStatus" <> Some (Some (JString "0")) /\
  (commandName <$> last_sent w') = Some "startProgram" /\
  last_parameter w' "10degreeHeatingStatus" = Some (Some (JString "0")) /\
  last_parameter w' "10degreeHeatingStatus" <> Some (Some (JString "1")).
Proof.
  split; [vm_compute; reflexivity|].
  split; [vm_compute; reflexivity|].
  split; [vm_compute; reflexivity|].
  split; [vm_compute; discriminate|].
  split; [vm_compute; reflexivity|].
  split; [vm_compute; reflexivity|].
  vm_compute. discriminate.
Qed.

(** C5: while the mode capability is anti-freeze, a target-temperature
    request throws and does nothing else: no effect is emitted (so no
    command reaches the cloud client), and the capability values and the
    poll window stay as they were; with a client at hand the error is
    the anti-freeze one. *)
Theorem anti_freeze_rejects_temperature (t : Q) (w : World) :
  values w !! "hon_hvac_mode" = Some (JString "10_heating") ->
  let r := _setTargetTemperature t w in
  (exists e : Error, fst r = Thrown e) /\
  (with_api w -> fst r = Thrown TemperatureFixedInAntiFreeze) /\
  effects (snd r) = effects w /\
  sent (snd r) = sent w /\
  values (snd r) = values w /\
  _skipPollUntil (snd r) = _skipPollUntil w.
Proof.
  intros Hv r. subst r.
  unfold _setTargetTemperature, mbind, M_bind, bind, _getApi, getCapabilityValue.
  unfold with_api.
  destruct (_api w) eqn:Ea; [|destruct (app_api w) eqn:Eb]; cbn [negb fst snd orb];
    try (change (values (set_api true w)) with (values w));
    rewrite ?Hv; cbn -[sent]; unfold throw; cbn -[sent];
    repeat split; eauto; try discriminate.
Qed.

(** *** The state mapping, block by block *)

Lemma seq_run (m n : M unit) (w : World) :
  fst (m w) = Ok tt -> (m;; n) w = n (snd (m w)).
Proof.
  unfold mbind, M_bind, bind. destruct (m w) as [[[]|e] w1]; simpl; [reflexivity|discriminate].
Qed.




















(** *** The setters, resolved *)

Lemma getApi_run (w : World) :
  _getApi w = (Ok (_api w || app_api w)%bool, set_api (_api w || app_api w) w).
Proof.
  unfold _getApi. destruct w as [d a b c v m an ao s cl cld e]; simpl.
  destruct a; reflexivity.
Qed.

Lemma with_api_run {A} (k : bool -> M A) (w : World) :
  with_api w -> bind _getApi k w = k true (set_api true w).
Proof. intros Hw. unfold bind. rewrite getApi_run, Hw. reflexivity. Qed.

Lemma setOnOff_on_run (w : World) :
  with_api w ->
  _setOnOff true w
  = dispatch "startProgram"
      (<["machMode" := text_of (default 0%Z (index HVAC_MODE_TO_HON (current_mode w)))]>
         (<["onOffStatus" := JString "1"]> (default ∅ (_mandatoryParams w))))
      (JString (default "IOT_AUTO" (index HVAC_MODE_TO_PROGRAM (current_mode w)))) []
      (set_api true w).
Proof.
  intros Hw. unfold _setOnOff, mbind, M_bind. rewrite (with_api_run _ w Hw).
  reflexivity.
Qed.

Lemma setOnOff_off_run (w : World) :
  with_api w ->
  _setOnOff false w
  = dispatch "stopProgram"
      (<["onOffStatus" := JString "0"]> (default ∅ (_mandatoryParams w)))
      JUndefined [] (set_api true w).
Proof.
  intros Hw. unfold _setOnOff, mbind, M_bind. rewrite (with_api_run _ w Hw).
  reflexivity.
Qed.

Lemma setTargetTemperature_run (value : Q) (w : World) :
  with_api w ->
  str_eqb (current_mode w) "10_heating" = false ->
  _setTargetTemperature value w
  = dispatch "settings"
      (<["windSpeed" := text_of (default 4%Z (index FAN_SPEED_TO_HON (current_fan w)))]>
         (<["machMode" := text_of (default 0%Z (index HVAC_MODE_TO_HON (current_mode w)))]>
            (<["tempSel" := text_of (Math_round (clamped value))]>
               (<["onOffStatus" := JString "1"]> (default ∅ (_mandatoryParams w))))))
      JUndefined [] (set_api true w).
Proof.
  intros Hw Hm. unfold _setTargetTemperature, mbind, M_bind.
  rewrite (with_api_run _ w Hw). cbn [negb].
  unfold bind at 1. unfold getCapabilityValue at 1.
  change (values (set_api true w)) with (values w). fold (current_mode w).
  rewrite Hm. reflexivity.
Qed.

Lemma setHvacMode_anti_freeze_run `{Runtime} (w : World) :
  with_api w ->
  _setHvacMode (JString "10_heating") w
  = dispatch "startProgram"
      (<["10degreeHeatingStatus" := JString "1"]>
         (<["machMode" := JString "4"]>
            (<["onOffStatus" := JString "1"]> (default ∅ (_mandatoryParams w)))))
      (JString "IOT_10_HEATING")
      [("target_temperature", JNumber (Num 10)); ("onoff", JBool true)]
      (set_api true w).
Proof.
  intros Hw. unfold _setHvacMode, mbind, M_bind. rewrite (with_api_run _ w Hw).
  reflexivity.
Qed.

Lemma setHvacMode_change_run `{Runtime} (value : JsVal) (machMode : Z) (w : World) :
  with_api w ->
  str_eqb value "10_heating" = false ->
  index HVAC_MODE_TO_HON value = Some machMode ->
  _setHvacMode value w
  = dispatch "startProgram"
      (<["10degreeHeatingStatus" := JString "0"]>
         (<["windSpeed" := text_of (default 5%Z (index FAN_SPEED_TO_HON (current_fan w)))]>
            (<["tempSel" := JString (String_of_rounded (ToNumber (floored_temperature w)))]>
               (<["machMode" := text_of machMode]>
                  (<["onOffStatus" := JString "1"]> (default ∅ (_mandatoryParams w)))))))
      (JString (default "IOT_AUTO" (index HVAC_MODE_TO_PROGRAM value)))
      [("target_temperature", floored_temperature w); ("onoff", JBool true)]
      (set_api true w).
Proof.
  intros Hw Hv Hm. unfold _setHvacMode, mbind, M_bind. rewrite (with_api_run _ w Hw).
  cbn [negb]. rewrite Hv, Hm. reflexivity.
Qed.

Lemma setFanSpeed_run `{Runtime} (value : JsVal) (windSpeed : Z) (w : World) :
  with_api w ->
  index FAN_SPEED_TO_HON value = Some windSpeed ->
  _setFanSpeed value w
  = dispatch "settings"
      (preserved w
         (<["windSpeed" := text_of windSpeed]>
            (<["machMode" := text_of (default 0%Z (index HVAC_MODE_TO_HON (current_mode w)))]>
               (<["tempSel" := JString (String_of_rounded (ToNumber (current_temperature w)))]>
                  (<["onOffStatus" := JString "1"]> (default ∅ (_mandatoryParams w)))))))
      JUndefined [] (set_api true w).
Proof.
  intros Hw Hv. unfold _setFanSpeed, mbind, M_bind. rewrite (with_api_run _ w Hw).
  cbn [negb]. rewrite Hv. reflexivity.
Qed.

Lemma setSwingMode_run `{Runtime} (value : JsVal) (horizontal vertical : string) (w : World) :
  with_api w ->
  swing_directions value = Some (horizontal, vertical) ->
  _setSwingMode value w
  = dispatch "settings"
      (preserved w
         (<["windDirectionVertical" := JString vertical]>
            (<["windDirectionHorizontal" := JString horizontal]>
               (<["windSpeed" := text_of (default 4%Z (index FAN_SPEED_TO_HON (current_fan w)))]>
                  (<["machMode" := text_of (default 0%Z (index HVAC_MODE_TO_HON (current_mode w)))]>
                     (<["tempSel" := JString (String_of_rounded (ToNumber (current_temperature w)))]>
                        (<["onOffStatus" := JString "1"]> (default ∅ (_mandatoryParams w)))))))))
      JUndefined [] (set_api true w).
Proof.
  intros Hw Hv. unfold _setSwingMode, mbind, M_bind. rewrite (with_api_run _ w Hw).
  cbn [negb]. rewrite Hv. reflexivity.
Qed.

Lemma setToggle_run `{Runtime} (paramName : string) (apiValue : JsVal) (w : World) :
  with_api w ->
  _setToggle paramName apiValue w
  = dispatch "settings"
      (own (put paramName apiValue
         {| own :=
              preserved w
                (<["windSpeed" := text_of (default 5%Z (index FAN_SPEED_TO_HON (current_fan w)))]>
                   (<["tempSel" := JString (String_of_rounded (ToNumber (floored_temperature w)))]>
                      (<["machMode" := text_of (default 0%Z (index HVAC_MODE_TO_HON (current_mode w)))]>
                         (<["onOffStatus" :=
                              JString (if truthy (default JNull (values w !! "onoff"))
                                       then "1" else "0")]>
                            (default ∅ (_mandatoryParams w))))));
            prototype := ObjectPrototype |}))
      JUndefined [] (set_api true w).
Proof.
  intros Hw. unfold _setToggle, mbind, M_bind. rewrite (with_api_run _ w Hw).
  reflexivity.
Qed.

Lemma without_api_run {A} (k : bool -> M A) (w : World) :
  (_api w || app_api w)%bool = false ->
  bind _getApi k w = k false w.
Proof.
  intros Hw. unfold bind. rewrite getApi_run, Hw.
  apply orb_false_iff in Hw as [Ha Hb].
  destruct w as [d a b c v m an ao s cl cld e]; simpl in *. subst. reflexivity.
Qed.

(** *** The common end of the setters *)

Lemma setCapabilityValue_run (name : string) (value : JsVal) (w : World) :
  fst (setCapabilityValue name value w) = Ok tt /\
  effects (snd (setCapabilityValue name value w))
  = (effects w ++ [SetCapabilityValue name value])%list /\
  deviceId (snd (setCapabilityValue name value w)) = deviceId w /\
  capabilities (snd (setCapabilityValue name value w)) = capabilities w /\
  _skipPollUntil (snd (setCapabilityValue name value w)) = _skipPollUntil w /\
  clock (snd (setCapabilityValue name value w)) = clock w /\
  _mandatoryParams (snd (setCapabilityValue name value w)) = _mandatoryParams w.
Proof.
  unfold setCapabilityValue. cbn [fst snd]. case_bool_decide; repeat split.
Qed.

Lemma report_run (reports : list (string * JsVal)) (w : World) :
  fst (report reports w) = Ok tt /\
  effects (snd (report reports w))
  = (effects w ++ map (fun r => SetCapabilityValue (fst r) (snd r)) reports)%list /\
  deviceId (snd (report reports w)) = deviceId w /\
  capabilities (snd (report reports w)) = capabilities w /\
  _skipPollUntil (snd (report reports w)) = _skipPollUntil w /\
  clock (snd (report reports w)) = clock w /\
  _mandatoryParams (snd (report reports w)) = _mandatoryParams w.
Proof.
  revert w. induction reports as [|[name value] rest IH]; intros w.
  - cbn. rewrite app_nil_r. repeat split.
  - cbn [report].
    destruct (setCapabilityValue_run name value w) as (R1 & E1 & D1 & C1 & S1 & K1 & M1).
    rewrite (seq_run _ _ w R1).
    destruct (IH (snd (setCapabilityValue name value w))) as (R & E & D & C & S & K & M).
    rewrite R, E, D, C, S, K, M, E1, D1, C1, S1, K1, M1.
    cbn [map fst snd]. rewrite <- app_assoc. repeat split.
Qed.

Lemma dispatch_accepted name params programName reports (w : World) (r : JsVal) :
  cloud w (dispatched name params programName w) = Ok r ->
  dispatch name params programName reports w
  = settle (snd (report reports (emit (SendCommand (dispatched name params programName w)) w))).
Proof.
  intros Hc. unfold dispatch, mbind, M_bind, bind, commandOptions, sendCommand.
  fold (dispatched name params programName w). rewrite Hc.
  destruct (report_run reports (emit (SendCommand (dispatched name params programName w)) w))
    as (R & _).
  destruct (report reports _) as [[[]|e] w1]; [reflexivity|discriminate].
Qed.

Lemma dispatch_rejected name params programName reports (w : World) (e : HonApi.Error) :
  cloud w (dispatched name params programName w) = Thrown e ->
  dispatch name params programName reports w
  = (Thrown (CloudError e), emit (SendCommand (dispatched name params programName w)) w).
Proof.
  intros Hc. unfold dispatch, mbind, M_bind, bind, commandOptions, sendCommand.
  fold (dispatched name params programName w). rewrite Hc. reflexivity.
Qed.

Lemma call_without_api `{Runtime} (s : Setter) (w : World) :
  (_api w || app_api w)%bool = false -> call s w = (Thrown ApiNotAvailable, w).
Proof.
  intros Hw.
  destruct s; unfold call, _setOnOff, _setTargetTemperature, _setHvacMode,
    _setFanSpeed, _setSwingMode, _setToggle, mbind, M_bind;
    rewrite (without_api_run _ w Hw); reflexivity.
Qed.

(** Whatever a setter is called with, it either throws before it talks
    to the cloud or dispatches one command, whose parameters extend the
    mandatory set. *)
Lemma call_cases `{Runtime} (s : Setter) (w : World) :
  let w0 := set_api (_api w || app_api w) w in
  (exists e, call s w = (Thrown e, w0) /\ forall e', e <> CloudError e') \/
  (exists name params programName reports,
      call s w = dispatch name params programName reports w0 /\
      forall k, k ∉ WRITTEN ->
                (forall p v, s = SetToggle p v -> k <> p) ->
                params !! k = default ∅ (_mandatoryParams w) !! k).
Proof.
  intros w0. subst w0.
  destruct (_api w || app_api w)%bool eqn:Hw.
  2: { left. exists ApiNotAvailable. split; [|discriminate].
       rewrite (call_without_api s w Hw).
       apply orb_false_iff in Hw as [Ha Hb].
       destruct w as [d a b c v m an ao sk cl cld e]; simpl in *; subst; reflexivity. }
  assert (forall k (m : gmap string JsVal), k ∉ WRITTEN ->
            k <> "onOffStatus" /\ k <> "machMode" /\ k <> "tempSel" /\ k <> "windSpeed" /\
            k <> "10degreeHeatingStatus" /\ k <> "windDirectionHorizontal" /\
            k <> "windDirectionVertical") as Hk.
  { intros k _ Hn. unfold WRITTEN in Hn. rewrite !not_elem_of_cons in Hn. tauto. }
  assert (forall k (m : gmap string JsVal), k ∉ WRITTEN ->
            preserved w m !! k = m !! k) as Hpres.
  { intros k m Hn. destruct (Hk k m Hn) as (_ & _ & _ & _ & H5 & _).
    unfold preserved. destruct (str_eqb _ _); [|reflexivity].
    apply lookup_insert_ne. congruence. }
  destruct s as [[|]|value|value|value|value|paramName apiValue]; cbn [call].
  - right. do 4 eexists. split; [apply setOnOff_on_run; exact Hw|].
    intros k Hn _. destruct (Hk k ∅ Hn) as (? & ? & ? & ? & ? & ? & ?).
    rewrite !lookup_insert_ne by congruence. reflexivity.
  - right. do 4 eexists. split; [apply setOnOff_off_run; exact Hw|].
    intros k Hn _. destruct (Hk k ∅ Hn) as (? & ? & ? & ? & ? & ? & ?).
    rewrite !lookup_insert_ne by congruence. reflexivity.
  - destruct (str_eqb (current_mode w) "10_heating") eqn:Hm.
    + left. exists TemperatureFixedInAntiFreeze. split; [|discriminate].
      unfold _setTargetTemperature, mbind, M_bind. rewrite (with_api_run _ w Hw).
      cbn [negb]. unfold bind at 1. unfold getCapabilityValue at 1.
      change (values (set_api true w)) with (values w). fold (current_mode w).
      rewrite Hm. reflexivity.
    + right. do 4 eexists. split; [apply setTargetTemperature_run; assumption|].
      intros k Hn _. destruct (Hk k ∅ Hn) as (? & ? & ? & ? & ? & ? & ?).
      rewrite !lookup_insert_ne by congruence. reflexivity.
  - destruct (str_eqb value "10_heating") eqn:Hv.
    + right. destruct value as [| | | |mode|]; try discriminate.
      apply String.eqb_eq in Hv. subst mode.
      do 4 eexists. split; [apply setHvacMode_anti_freeze_run; exact Hw|].
      intros k Hn _. destruct (Hk k ∅ Hn) as (? & ? & ? & ? & ? & ? & ?).
      rewrite !lookup_insert_ne by congruence. reflexivity.
    + destruct (index HVAC_MODE_TO_HON value) as [machMode|] eqn:Hi.
      * right. do 4 eexists.
        split; [apply (setHvacMode_change_run value machMode); assumption|].
        intros k Hn _. destruct (Hk k ∅ Hn) as (? & ? & ? & ? & ? & ? & ?).
        rewrite !lookup_insert_ne by congruence. reflexivity.
      * left. exists (UnknownHvacMode value). split; [|discriminate].
        unfold _setHvacMode, mbind, M_bind. rewrite (with_api_run _ w Hw).
        cbn [negb]. rewrite Hv, Hi. reflexivity.
  - destruct (index FAN_SPEED_TO_HON value) as [windSpeed|] eqn:Hi.
    + right. do 4 eexists.
      split; [apply (setFanSpeed_run value windSpeed); assumption|].
      intros k Hn _. destruct (Hk k ∅ Hn) as (? & ? & ? & ? & ? & ? & ?).
      rewrite Hpres by exact Hn.
      rewrite !lookup_insert_ne by congruence. reflexivity.
    + left. exists (UnknownFanSpeed value). split; [|discriminate].
      unfold _setFanSpeed, mbind, M_bind. rewrite (with_api_run _ w Hw).
      cbn [negb]. rewrite Hi. reflexivity.
  - destruct (swing_directions value) as [[horizontal vertical]|] eqn:Hi.
    + right. do 4 eexists.
      split; [apply (setSwingMode_run value horizontal vertical); assumption|].
      intros k Hn _. destruct (Hk k ∅ Hn) as (? & ? & ? & ? & ? & ? & ?).
      rewrite Hpres by exact Hn.
      rewrite !lookup_insert_ne by congruence. reflexivity.
    + left. exists (UnknownSwingMode value). split; [|discriminate].
      unfold _setSwingMode, mbind, M_bind. rewrite (with_api_run _ w Hw).
      cbn [negb]. rewrite Hi. reflexivity.
  - right. do 4 eexists. split; [apply setToggle_run; exact Hw|].
    intros k Hn Hp. destruct (Hk k ∅ Hn) as (? & ? & ? & ? & ? & ? & ?).
    rewrite ObjectProps.put_other by (exact (Hp _ _ eq_refl)). cbn [own].
    rewrite Hpres by exact Hn.
    rewrite !lookup_insert_ne by congruence. reflexivity.
Qed.

Lemma dispatch_effects name params programName reports (w : World) :
  let args := dispatched name params programName w in
  let r := dispatch name params programName reports w in
  match cloud w args with
  | Ok _ =>
      fst r = Ok tt /\
      effects (snd r)
      = (effects w ++ SendCommand args
           :: map (fun x => SetCapabilityValue (fst x) (snd x)) reports
           ++ [SetTimeout 10000])%list /\
      _skipPollUntil (snd r) = (clock w + 10000)%Z /\
      clock (snd r) = clock w /\
      capabilities (snd r) = capabilities w
  | Thrown e =>
      r = (Thrown (CloudError e), emit (SendCommand args) w)
  end.
Proof.
  intros args r. subst args r.
  destruct (cloud w (dispatched name params programName w)) as [answer|e] eqn:Hc.
  - rewrite (dispatch_accepted _ _ _ _ _ _ Hc).
    destruct (report_run reports (emit (SendCommand (dispatched name params programName w)) w))
      as (_ & E & _ & C & _ & K & _).
    unfold settle. cbn [fst snd emit set_skipPollUntil effects _skipPollUntil clock capabilities].
    rewrite E, K, C. cbn [emit effects clock capabilities].
    rewrite <- !app_assoc. repeat split.
  - apply dispatch_rejected. exact Hc.
Qed.

Lemma sent_reports (reports : list (string * JsVal)) :
  omap (fun e => match e with SendCommand args => Some args | _ => None end)
       (map (fun x => SetCapabilityValue (fst x) (snd x)) reports) = [].
Proof. induction reports as [|x rest IH]; [reflexivity|exact IH]. Qed.

Lemma dispatch_sent name params programName reports (w : World) :
  sent (snd (dispatch name params programName reports w))
  = (sent w ++ [dispatched name params programName w])%list.
Proof.
  pose proof (dispatch_effects name params programName reports w) as Hd.
  cbn zeta in Hd.
  destruct (cloud w (dispatched name params programName w)) as [answer|e].
  - destruct Hd as (_ & E & _). unfold sent. rewrite E.
    change (SendCommand (dispatched name params programName w)
              :: map (fun x => SetCapabilityValue (fst x) (snd x)) reports
              ++ [SetTimeout 10000])%list
      with ([SendCommand (dispatched name params programName w)]
              ++ map (fun x => SetCapabilityValue (fst x) (snd x)) reports
              ++ [SetTimeout 10000])%list.
    rewrite !omap_app, sent_reports. reflexivity.
  - rewrite Hd. cbn [snd]. apply sent_emit.
Qed.

(** X12: a setter that returns has sent exactly one command, for the
    device's MAC and accepted by the cloud client, then reported
    capability values and armed one timer of ten seconds, and it has
    opened the poll window of ten seconds; a setter that throws has
    stored no capability value and left the poll window alone, and its
    only possible effect is the one command the cloud client rejected,
    whose error it passes on.  (For a mode or fan speed that is not the
    name of a property of [Object.prototype].) *)
Theorem setter_outcome `{Runtime} (s : Setter) (w : World) :
  plain s ->
  let r := call s w in
  match fst r with
  | Ok _ =>
      exists (args : SendArgs) (reports : list (string * JsVal)),
        macAddress args = deviceId w /\
        (exists answer, cloud w args = Ok answer) /\
        effects (snd r)
        = (effects w ++ SendCommand args
             :: map (fun x => SetCapabilityValue (fst x) (snd x)) reports
             ++ [SetTimeout 10000])%list /\
        _skipPollUntil (snd r) = (clock w + 10000)%Z
  | Thrown e =>
      values (snd r) = values w /\
      _skipPollUntil (snd r) = _skipPollUntil w /\
      (effects (snd r) = effects w \/
       exists args e',
         e = CloudError e' /\ cloud w args = Thrown e' /\
         effects (snd r) = (effects w ++ [SendCommand args])%list)
  end.
Proof.
  intros _ r. subst r.
  destruct (call_cases s w) as [(e & -> & _)|(name & params & pn & reports & -> & _)].
  - cbn [fst snd]. repeat split. left. reflexivity.
  - set (w0 := set_api (_api w || app_api w) w).
    pose proof (dispatch_effects name params pn reports w0) as Hd. cbn zeta in Hd.
    change (cloud w0) with (cloud w) in Hd.
    destruct (cloud w (dispatched name params pn w0)) as [answer|e] eqn:Hc.
    + destruct Hd as (-> & E & S & _). exists (dispatched name params pn w0), reports.
      split; [reflexivity|]. split; [eauto|]. split; [exact E|exact S].
    + rewrite Hd. cbn [fst snd]. split; [reflexivity|]. split; [reflexivity|].
      right. exists (dispatched name params pn w0), e. repeat split. exact Hc.
Qed.



Lemma call_sent `{Runtime} (s : Setter) (w : World) (args : SendArgs) :
  sent (snd (call s w)) = (sent w ++ [args])%list ->
  exists name params programName reports,
    call s w = dispatch name params programName reports
                 (set_api (_api w || app_api w) w) /\
    args = dispatched name params programName w /\
    forall k, k ∉ WRITTEN ->
              (forall p v, s = SetToggle p v -> k <> p) ->
              params !! k = default ∅ (_mandatoryParams w) !! k.
Proof.
  destruct (call_cases s w) as [(e & -> & _)|(name & params & pn & reports & E & F)].
  - cbn [snd]. change (sent (set_api (_api w || app_api w) w)) with (sent w).
    intros Hs. apply (f_equal length) in Hs. rewrite length_app in Hs. simpl in Hs. lia.
  - rewrite E, dispatch_sent.
    change (sent (set_api (_api w || app_api w) w)) with (sent w).
    intros Hs. apply app_inv_head in Hs. injection Hs as <-.
    exists name, params, pn, reports. split; [reflexivity|]. split; [reflexivity|exact F].
Qed.

(** X14: every command a setter sends is addressed to the device's
    MAC, carries the device's ancillary parameters and appliance options,
    and contains every mandatory parameter the setter does not write
    itself, with the value of the mandatory set; no parameter appears
    from elsewhere. *)
Theorem commands_carry_mandatory `{Runtime} (s : Setter) (w : World) (args : SendArgs) :
  sent (snd (call s w)) = (sent w ++ [args])%list ->
  macAddress args = deviceId w /\
  HonApi.ancillaryParameters (options args) = Some (default ∅ (_ancillaryParams w)) /\
  HonApi.applianceOptions (options args) = or_else (_applianceOptions w) (JObject []) /\
  forall k : string,
    k ∉ WRITTEN ->
    (forall p v, s = SetToggle p v -> k <> p) ->
    parameters args !! k = default ∅ (_mandatoryParams w) !! k.
Proof.
  intros Hs. destruct (call_sent s w args Hs) as (name & params & pn & reports & _ & -> & F).
  repeat split. exact F.
Qed.

Lemma anti_freeze_mode (w : World) :
  values w !! "hon_hvac_mode" = Some (JString "10_heating") ->
  current_mode w = JString "10_heating".
Proof. intros Hv. unfold current_mode. rewrite Hv. reflexivity. Qed.

(** X15: while the mode capability reads anti-freeze, the settings
    command of the fan-speed setter, of the swing setter and of a toggle
    (of another parameter) keeps anti-freeze running: it carries the flag
    "1" and heat as the machine mode. *)
Theorem settings_keep_anti_freeze `{Runtime} (s : Setter) (w : World) (args : SendArgs) :
  values w !! "hon_hvac_mode" = Some (JString "10_heating") ->
  match s with
  | SetFanSpeed _ | SetSwingMode _ => True
  | SetToggle paramName _ =>
      paramName <> "10degreeHeatingStatus" /\ paramName <> "machMode"
  | _ => False
  end ->
  sent (snd (call s w)) = (sent w ++ [args])%list ->
  commandName args = "settings" /\
  parameters args !! "10degreeHeatingStatus" = Some (JString "1") /\
  parameters args !! "machMode" = Some (JString "4").
Proof.
  intros Hv Hs Hsent.
  pose proof (anti_freeze_mode w Hv) as Hm.
  destruct (_api w || app_api w)%bool eqn:Hw.
  2: { exfalso. rewrite (call_without_api s w Hw) in Hsent. cbn [snd] in Hsent.
       apply (f_equal length) in Hsent. rewrite length_app in Hsent. simpl in Hsent. lia. }
  revert Hsent.
  destruct s as [| | |value|value|paramName apiValue]; try contradiction; cbn [call].
  - destruct (index FAN_SPEED_TO_HON value) as [windSpeed|] eqn:Hi.
    + rewrite (setFanSpeed_run value windSpeed w Hw Hi), dispatch_sent.
      change (sent (set_api true w)) with (sent w).
      intros E. apply app_inv_head in E. injection E as <-.
      cbn [dispatched commandName parameters]. unfold preserved. rewrite Hm.
      cbn [str_eqb String.eqb Ascii.eqb Bool.eqb].
      split; [reflexivity|]. split; [apply lookup_insert_eq|].
      rewrite !lookup_insert_ne by discriminate. rewrite lookup_insert_eq. reflexivity.
    + unfold _setFanSpeed, mbind, M_bind. rewrite (with_api_run _ w Hw), Hi.
      cbn [negb throw snd].
      change (sent (set_api true w)) with (sent w).
      intros Hs'. apply (f_equal length) in Hs'. rewrite length_app in Hs'. simpl in Hs'. lia.
  - destruct (swing_directions value) as [[horizontal vertical]|] eqn:Hi.
    + rewrite (setSwingMode_run value horizontal vertical w Hw Hi), dispatch_sent.
      change (sent (set_api true w)) with (sent w).
      intros E. apply app_inv_head in E. injection E as <-.
      cbn [dispatched commandName parameters]. unfold preserved. rewrite Hm.
      cbn [str_eqb String.eqb Ascii.eqb Bool.eqb].
      split; [reflexivity|]. split; [apply lookup_insert_eq|].
      rewrite !lookup_insert_ne by discriminate. rewrite lookup_insert_eq. reflexivity.
    + unfold _setSwingMode, mbind, M_bind. rewrite (with_api_run _ w Hw), Hi.
      cbn [negb throw snd].
      change (sent (set_api true w)) with (sent w).
      intros Hs'. apply (f_equal length) in Hs'. rewrite length_app in Hs'. simpl in Hs'. lia.
  - destruct Hs as [Hp1 Hp2].
    rewrite (setToggle_run paramName apiValue w Hw), dispatch_sent.
    change (sent (set_api true w)) with (sent w).
    intros E. apply app_inv_head in E. injection E as <-.
    cbn [dispatched commandName parameters]. unfold preserved. rewrite Hm.
    cbn [str_eqb String.eqb Ascii.eqb Bool.eqb].
    split; [reflexivity|]. split.
    + rewrite ObjectProps.put_other by congruence. apply lookup_insert_eq.
    + rewrite ObjectProps.put_other by congruence. cbn [own].
      rewrite !lookup_insert_ne by discriminate. rewrite lookup_insert_eq. reflexivity.
Qed.

(** *** The state mapping as a whole *)

Lemma shown_same (w : World) : shown (values w) (effects w) w = w.
Proof. destruct w; reflexivity. Qed.

Lemma maps_ret (C : gset string) : maps_state C (mret tt) ∅.
Proof.
  intros w _. exists []. split; [|constructor].
  rewrite app_nil_r, (left_id_L ∅ (∪)), shown_same. reflexivity.
Qed.

Lemma maps_set (C : gset string) (name : string) (v : JsVal) :
  maps_state C (setCapabilityValue name v)
             (if bool_decide (name ∈ C) then {[name := v]} else ∅).
Proof.
  intros w <-. exists [SetCapabilityValue name v]. split; [|repeat constructor].
  unfold setCapabilityValue. case_bool_decide.
  - rewrite <- insert_union_singleton_l. reflexivity.
  - rewrite (left_id_L ∅ (∪)). reflexivity.
Qed.

Lemma maps_trigger (C : gset string) (card token : string) (v : JsVal) :
  maps_state C (trigger card token v) ∅.
Proof.
  intros w _. exists [Trigger card token v]. split; [|repeat constructor].
  rewrite (left_id_L ∅ (∪)). reflexivity.
Qed.

Lemma maps_when (C : gset string) (b : bool) (m : M unit) (W : gmap string JsVal) :
  maps_state C m W -> maps_state C (when b m) (if b then W else ∅).
Proof. intros Hm. destruct b; [exact Hm|apply maps_ret]. Qed.

Lemma maps_seq (C : gset string) (m n : M unit) (W1 W2 : gmap string JsVal) :
  maps_state C m W1 -> maps_state C n W2 -> maps_state C (m;; n) (W2 ∪ W1).
Proof.
  intros Hm Hn w Hc. destruct (Hm w Hc) as (E1 & R1 & F1).
  destruct (Hn (shown (W1 ∪ values w) (effects w ++ E1) w) Hc) as (E2 & R2 & F2).
  exists (E1 ++ E2)%list. split; [|apply Forall_app; split; assumption].
  unfold mbind, M_bind, bind. rewrite R1, R2. cbn [shown values effects].
  rewrite <- app_assoc, (assoc_L (∪)). reflexivity.
Qed.

Lemma maps_has (C : gset string) (c : string) (f : bool -> M unit)
    (W : gmap string JsVal) :
  maps_state C (f (bool_decide (c ∈ C))) W ->
  maps_state C (b ← hasCapability c; f b) W.
Proof. intros Hf w Hc. subst C. apply (Hf w eq_refl). Qed.

Lemma maps_get (C : gset string) (c : string) (f : JsVal -> M unit)
    (W : gmap string JsVal) :
  (forall v, maps_state C (f v) W) -> maps_state C (v ← getCapabilityValue c; f v) W.
Proof. intros Hf w Hc. apply (Hf _ w Hc). Qed.

Lemma maps_when_trigger (C : gset string) (b : bool) (card token : string) (v : JsVal) :
  maps_state C (when b (trigger card token v)) ∅.
Proof. destruct b; [apply maps_trigger|apply maps_ret]. Qed.

Ltac maps_step :=
  first [ apply maps_ret
        | apply maps_when_trigger
        | eapply maps_seq
        | eapply maps_has
        | eapply maps_get; intros ?
        | eapply maps_when
        | apply maps_set ].

Lemma maps_toggles `{Runtime} (C : gset string) state (configs : list Toggle) :
  exists W, maps_state C (update_toggles state configs) W.
Proof.
  induction configs as [|config rest [W IH]]; [eexists; apply maps_ret|].
  eexists. cbn [update_toggles]. eapply maps_seq; [|exact IH].
  unfold update_toggle. repeat maps_step.
Qed.

Lemma maps_update `{Runtime} (C : gset string) (state : gmap string JsVal) :
  exists W, maps_state C (_updateCapabilities state) W.
Proof.
  destruct (maps_toggles C state TOGGLE_CAPABILITIES) as [Wt Ht].
  assert (exists W, maps_state C (update_target state) W) as [Wg Hg].
  { unfold update_target. destruct (is10Heating state); eexists; repeat maps_step. }
  eexists. unfold _updateCapabilities.
  eapply maps_seq; [unfold update_onoff; repeat maps_step|].
  eapply maps_seq; [unfold update_indoor; repeat maps_step|].
  eapply maps_seq; [exact Hg|].
  eapply maps_seq; [unfold update_mode; repeat maps_step|].
  eapply maps_seq; [unfold update_fan; repeat maps_step|].
  eapply maps_seq; [unfold update_swing; repeat maps_step|].
  eapply maps_seq; [unfold update_eco_pilot; repeat maps_step|].
  eapply maps_seq; [exact Ht|].
  unfold update_outdoor; repeat maps_step.
Qed.

Lemma host_calls_sent (w : World) (E : list Effect) (v : gmap string JsVal) :
  Forall host_call E ->
  sent (shown v (effects w ++ E) w) = sent w /\
  timers (shown v (effects w ++ E) w) = timers w.
Proof.
  intros HE. unfold sent, timers. cbn [shown effects]. rewrite !omap_app.
  assert (omap (fun e => match e with SendCommand args => Some args | _ => None end) E = []
          /\ omap (fun e => match e with SetTimeout ms => Some ms | _ => None end) E = [])
    as [-> ->].
  { induction HE as [|e E He _ [IH1 IH2]]; [split; reflexivity|].
    destruct e; try contradiction; (split; [exact IH1|exact IH2]). }
  rewrite !app_nil_r. split; reflexivity.
Qed.

(** X16: whatever it meets (an open poll window, no client, a client
    that is not authenticated, a rejected request, no state or a state),
    a poll returns and acts on the host alone: the device after the poll
    is the device before it with capability values laid over the stored
    ones, with further host calls (capability values and trigger cards)
    and, at most, the client cached; so no command is sent, no timer is
    armed, and the poll window, the parameter sets and the capabilities
    are untouched. *)
Theorem poll_stays_within_host `{Runtime} (env : Surroundings) (w : World) :
  let r := _pollDeviceState env w in
  (exists a, fst r = Ok a) /\
  (exists (W : gmap string JsVal) (E : list Effect) (b : bool),
      snd r = set_api b (shown (W ∪ values w) (effects w ++ E) w) /\
      Forall host_call E) /\
  sent (snd r) = sent w /\
  timers (snd r) = timers w /\
  _skipPollUntil (snd r) = _skipPollUntil w /\
  capabilities (snd r) = capabilities w /\
  _mandatoryParams (snd r) = _mandatoryParams w.
Proof.
  intros r. subst r.
  assert (forall b, set_api b (shown (∅ ∪ values w) (effects w ++ []) w) = set_api b w) as Hid.
  { intros b. rewrite app_nil_r, (left_id_L ∅ (∪)), shown_same. reflexivity. }
  assert (set_api (_api w) w = w) as Hapi by (destruct w; reflexivity).
  unfold _pollDeviceState.
  destruct (clock w <? _skipPollUntil w)%Z.
  { cbn [fst snd]. split; [eauto|]. split; [|repeat split].
    exists ∅, [], (_api w). rewrite Hid, Hapi. split; [reflexivity|constructor]. }
  unfold mbind, M_bind, bind. rewrite getApi_run.
  set (b := (_api w || app_api w)%bool).
  destruct (negb b || negb (authenticated env))%bool.
  { cbn [fst snd]. split; [eauto|]. split; [|repeat split].
    exists ∅, [], b. rewrite Hid. split; [reflexivity|constructor]. }
  destruct (applianceState env) as [[state|]|message].
  - destruct (maps_update (capabilities w) state) as [W HW].
    destruct (HW (set_api b w) eq_refl) as (E & R & HE).
    rewrite R. cbn [fst snd mret M_ret ret].
    destruct (host_calls_sent w E (W ∪ values w) HE) as [Hs Ht].
    split; [eauto|]. split; [|repeat split; assumption].
    exists W, E, b. split; [reflexivity|exact HE].
  - cbn [fst snd]. split; [eauto|]. split; [|repeat split].
    exists ∅, [], b. rewrite Hid. split; [reflexivity|constructor].
  - cbn [fst snd]. split; [eauto|]. split; [|repeat split].
    exists ∅, [], b. rewrite Hid. split; [reflexivity|constructor].
Qed.

(** *** The polling period *)

Lemma Qle_bool_false (x y : Q) : Qle_bool x y = false -> (y < x)%Q.
Proof.
  intros E. apply Qnot_le_lt. intros Hle. apply Qle_bool_iff in Hle. congruence.
Qed.

(** X17: the polling period handed to [setInterval] is the
    [poll_interval] setting in milliseconds, kept between five seconds and
    one hour: a number of seconds from 5 to 3600 is taken as it is, a
    smaller one gives 5000 and a larger one 3600000; a setting that is
    missing or zero gives 5000 as well; a setting that does not convert to
    a number gives [NaN] instead of a period. *)
Theorem polling_period_is_clamped `{Runtime} (poll_interval : JsVal) :
  (truthy poll_interval = false ->
   exists r, intervalMs poll_interval = Num r /\ (r == 5000)%Q) /\
  (truthy poll_interval = true ->
   forall q, ToNumber poll_interval = Num q ->
     exists r, intervalMs poll_interval = Num r /\
               (5000 <= r <= 3600000)%Q /\
               ((5 <= q <= 3600)%Q -> (r == q * 1000)%Q) /\
               ((q < 5)%Q -> (r == 5000)%Q) /\
               ((3600 < q)%Q -> (r == 3600000)%Q)) /\
  (truthy poll_interval = true ->
   ToNumber poll_interval = NaN -> intervalMs poll_interval = NaN).
Proof.
  unfold intervalMs, or_else. split; [|split].
  - intros ->. eexists. split; [reflexivity|]. vm_compute. reflexivity.
  - intros -> q ->. cbn [num_min num_max num_mul].
    destruct (Qle_bool 3600 q) eqn:E1.
    + apply Qle_bool_iff in E1.
      assert (Qle_bool 5 3600 = true) as -> by reflexivity.
      eexists. split; [reflexivity|]. split; [split; lra|].
      split; [intros; lra|]. split; intros; lra.
    + apply Qle_bool_false in E1.
      destruct (Qle_bool 5 q) eqn:E2.
      * apply Qle_bool_iff in E2. eexists. split; [reflexivity|].
        split; [split; lra|]. split; [intros; lra|]. split; intros; lra.
      * apply Qle_bool_false in E2. eexists. split; [reflexivity|].
        split; [split; lra|]. split; [intros; lra|]. split; intros; lra.
  - intros -> ->. reflexivity.
Qed.

(** *** The statements at sample inputs *)

Lemma canonical_mac_witness :
  canonicalMac "aa-bb-cc-dd-ee-ff#2024-01-01T00:00:00.000Z" = "aa-bb-cc-dd-ee-ff" /\
  canonicalMac "aa-bb-cc-dd-ee-ff" = "aa-bb-cc-dd-ee-ff".
Proof.
  split.
  - apply (proj1 canonical_mac "aa-bb-cc-dd-ee-ff" "2024-01-01T00:00:00.000Z").
    reflexivity.
  - apply (proj1 (proj2 canonical_mac) "aa-bb-cc-dd-ee-ff"). reflexivity.
Defined.

Lemma hvac_mode_round_trip_witness :
  exists mode : string, hvac_of_wire 3 = Some mode /\ wire_of_hvac mode = Some 2%Z.
Proof. apply (proj1 hvac_mode_round_trip 3%Z). lia. Defined.

Lemma stop_command_parameters_witness :
  exists args : SendArgs,
    sent (snd (_setOnOff false cool_device)) = [args] /\
    parameters args = <["onOffStatus" := JString "0"]> sample_mandatory.
Proof.
  destruct (stop_command_parameters cool_device) as (args & Hs & _ & Hp & _).
  - reflexivity.
  - exists args. split; [exact Hs|exact Hp].
Defined.

Lemma target_temperature_sent_witness :
  (exists args : SendArgs,
      sent (snd (_setTargetTemperature 5 cool_device)) = [args] /\
      parameters args !! "tempSel" = Some (JString "16")) /\
  (exists args : SendArgs,
      sent (snd (_setTargetTemperature 35 cool_device)) = [args] /\
      parameters args !! "tempSel" = Some (JString "30")) /\
  (exists args : SendArgs,
      sent (snd (_setTargetTemperature 22 cool_device)) = [args] /\
      parameters args !! "tempSel" = Some (JString "22")).
Proof.
  split; [|split].
  - destruct (target_temperature_sent 5 cool_device) as (args & Hs & _ & _ & Hn).
    + reflexivity.
    + vm_compute. discriminate.
    + exists args. split; [exact Hs|]. apply (Hn 5%Z). reflexivity.
  - destruct (target_temperature_sent 35 cool_device) as (args & Hs & _ & _ & Hn).
    + reflexivity.
    + vm_compute. discriminate.
    + exists args. split; [exact Hs|]. apply (Hn 35%Z). reflexivity.
  - destruct (target_temperature_sent 22 cool_device) as (args & Hs & _ & _ & Hn).
    + reflexivity.
    + vm_compute. discriminate.
    + exists args. split; [exact Hs|]. apply (Hn 22%Z). reflexivity.
Defined.

Lemma anti_freeze_rejects_temperature_witness :
  fst (_setTargetTemperature 22 anti_freeze_device) = Thrown TemperatureFixedInAntiFreeze /\
  effects (snd (_setTargetTemperature 22 anti_freeze_device)) = [].
Proof.
  destruct (anti_freeze_rejects_temperature 22 anti_freeze_device)
    as (_ & He & Hf & _).
  - reflexivity.
  - split; [apply He; reflexivity|exact Hf].
Defined.

Lemma start_program_name_and_flag_witness :
  (exists args : SendArgs,
      sent (snd (@_setHvacMode decimalRuntime (JString "heat") cool_device)) = [args] /\
      parameters args !! "10degreeHeatingStatus" = Some (JString "0")) /\
  (exists args : SendArgs,
      sent (snd (_setOnOff true cool_device)) = [args] /\
      (forall iso this, exists p,
          envelope iso this args = Ok p /\
          HonApi.p_programName p = Some "IOT_COOL")).
Proof.
  split.
  - destruct (@start_program_name_and_flag decimalRuntime "heat" "IOT_HEAT" cool_device)
      as ((args & Hs & _ & _ & Hf) & _).
    + reflexivity.
    + reflexivity.
    + exists args. split; [exact Hs|exact Hf].
  - destruct (@start_program_name_and_flag decimalRuntime "cool" "IOT_COOL" cool_device)
      as (_ & Hon).
    + reflexivity.
    + reflexivity.
    + destruct Hon as (args & Hs & _ & Hn); [reflexivity|].
      exists args. split; [exact Hs|exact Hn].
Defined.


Lemma setter_outcome_witness :
  exists (args : SendArgs) (reports : list (string * JsVal)),
    macAddress args = "aa-bb-cc-dd-ee-ff" /\
    effects (snd (@call decimalRuntime (SetFanSpeed (JString "low")) cool_device))
    = (SendCommand args
         :: map (fun x => SetCapabilityValue (fst x) (snd x)) reports
         ++ [SetTimeout 10000])%list /\
    _skipPollUntil (snd (@call decimalRuntime (SetFanSpeed (JString "low")) cool_device))
    = 1700000010000%Z.
Proof.
  assert (plain (SetFanSpeed (JString "low"))) as Hp.
  { cbn [plain]. unfold OBJECT_PROTOTYPE_NAMES. rewrite !not_elem_of_cons.
    repeat split; try discriminate. apply not_elem_of_nil. }
  pose proof (@setter_outcome decimalRuntime (SetFanSpeed (JString "low")) cool_device Hp)
    as Ho.
  cbn zeta in Ho.
  assert (fst (@call decimalRuntime (SetFanSpeed (JString "low")) cool_device) = Ok tt)
    as E by (vm_compute; reflexivity).
  rewrite E in Ho. destruct Ho as (args & reports & Hm & _ & He & Hs).
  exists args, reports. split; [exact Hm|]. split; [exact He|exact Hs].
Defined.


Lemma commands_carry_mandatory_witness :
  exists args : SendArgs,
    sent (snd (@call decimalRuntime (SetFanSpeed (JString "low")) cool_device)) = [args] /\
    macAddress args = "aa-bb-cc-dd-ee-ff" /\
    parameters args !! "tempUnit" = Some (JString "0").
Proof.
  destruct (sent (snd (@call decimalRuntime (SetFanSpeed (JString "low")) cool_device)))
    as [|args [|more rest]] eqn:E; [vm_compute in E; discriminate| |vm_compute in E; discriminate].
  exists args. split; [reflexivity|].
  destruct (@commands_carry_mandatory decimalRuntime (SetFanSpeed (JString "low"))
              cool_device args) as (Hm & _ & _ & Hk).
  - exact E.
  - split; [exact Hm|]. rewrite Hk.
    + reflexivity.
    + unfold WRITTEN. rewrite !not_elem_of_cons. repeat split; try discriminate.
      apply not_elem_of_nil.
    + intros p v Hs. discriminate.
Defined.

Lemma settings_keep_anti_freeze_witness :
  exists args : SendArgs,
    sent (snd (@call decimalRuntime (SetFanSpeed (JString "low")) anti_freeze_device))
    = [args] /\
    commandName args = "settings" /\
    parameters args !! "10degreeHeatingStatus" = Some (JString "1") /\
    parameters args !! "machMode" = Some (JString "4").
Proof.
  destruct (sent (snd (@call decimalRuntime (SetFanSpeed (JString "low"))
                         anti_freeze_device)))
    as [|args [|more rest]] eqn:E; [vm_compute in E; discriminate| |vm_compute in E; discriminate].
  exists args. split; [reflexivity|].
  apply (@settings_keep_anti_freeze decimalRuntime (SetFanSpeed (JString "low"))
           anti_freeze_device args).
  - reflexivity.
  - exact I.
  - exact E.
Defined.

End AirconProps.

(** ** Cloud client: tokens, requests and the shared refresh *)

Module HonApiProps.
Import HonApi ObjectProps.

Lemma exec_conclude (env : forall X, nat -> Call X -> X) (n : nat) (r : Response) :
  exec env n (if negb (ok r) then Throw (ApiRequestFailed (status r) (text r))
              else match json r with
                   | Some v => Return v
                   | None => Throw InvalidJson
                   end)
  = ([], conclude r).
Proof.
  unfold conclude. destruct (negb (ok r)); [reflexivity|].
  destruct (json r); reflexivity.
Qed.

Ltac run_step := cbn [bind catch exec fst snd].

(** C2 (as amended): a non-success status is surfaced as an error
    carrying the status and the body, and a successful response is parsed
    as JSON and returned; when the first response is 401 or 403 the
    refresh is invoked once, and then either the refresh fails, in which
    case the request is not retried, the session is marked
    unauthenticated and the refresh error propagates wrapped, or it
    succeeds and the request is retried exactly once, a second 401 or 403
    marking the session unauthenticated and ending the call with an
    error; when the first response is neither, no refresh and no retry
    take place. *)
Theorem api_request_retry (env : forall X, nat -> Call X -> X)
    (endpoint : string) (options : RequestOptions) :
  let run := exec env 0 (_apiRequest endpoint options) in
  (forall r : Response,
      ok r = false ->
      conclude r = Thrown (ApiRequestFailed (status r) (text r)) /\
      error_status (ApiRequestFailed (status r) (text r)) = Some (status r)) /\
  (forall (r : Response) (v : JsVal),
      ok r = true -> json r = Some v -> conclude r = Ok v) /\
  forall (r1 : Response) (rest : list (option Response)),
    responses (fst run) = Some r1 :: rest ->
    if is_auth_failure r1 then
      exists x : Result Error unit,
        refreshes (fst run) = [x] /\
        match x with
        | Thrown e =>
            rest = [] /\ marks (fst run) = [false] /\
            snd run = Thrown (RefreshErrorDuringRequest e)
        | Ok _ =>
            exists y : option Response,
              rest = [y] /\
              match y with
              | None => marks (fst run) = [] /\ snd run = Thrown FetchRejected
              | Some r2 =>
                  if is_auth_failure r2 then
                    marks (fst run) = [false] /\
                    snd run = Thrown (AuthFailedAfterRefresh (status r2) (text r2))
                  else
                    marks (fst run) = [] /\ snd run = conclude r2
              end
        end
    else
      rest = [] /\ refreshes (fst run) = [] /\ marks (fst run) = [] /\
      snd run = conclude r1.
Proof.
  intros run.
  split; [intros r Hr; unfold conclude; rewrite Hr; split; reflexivity|].
  split; [intros r v Hr Hv; unfold conclude; rewrite Hr, Hv; reflexivity|].
  intros r1 rest. subst run.
  unfold _apiRequest, doFetch, await, mbind, prog_bind. run_step.
  destruct (env _ 0%nat EnsureAuthenticated) as [[]|e0]; run_step;
    [|intros Hr; discriminate Hr].
  destruct (env _ 2%nat (Fetch _)) as [r1'|]; run_step;
    [|intros Hr; discriminate Hr].
  destruct (is_auth_failure r1') eqn:A1; run_step.
  - destruct (env _ 3%nat SafeRefresh) as [[]|e]; run_step.
    + destruct (env _ 5%nat (Fetch _)) as [r2|]; run_step.
      * destruct (is_auth_failure r2) eqn:A2; run_step.
        -- intros Hr. injection Hr as -> <-. rewrite A1.
           exists (Ok tt). split; [reflexivity|]. exists (Some r2). split; [reflexivity|].
           rewrite A2. split; reflexivity.
        -- rewrite exec_conclude.
           intros Hr. injection Hr as -> <-. rewrite A1.
           exists (Ok tt). split; [reflexivity|]. exists (Some r2). split; [reflexivity|].
           rewrite A2. split; reflexivity.
      * intros Hr. injection Hr as -> <-. rewrite A1.
        exists (Ok tt). split; [reflexivity|]. exists None. split; [reflexivity|].
        split; reflexivity.
    + intros Hr. injection Hr as -> <-. rewrite A1.
      exists (Thrown e). split; [reflexivity|]. repeat split.
  - rewrite exec_conclude.
    intros Hr. injection Hr as -> <-. rewrite A1. repeat split.
Qed.

Lemma token_requests_app p w x :
  token_requests p (w ++ [x])%list
  = (token_requests p w
     + if (Nat.eqb (fst x) p && is_token_request (snd x))%bool then 1 else 0)%nat.
Proof.
  unfold token_requests. rewrite List.filter_app, length_app. simpl.
  destruct (_ && _)%bool; reflexivity.
Qed.

Lemma login_requests_app p w x :
  login_requests p (w ++ [x])%list
  = (login_requests p w
     + if (Nat.eqb (fst x) p && is_login_request (snd x))%bool then 1 else 0)%nat.
Proof.
  unfold login_requests. rewrite List.filter_app, length_app. simpl.
  destruct (_ && _)%bool; reflexivity.
Qed.

Lemma refresh_resume_guard `{Runtime} now r a :
  _refreshPromise (fst (refresh_resume now r a)) = _refreshPromise a.
Proof.
  unfold refresh_resume. destruct (negb (ok r)); [reflexivity|].
  destruct (json r) as [[]|]; try reflexivity;
    match goal with |- context [if ?b then _ else _] => destruct b end; reflexivity.
Qed.

Lemma refresh_resume_request `{Runtime} now r a a' rq :
  refresh_resume now r a = (a', inr rq) -> is_login_request rq = true.
Proof.
  unfold refresh_resume. destruct (negb (ok r)); [discriminate|].
  destruct (json r) as [[]|]; try discriminate;
    match goal with |- context [if ?b then _ else _] => destruct b end;
    intros E; inversion E; reflexivity.
Qed.

Lemma refresh_finish_guard r a :
  _refreshPromise (fst (refresh_finish r a)) = _refreshPromise a.
Proof.
  unfold refresh_finish, cognito_resume. destruct (negb (ok r)); [reflexivity|].
  destruct (json r) as [[]|]; try reflexivity;
    match goal with |- context [if ?b then _ else _] => destruct b end; reflexivity.
Qed.

Lemma refresh_begin_error a e :
  refresh_begin a = inl e -> e = NoRefreshTokenAvailable.
Proof.
  unfold refresh_begin. destruct (negb _); [|discriminate]. intros E; inversion E. reflexivity.
Qed.

Lemma refresh_resume_error `{Runtime} now r a a' e :
  refresh_resume now r a = (a', inl e) -> token_stage_error e.
Proof.
  unfold refresh_resume. destruct (negb (ok r)); [intros E; inversion E; exact I|].
  destruct (json r) as [[]|]; try (intros E; inversion E; exact I);
    match goal with |- context [if ?b then _ else _] => destruct b end;
    intros E; inversion E; exact I.
Qed.

Lemma refresh_finish_error r a a' e :
  refresh_finish r a = (a', Some e) -> login_stage_error e.
Proof.
  unfold refresh_finish, cognito_resume.
  destruct (negb (ok r)); [intros E; inversion E; exact I|].
  destruct (json r) as [[]|]; try (intros E; inversion E; exact I);
    match goal with |- context [if ?b then _ else _] => destruct b end;
    intros E; inversion E; exact I.
Qed.

Lemma refresh_begin_request a rq :
  refresh_begin a = inr rq -> is_token_request rq = true.
Proof.
  unfold refresh_begin. destruct (negb _); [discriminate|]. intros E; inversion E. reflexivity.
Qed.

Lemma login_not_token rq : is_login_request rq = true -> is_token_request rq = false.
Proof. destruct rq; simpl; congruence. Qed.

Lemma token_not_login rq : is_token_request rq = true -> is_login_request rq = false.
Proof. destruct rq; simpl; congruence. Qed.

(** The counts of a phase only depend on the requests of its promise. *)
Lemma phase_counts_other (p : nat) (ph : Phase) (w w' : list (nat * Request)) :
  token_requests p w' = token_requests p w ->
  login_requests p w' = login_requests p w ->
  phase_counts p ph w -> phase_counts p ph w'.
Proof.
  intros Et El. destruct ph as [| |[|e]]; simpl; rewrite ?Et, ?El; try exact id.
  destruct e; simpl; rewrite ?Et, ?El; exact id.
Qed.

Lemma inv_boot (a : Api) : _refreshPromise a = None -> Inv (boot a).
Proof.
  intros Ha. split; simpl.
  - rewrite Ha. split; reflexivity.
  - intros q _. split; reflexivity.
  - intros q. split; unfold token_requests, login_requests; simpl; lia.
  - intros c q o b Hin. apply elem_of_nil in Hin. contradiction.
Qed.

(** The invocation alive in a state is the one the guard holds. *)
Lemma inv_alive (s : System) (p : nat) (ph : Phase) :
  Inv s -> flights s !! p = Some ph ->
  _refreshPromise (api s) = Some p /\ flights s = {[p := ph]} /\
  phase_counts p ph (wire s) /\ p < promises s /\
  (forall c q path, (c, q, path) ∈ waiting s -> q = p).
Proof.
  intros [Hf _ _ _] Hp. destruct (_refreshPromise (api s)) as [p'|].
  - destruct Hf as ((ph' & Hfl & Hc) & Hb & Hw).
    rewrite Hfl in Hp. apply lookup_singleton_Some in Hp as [-> ->]. auto.
  - destruct Hf as [Hfl _]. rewrite Hfl, lookup_empty in Hp. discriminate.
Qed.

Lemma inv_saw (c : nat) (x : Seen) (s : System) :
  (forall p o a, x <> Awaited p o a) -> Inv s -> Inv (saw c x s).
Proof.
  intros Hx [Hf Hfr Hc Hs]. split; simpl; try assumption.
  intros c' q o a Hin. apply elem_of_app in Hin as [Hin|Hin].
  - destruct (Hs c' q o a Hin) as (H1 & H2 & H3 & H4).
    split; [exact H1|]. split; [exact H2|]. split; [exact H3|].
    intros c'' o' a' Hin'. apply elem_of_app in Hin' as [Hin'|Hin'].
    + eapply H4; exact Hin'.
    + apply list_elem_of_singleton in Hin'. inversion Hin'; subst. exfalso. eapply Hx; reflexivity.
  - apply list_elem_of_singleton in Hin. inversion Hin; subst. exfalso. eapply Hx; reflexivity.
Qed.

Lemma inv_safeRefresh (c : nat) (path : Path) (s : System) :
  Inv s -> Inv (_safeRefresh c path s).
Proof.
  intros HI. pose proof HI as [Hf Hfr Hc Hs]. unfold _safeRefresh.
  destruct (_refreshPromise (api s)) as [p|] eqn:G.
  - split; simpl; try assumption. rewrite G.
    destruct Hf as (Hfl & Hb & Hw). split; [exact Hfl|]. split; [exact Hb|].
    intros c' q path' Hin. apply elem_of_app in Hin as [Hin|Hin]; [eauto|].
    apply list_elem_of_singleton in Hin. inversion Hin; reflexivity.
  - destruct Hf as [Hfl Hw].
    destruct (Hfr (promises s) (le_n _)) as [T0 L0].
    assert (phase_counts (promises s)
              (fst match refresh_begin (api s) with
                   | inr request => (AwaitingToken, [(promises s, request)])
                   | inl e => (Settled (Rejected e), [])
                   end)
              (wire s ++ snd match refresh_begin (api s) with
                             | inr request => (AwaitingToken, [(promises s, request)])
                             | inl e => (Settled (Rejected e), [])
                             end)) as Hpc.
    { destruct (refresh_begin (api s)) as [e|rq] eqn:B; simpl.
      { rewrite (refresh_begin_error _ _ B), app_nil_r. simpl. auto. }
      rewrite token_requests_app, login_requests_app. simpl.
      rewrite Nat.eqb_refl, (refresh_begin_request _ _ B),
        (token_not_login _ (refresh_begin_request _ _ B)). simpl. lia. }
    assert (forall q, q <> promises s ->
              token_requests q (wire s ++ snd match refresh_begin (api s) with
                             | inr request => (AwaitingToken, [(promises s, request)])
                             | inl e => (Settled (Rejected e), [])
                             end) = token_requests q (wire s) /\
              login_requests q (wire s ++ snd match refresh_begin (api s) with
                             | inr request => (AwaitingToken, [(promises s, request)])
                             | inl e => (Settled (Rejected e), [])
                             end) = login_requests q (wire s)) as Hother.
    { intros q Hq. destruct (refresh_begin (api s)) as [e|rq]; simpl.
      - rewrite app_nil_r. split; reflexivity.
      - rewrite token_requests_app, login_requests_app. simpl.
        assert (Nat.eqb (promises s) q = false) as -> by (apply Nat.eqb_neq; congruence).
        simpl. lia. }
    split; simpl.
    + rewrite Hfl, Hw. split; [|split; [lia|]].
      * eexists. split; [apply insert_empty|]. exact Hpc.
      * intros c' q path' Hin. apply list_elem_of_singleton in Hin.
        inversion Hin; reflexivity.
    + intros q Hq. destruct (Hother q ltac:(lia)) as [-> ->]. apply Hfr. lia.
    + intros q. destruct (decide (q = promises s)) as [->|Hq].
      * destruct (refresh_begin (api s)) as [e|rq]; simpl in *.
        -- rewrite app_nil_r. apply Hc.
        -- rewrite token_requests_app, login_requests_app. simpl.
           destruct (_ && _)%bool, (_ && _)%bool; lia.
      * destruct (Hother q Hq) as [-> ->]. apply Hc.
    + intros c' q o a Hin. destruct (Hs c' q o a Hin) as (H1 & H2 & H3 & H4).
      assert (q <> promises s) as Hq by lia.
      split; [|split; [lia|split; [|exact H4]]].
      * rewrite lookup_insert_ne by congruence. exact H1.
      * exact (phase_counts_other q (Settled o) _ _
               (proj1 (Hother q Hq)) (proj2 (Hother q Hq)) H3).
Qed.

Lemma inv_ensure (c : nat) (now : Z) (s : System) :
  Inv s -> Inv (_ensureAuthenticated c now s).
Proof.
  intros HI. unfold _ensureAuthenticated.
  destruct (isAuthenticated now (api s)); [apply inv_saw; [discriminate|exact HI]|].
  destruct (truthy _); [apply inv_safeRefresh; exact HI|].
  apply inv_saw; [discriminate|exact HI].
Qed.

Lemma inv_advance (p : nat) (a : Api) (ph ph' : Phase)
    (sent : list (nat * Request)) (s : System) :
  Inv s -> flights s !! p = Some ph ->
  _refreshPromise a = _refreshPromise (api s) ->
  moves p ph ph' sent ->
  Inv (advance p a ph' sent s).
Proof.
  intros HI Hp Ha Hm.
  destruct (inv_alive s p ph HI Hp) as (G & Hfl & Hpc & Hb & Hw).
  destruct HI as [_ Hfr Hc Hs].
  assert (forall q, q <> p ->
            token_requests q (wire s ++ sent) = token_requests q (wire s) /\
            login_requests q (wire s ++ sent) = login_requests q (wire s)) as Hother.
  { intros q Hq.
    destruct Hm as [(-> & _)|[(-> & _)|[(-> & _)|(rq & -> & _)]]];
      rewrite ?app_nil_r; try (split; reflexivity).
    rewrite token_requests_app, login_requests_app. simpl.
    assert (Nat.eqb p q = false) as -> by (apply Nat.eqb_neq; congruence).
    simpl. lia. }
  assert (phase_counts p ph' (wire s ++ sent) /\
          token_requests p (wire s ++ sent) <= 1 /\
          login_requests p (wire s ++ sent) <= 1) as (Hpc' & Ht' & Hl').
  { destruct Hm as [(-> & -> & e & -> & He)|[(-> & -> & e & -> & He)
                   |[(-> & -> & ->)|(rq & -> & Hrq & -> & ->)]]];
      rewrite ?app_nil_r.
    - split; [|apply Hc]. simpl in *. destruct Hpc as [T1 L0].
      destruct e; simpl in *; try contradiction; lia.
    - split; [|apply Hc]. simpl in *. destruct Hpc as [T1 L1].
      destruct e; simpl in *; try contradiction; lia.
    - split; [exact Hpc|apply Hc].
    - simpl in Hpc. destruct Hpc as [T1 L0]. unfold phase_counts.
      rewrite !token_requests_app, !login_requests_app. simpl.
      rewrite Nat.eqb_refl, Hrq, (login_not_token _ Hrq). simpl. lia. }
  split; simpl.
  - rewrite Ha, G. split; [|split; assumption].
    exists ph'. split; [|exact Hpc'].
    rewrite Hfl. apply insert_singleton_eq.
  - intros q Hq. destruct (Hother q ltac:(lia)) as [-> ->]. apply Hfr. exact Hq.
  - intros q. destruct (decide (q = p)) as [->|Hq]; [split; assumption|].
    destruct (Hother q Hq) as [-> ->]. apply Hc.
  - intros c q o b Hin. destruct (Hs c q o b Hin) as (H1 & H2 & H3 & H4).
    assert (q <> p) as Hq by (intros ->; congruence).
    split; [|split; [exact H2|split; [|exact H4]]].
    + rewrite lookup_insert_ne by congruence. exact H1.
    + exact (phase_counts_other q (Settled o) _ _
               (proj1 (Hother q Hq)) (proj2 (Hother q Hq)) H3).
Qed.

Lemma filter_none {A} (f : A -> bool) (l : list A) :
  (forall x, x ∈ l -> f x = false) -> List.filter f l = [].
Proof.
  induction l as [|x l IH]; simpl; [reflexivity|]. intros H.
  rewrite (H x) by (left). apply IH. intros y Hy. apply H. right. exact Hy.
Qed.

Lemma same_but_flag_refl (a : Api) : same_but_flag a a.
Proof. reflexivity. Qed.

Lemma same_but_flag_trans (a b c : Api) :
  same_but_flag a b -> same_but_flag b c -> same_but_flag a c.
Proof. unfold same_but_flag. congruence. Qed.

Lemma same_but_flag_cleared (a : Api) : same_but_flag (set_authenticated false a) a.
Proof. reflexivity. Qed.

(** Readings that differ in the flag at most agree on every other field. *)
Lemma same_but_flag_fields (a b : Api) :
  same_but_flag a b ->
  credentials_of a = credentials_of b /\
  _mobileId a = _mobileId b /\
  _refreshPromise a = _refreshPromise b /\
  journal a = journal b.
Proof.
  unfold same_but_flag, credentials_of. intros E.
  pose proof (f_equal refreshToken E). pose proof (f_equal accessToken E).
  pose proof (f_equal idToken E). pose proof (f_equal cognitoToken E).
  pose proof (f_equal tokenExpiresAt E). pose proof (f_equal _mobileId E).
  pose proof (f_equal _refreshPromise E). pose proof (f_equal journal E).
  simpl in *. repeat split; congruence.
Qed.

Lemma found_after_nil (o : Outcome) (a : Api) : found_after o [] a = a.
Proof. unfold found_after. rewrite andb_false_r. reflexivity. Qed.

Lemma found_after_cons (o : Outcome) (w : nat * nat * Path)
    (ws : list (nat * nat * Path)) (a : Api) :
  found_after o (w :: ws) a = found_after o ws (found_after o [w] a).
Proof.
  unfold found_after. cbn [existsb]. rewrite orb_false_r.
  destruct (is_rejected o), (via_retry w), (existsb via_retry ws); reflexivity.
Qed.

Lemma found_after_same (o : Outcome) (ws : list (nat * nat * Path)) (a : Api) :
  same_but_flag (found_after o ws a) a /\
  _refreshPromise (found_after o ws a) = _refreshPromise a /\
  (o = Fulfilled -> found_after o ws a = a) /\
  ((forall w, w ∈ ws -> snd w <> ViaRetry) -> found_after o ws a = a).
Proof.
  unfold found_after. split; [|split; [|split]].
  - destruct (_ && _)%bool; reflexivity.
  - destruct (_ && _)%bool; reflexivity.
  - intros ->. reflexivity.
  - intros Hn. assert (existsb via_retry ws = false) as ->.
    { apply not_true_is_false. intros He. apply existsb_exists in He as (w & Hin & Hw).
      apply (Hn w); [apply list_elem_of_In; exact Hin|].
      unfold via_retry in Hw. destruct (snd w); try discriminate. reflexivity. }
    rewrite andb_false_r. reflexivity.
Qed.

(** One caller after the other: what the resumed callers are handed, and
    what they leave of the state. *)
Lemma resume_all (p : nat) (o : Outcome) (ws : list (nat * nat * Path)) (s : System) :
  let s' := foldl (resume p o) s ws in
  flights s' = flights s /\ promises s' = promises s /\
  wire s' = wire s /\ waiting s' = waiting s /\
  api s' = found_after o ws (api s) /\
  seen s'
  = (seen s ++ imap (fun i w => (fst (fst w),
                                 Awaited p o (found_after o (take i ws) (api s)))) ws)%list.
Proof.
  revert s. induction ws as [|w ws IH]; intros s; cbn zeta.
  - cbn [foldl imap]. rewrite found_after_nil, app_nil_r. repeat split; reflexivity.
  - cbn [foldl].
    destruct (IH (resume p o s w)) as (H1 & H2 & H3 & H4 & H5 & H6).
    assert (flights (resume p o s w) = flights s /\
            promises (resume p o s w) = promises s /\
            wire (resume p o s w) = wire s /\
            waiting (resume p o s w) = waiting s /\
            seen (resume p o s w) = (seen s ++ [(fst (fst w), Awaited p o (api s))])%list /\
            api (resume p o s w) = found_after o [w] (api s))
      as (R1 & R2 & R3 & R4 & R5 & R6).
    { unfold resume, found_after, via_retry. cbn [existsb]. rewrite orb_false_r.
      destruct (snd w), o as [|e]; cbn; repeat split; reflexivity. }
    split; [congruence|]. split; [congruence|]. split; [congruence|].
    split; [congruence|].
    split; [rewrite H5, R6, <- found_after_cons; reflexivity|].
    rewrite H6, R5, <- app_assoc. f_equal. cbn [app imap take].
    rewrite found_after_nil. f_equal.
    apply imap_ext. intros i w' _. cbn. rewrite R6, <- found_after_cons. reflexivity.
Qed.

(** The callback and the resumptions, whatever the state. *)
Lemma reap_fields (p : nat) (o : Outcome) (s : System) :
  let resumed := List.filter (awaits p) (waiting s) in
  flights (reap p o s) = delete p (flights s) /\
  promises (reap p o s) = promises s /\
  wire (reap p o s) = wire s /\
  waiting (reap p o s) = List.filter (fun w => negb (awaits p w)) (waiting s) /\
  api (reap p o s) = found_after o resumed (set_refreshPromise None (api s)) /\
  seen (reap p o s)
  = (seen s
     ++ imap (fun i w =>
                (fst (fst w),
                 Awaited p o (found_after o (take i resumed)
                                          (set_refreshPromise None (api s)))))
             resumed)%list.
Proof.
  cbn zeta. unfold reap.
  match goal with |- context [foldl (resume p o) ?s0 ?ws] =>
    destruct (resume_all p o ws s0) as (H1 & H2 & H3 & H4 & H5 & H6)
  end.
  cbn [flights promises wire waiting api seen] in *.
  repeat split; assumption.
Qed.

Lemma filter_all {A} (f : A -> bool) (l : list A) :
  (forall x, x ∈ l -> f x = true) -> List.filter f l = l.
Proof.
  induction l as [|x l IH]; simpl; [reflexivity|]. intros H.
  rewrite (H x) by (left). f_equal. apply IH. intros y Hy. apply H. right. exact Hy.
Qed.

(** The callback of the settled promise in the guard: the guard is
    cleared, nothing stays in flight or suspended, and every caller that
    was suspended is handed the outcome, in the order of the calls. *)
Lemma reap_settled (p : nat) (o : Outcome) (s : System) :
  Inv s -> flights s !! p = Some (Settled o) ->
  flights (reap p o s) = ∅ /\ promises (reap p o s) = promises s /\
  wire (reap p o s) = wire s /\ waiting (reap p o s) = [] /\
  api (reap p o s) = found_after o (waiting s) (set_refreshPromise None (api s)) /\
  seen (reap p o s)
  = (seen s
     ++ imap (fun i w =>
                (fst (fst w),
                 Awaited p o (found_after o (take i (waiting s))
                                          (set_refreshPromise None (api s)))))
             (waiting s))%list.
Proof.
  intros HI Hp.
  destruct (inv_alive s p _ HI Hp) as (G & Hfl & Hpc & Hb & Hw).
  assert (List.filter (awaits p) (waiting s) = waiting s) as Eall.
  { apply filter_all. intros [[c q] path] Hin. rewrite (Hw c q path Hin).
    unfold awaits. simpl. apply Nat.eqb_refl. }
  assert (List.filter (fun w => negb (awaits p w)) (waiting s) = []) as Enone.
  { apply filter_none. intros [[c q] path] Hin. rewrite (Hw c q path Hin).
    unfold awaits. simpl. rewrite Nat.eqb_refl. reflexivity. }
  unfold reap. rewrite Eall, Enone.
  match goal with |- context [foldl (resume p o) ?s0 (waiting s)] =>
    destruct (resume_all p o (waiting s) s0) as (H1 & H2 & H3 & H4 & H5 & H6)
  end.
  cbn [flights promises wire waiting api seen] in *.
  split; [rewrite H1, Hfl; apply delete_singleton_eq|].
  split; [exact H2|]. split; [exact H3|]. split; [exact H4|].
  split; [exact H5|exact H6].
Qed.

(** Each of the callers resumed by a promise holds its outcome and the
    object the callback left, up to the flag. *)
Lemma reap_handed (p : nat) (o : Outcome) (ws : list (nat * nat * Path)) (a : Api)
    (c : nat) (x : Seen) :
  (c, x) ∈ imap (fun i w => (fst (fst w), Awaited p o (found_after o (take i ws) a))) ws ->
  exists i w,
    ws !! i = Some w /\ c = fst (fst w) /\
    x = Awaited p o (found_after o (take i ws) a).
Proof.
  intros Hin. apply list_elem_of_lookup in Hin as (i & Hi).
  rewrite list_lookup_imap in Hi.
  destruct (ws !! i) as [w|] eqn:Ew; [|discriminate].
  simpl in Hi. inversion Hi. eauto.
Qed.

Lemma inv_reap (p : nat) (o : Outcome) (s : System) :
  Inv s -> flights s !! p = Some (Settled o) -> Inv (reap p o s).
Proof.
  intros HI Hp.
  destruct (reap_settled p o s HI Hp) as (R1 & R2 & R3 & R4 & R5 & R8).
  destruct (inv_alive s p _ HI Hp) as (G & Hfl & Hpc & Hb & Hw).
  destruct HI as [_ Hfr Hc Hs].
  assert (_refreshPromise (api (reap p o s)) = None) as G'.
  { rewrite R5. destruct (found_after_same o (waiting s) (set_refreshPromise None (api s)))
      as (_ & -> & _). reflexivity. }
  assert (forall c' q' o' a',
             (c', Awaited q' o' a')
             ∈ imap (fun i w =>
                       (fst (fst w),
                        Awaited p o (found_after o (take i (waiting s))
                                                 (set_refreshPromise None (api s)))))
                    (waiting s) ->
             q' = p /\ o' = o /\
             same_but_flag a' (set_refreshPromise None (api s)) /\
             (o = Fulfilled -> a' = set_refreshPromise None (api s))) as Hnew.
  { intros c' q' o' a' Hin. apply reap_handed in Hin as (i & w & _ & _ & E).
    inversion E; subst.
    destruct (found_after_same o (take i (waiting s)) (set_refreshPromise None (api s)))
      as (H1 & _ & H3 & _). auto. }
  split.
  - rewrite G'. split; [exact R1|exact R4].
  - rewrite R2, R3. exact Hfr.
  - rewrite R3. exact Hc.
  - rewrite R1, R2, R3, R8. intros c q o1 a1 Hin.
    split; [apply lookup_empty|].
    apply elem_of_app in Hin as [Hin|Hin].
    + destruct (Hs c q o1 a1 Hin) as (H1 & H2 & H3 & H4).
      assert (q <> p) as Hq by (intros ->; congruence).
      split; [exact H2|]. split; [exact H3|].
      intros c' o' a' Hin'. apply elem_of_app in Hin' as [Hin'|Hin'].
      * eapply H4; exact Hin'.
      * destruct (Hnew _ _ _ _ Hin') as (-> & _). contradiction.
    + destruct (Hnew _ _ _ _ Hin) as (-> & -> & Hsb & Hfu).
      split; [exact Hb|]. split; [exact Hpc|].
      intros c' o' a' Hin'. apply elem_of_app in Hin' as [Hin'|Hin'].
      * destruct (Hs c' p o' a' Hin') as (H1 & _). congruence.
      * destruct (Hnew _ _ _ _ Hin') as (_ & -> & Hsb' & Hfu').
        split; [reflexivity|]. split.
        -- unfold same_but_flag in *. congruence.
        -- intros Ho. rewrite Hfu, Hfu' by exact Ho. reflexivity.
Qed.

Lemma step_inv `{Runtime} (s s' : System) (ev : Event) :
  Inv s -> step s ev = Some s' -> Inv s'.
Proof.
  intros HI. destruct ev as [c|c now|c|p now reply|p reply|p]; simpl.
  - intros E; inversion E. apply inv_safeRefresh, HI.
  - intros E; inversion E. apply inv_ensure, HI.
  - intros E; inversion E. apply inv_safeRefresh, HI.
  - destruct (flights s !! p) as [[| |o]|] eqn:Hp; try discriminate.
    destruct reply as [r|].
    + pose proof (refresh_resume_guard now r (api s)) as Hg.
      destruct (refresh_resume now r (api s)) as [a [e|rq]] eqn:R;
        intros E; inversion E; subst; eapply inv_advance; eauto.
      * left. repeat split. exists e. split; [reflexivity|].
        eapply refresh_resume_error. exact R.
      * right. right. right. exists rq. repeat split.
        eapply refresh_resume_request. exact R.
    + intros E; inversion E. eapply inv_advance; eauto.
      left. repeat split. exists FetchRejected. split; [reflexivity|exact I].
  - destruct (flights s !! p) as [[| |o]|] eqn:Hp; try discriminate.
    destruct reply as [r|].
    + pose proof (refresh_finish_guard r (api s)) as Hg.
      destruct (refresh_finish r (api s)) as [a [e|]] eqn:R;
        intros E; inversion E; subst; eapply inv_advance; eauto.
      * right. left. repeat split. exists e. split; [reflexivity|].
        eapply refresh_finish_error. exact R.
      * right. right. left. auto.
    + intros E; inversion E. eapply inv_advance; eauto.
      right. left. repeat split. exists FetchRejected. split; [reflexivity|exact I].
  - destruct (flights s !! p) as [[| |o]|] eqn:Hp; try discriminate.
    intros E; inversion E. apply inv_reap; assumption.
Qed.

Lemma run_inv `{Runtime} (evs : list Event) (s s' : System) :
  Inv s -> run s evs = Some s' -> Inv s'.
Proof.
  revert s. induction evs as [|ev evs IH]; simpl; intros s HI.
  - intros E; inversion E; subst. exact HI.
  - destruct (step s ev) as [s1|] eqn:S; [|discriminate].
    apply IH. eapply step_inv; eauto.
Qed.

(** C1 (as amended): in every state the shared client reaches from an
    idle start, whatever the interleaving of callers, replies and
    callbacks: the callers suspended on a refresh all await the one promise
    held in [_refreshPromise]; the guard is set only while an invocation
    of the refresh is alive, and at most one is, with the requests its
    phase accounts for; no promise ever has more than one token request or
    more than one login request on the wire; the callers resumed by a
    promise all saw the same outcome and the same credentials (the whole
    object alike when the refresh was fulfilled, and alike up to the
    session flag when it was rejected), with exactly one request of each
    kind issued for it when the refresh was fulfilled, and for a rejected
    refresh the requests its error accounts for (the token request alone
    when the token exchange was refused); while the guard is set, every
    call that reaches [_safeRefresh], from [_ensureAuthenticated], from the
    retry path or from the app, suspends its caller on the promise in the
    guard and changes nothing else, so no request is added; the invocation
    alive answers every reply by moving on, and once it has settled,
    fulfilled or rejected, its callback can run: it leaves the guard
    cleared with nothing in flight and resumes every suspended caller, in
    the order of the calls, with that outcome, a caller finding the session
    flag cleared exactly when the refresh was rejected and a caller resumed
    before it came through the retry path; and with the guard cleared and a
    refresh token stored, the next call that reaches [_safeRefresh] starts
    a new refresh with one new token request. *)
Theorem single_flight_refresh `{Runtime} (a : Api) (evs : list Event) (s : System) :
  _refreshPromise a = None ->
  run (boot a) evs = Some s ->
  (forall c p path, (c, p, path) ∈ waiting s -> _refreshPromise (api s) = Some p) /\
  (forall p, _refreshPromise (api s) = Some p -> is_Some (flights s !! p)) /\
  (forall p ph, flights s !! p = Some ph ->
                _refreshPromise (api s) = Some p /\ phase_counts p ph (wire s)) /\
  (forall p, token_requests p (wire s) <= 1 /\ login_requests p (wire s) <= 1) /\
  (forall c p o credentials,
      (c, Awaited p o credentials) ∈ seen s ->
      (o = Fulfilled ->
       token_requests p (wire s) = 1 /\ login_requests p (wire s) = 1) /\
      (forall e, o = Rejected e -> rejected_counts p e (wire s)) /\
      (forall c' o' credentials',
          (c', Awaited p o' credentials') ∈ seen s ->
          o' = o /\
          credentials_of credentials' = credentials_of credentials /\
          same_but_flag credentials' credentials /\
          (o = Fulfilled -> credentials' = credentials))) /\
  (forall p, _refreshPromise (api s) = Some p ->
   forall ev c path,
     reaches_safeRefresh ev c path s ->
     step s ev = Some (joined c p path s)) /\
  (forall p,
      (flights s !! p = Some AwaitingToken ->
       forall now reply, exists s' ph',
         step s (TokenReply p now reply) = Some s' /\
         flights s' = {[p := ph']} /\ ph' <> AwaitingToken /\
         _refreshPromise (api s') = Some p /\ waiting s' = waiting s) /\
      (flights s !! p = Some AwaitingLogin ->
       forall reply, exists s' o,
         step s (LoginReply p reply) = Some s' /\
         flights s' = {[p := Settled o]} /\
         _refreshPromise (api s') = Some p /\ waiting s' = waiting s)) /\
  (forall p o,
      flights s !! p = Some (Settled o) ->
      exists s', step s (Finally p) = Some s' /\
                 _refreshPromise (api s') = None /\
                 flights s' = ∅ /\ waiting s' = [] /\ wire s' = wire s /\
                 seen s'
                 = (seen s
                    ++ imap (fun i w =>
                               (fst (fst w),
                                Awaited p o
                                  (found_after o (take i (waiting s))
                                               (set_refreshPromise None (api s)))))
                            (waiting s))%list) /\
  (_refreshPromise (api s) = None ->
   truthy (refreshToken (api s)) = true ->
   forall ev c path,
     reaches_safeRefresh ev c path s ->
     exists s',
       step s ev = Some s' /\
       _refreshPromise (api s') = Some (promises s) /\
       flights s' = {[promises s := AwaitingToken]} /\
       waiting s' = [(c, promises s, path)] /\
       wire s' = (wire s ++ [(promises s, TokenRequest (refreshToken (api s)))])%list /\
       token_requests (promises s) (wire s') = 1 /\
       token_requests (promises s) (wire s) = 0).
Proof.
  intros Ha Hrun.
  pose proof (run_inv evs (boot a) s (inv_boot a Ha) Hrun) as HI.
  assert (forall ev c path, reaches_safeRefresh ev c path s ->
            step s ev = Some (_safeRefresh c path s)) as Hcall.
  { intros ev c path Hr. destruct ev as [c'|c' now|c'|q now reply|q reply|q];
      cbn [reaches_safeRefresh] in Hr; try contradiction.
    - destruct Hr as [-> ->]. reflexivity.
    - destruct Hr as (-> & -> & Hn & Ht). cbn [step]. unfold _ensureAuthenticated.
      rewrite Hn, Ht. reflexivity.
    - destruct Hr as [-> ->]. reflexivity. }
  split; [|split; [|split; [|split; [|split; [|split; [|split; [|split]]]]]]].
  - intros c p path Hin. destruct HI as [Hf _ _ _].
    destruct (_refreshPromise (api s)) as [p'|].
    + destruct Hf as (_ & _ & Hw). rewrite (Hw c p path Hin). reflexivity.
    + destruct Hf as [_ Hw]. rewrite Hw in Hin. apply elem_of_nil in Hin. contradiction.
  - intros p G. destruct HI as [Hf _ _ _]. rewrite G in Hf.
    destruct Hf as ((ph & Hfl & _) & _). rewrite Hfl, lookup_singleton_eq. eauto.
  - intros p ph Hp. destruct (inv_alive s p ph HI Hp) as (G & _ & Hpc & _). auto.
  - apply HI.
  - intros c p o cr Hin. destruct (inv_seen s HI c p o cr Hin) as (_ & _ & H3 & H4).
    split; [intros ->; exact H3|]. split; [intros e ->; exact H3|].
    intros c' o' cr' Hin'. destruct (H4 c' o' cr' Hin') as (Ho & Hsb & Hfu).
    split; [exact Ho|]. split; [apply same_but_flag_fields; exact Hsb|].
    split; [exact Hsb|exact Hfu].
  - intros p G ev c path Hr. rewrite (Hcall ev c path Hr).
    unfold _safeRefresh. rewrite G. reflexivity.
  - intros p. split.
    + intros Hp now reply.
      destruct (inv_alive s p _ HI Hp) as (G & Hfl & _).
      cbn [step]. rewrite Hp. destruct reply as [r|].
      * pose proof (refresh_resume_guard now r (api s)) as Hg.
        destruct (refresh_resume now r (api s)) as [a' [e|rq]]; cbn [fst] in Hg;
          eexists; eexists; (split; [reflexivity|]); cbn [advance flights api waiting];
          rewrite Hfl, insert_singleton_eq, Hg, G; repeat split; discriminate.
      * eexists; eexists; (split; [reflexivity|]); cbn [advance flights api waiting].
        rewrite Hfl, insert_singleton_eq, G. repeat split; discriminate.
    + intros Hp reply.
      destruct (inv_alive s p _ HI Hp) as (G & Hfl & _).
      cbn [step]. rewrite Hp. destruct reply as [r|].
      * pose proof (refresh_finish_guard r (api s)) as Hg.
        destruct (refresh_finish r (api s)) as [a' [e|]]; cbn [fst] in Hg;
          eexists; eexists; (split; [reflexivity|]); cbn [advance flights api waiting];
          rewrite Hfl, insert_singleton_eq, Hg, G; repeat split.
      * eexists; eexists; (split; [reflexivity|]); cbn [advance flights api waiting].
        rewrite Hfl, insert_singleton_eq, G. repeat split.
  - intros p o Hp. cbn [step]. rewrite Hp. eexists. split; [reflexivity|].
    destruct (reap_settled p o s HI Hp) as (R1 & R2 & R3 & R4 & R5 & R6).
    split.
    { rewrite R5.
      destruct (found_after_same o (waiting s) (set_refreshPromise None (api s)))
        as (_ & -> & _). reflexivity. }
    split; [exact R1|]. split; [exact R4|]. split; [exact R3|exact R6].
  - intros G Ht ev c path Hr. rewrite (Hcall ev c path Hr).
    pose proof (inv_fresh s HI (promises s) (le_n _)) as [T0 _].
    pose proof (inv_flight s HI) as Hf. rewrite G in Hf. destruct Hf as [Hfl Hw].
    eexists. split; [reflexivity|].
    unfold _safeRefresh. rewrite G. unfold refresh_begin. rewrite Ht.
    cbn [negb fst snd api flights waiting wire set_refreshPromise _refreshPromise].
    rewrite Hfl, Hw. split; [reflexivity|]. split; [apply insert_empty|].
    split; [reflexivity|]. split; [reflexivity|]. split; [|exact T0].
    rewrite token_requests_app. simpl. rewrite Nat.eqb_refl, T0. reflexivity.
Qed.

(** Two callers share a refresh whose token exchange is answered 400:
    one token request went out, no login request, and both callers are
    resumed with the same rejection. *)
Lemma refused_exchange_issues_no_login :
  @run decimalRuntime (boot stale_client) refused_exchange = Some refused_exchange_end /\
  seen refused_exchange_end
  = [ (1, Awaited 0 (Rejected (TokenRefreshFailed 400 "invalid_grant"))
                  (api refused_exchange_end));
      (2, Awaited 0 (Rejected (TokenRefreshFailed 400 "invalid_grant"))
                  (api refused_exchange_end)) ] /\
  token_requests 0 (wire refused_exchange_end) = 1 /\
  login_requests 0 (wire refused_exchange_end) = 0 /\
  login_requests 0 (wire refused_exchange_end) <> 1.
Proof.
  split; [vm_compute; reflexivity|]. split; [vm_compute; reflexivity|].
  split; [reflexivity|]. split; [reflexivity|]. vm_compute. discriminate.
Qed.

(** A refresh that is rejected resumes the caller on the retry path
    first, with the session flag still set; its [catch] clears the flag,
    and the caller resumed next finds it cleared.  Both find the same
    tokens. *)
Lemma retry_path_clears_flag_between_callers :
  @run decimalRuntime (boot lapsed_client) refused_retry = Some refused_retry_end /\
  seen refused_retry_end
  = [ (1, Awaited 0 (Rejected (TokenRefreshFailed 400 "invalid_grant")) lapsed_client);
      (2, Awaited 0 (Rejected (TokenRefreshFailed 400 "invalid_grant"))
                  (set_authenticated false lapsed_client)) ] /\
  api refused_retry_end = set_authenticated false lapsed_client /\
  credentials_of (set_authenticated false lapsed_client) = credentials_of lapsed_client.
Proof.
  split; [vm_compute; reflexivity|]. split; [vm_compute; reflexivity|].
  split; [vm_compute; reflexivity|reflexivity].
Qed.

(** C10 (as amended): [setTokens] overwrites the access and id tokens
    and sets the expiry to eight hours after the call; a refresh token
    argument that is falsy ([null], omitted, or the empty string) leaves
    the stored refresh token as it is, a truthy one replaces it; no other
    field changes. *)
Theorem setTokens_effect (now : Z) (access id refresh : JsVal) (a : Api) :
  let a' := setTokens now access id refresh a in
  accessToken a' = access /\
  idToken a' = id /\
  tokenExpiresAt a' = Some (Num (inject_Z (now + 28800000))) /\
  (refresh = JNull \/ refresh = JUndefined -> refreshToken a' = refreshToken a) /\
  (truthy refresh = false -> refreshToken a' = refreshToken a) /\
  (truthy refresh = true -> refreshToken a' = refresh) /\
  cognitoToken a' = cognitoToken a /\
  _authenticated a' = _authenticated a /\
  _mobileId a' = _mobileId a /\
  _refreshPromise a' = _refreshPromise a /\
  journal a' = journal a.
Proof.
  simpl. repeat split.
  - intros [-> | ->]; reflexivity.
  - intros Hf. destruct refresh as [| |b|[|q]|t|fields]; simpl in *;
      try reflexivity; try discriminate; rewrite Hf; reflexivity.
  - intros Ht. destruct refresh as [| |b|[|q]|t|fields]; simpl in *;
      try discriminate; try reflexivity; rewrite Ht; reflexivity.
Qed.

(** The empty string is not [null], yet as third argument it leaves the
    stored refresh token in place. *)
Lemma empty_refresh_token_is_not_installed :
  JString "" <> JNull /\
  refreshToken (setTokens 1700000000000 (JString "access-2") (JString "id-2")
                          (JString "") stale_client)
  = JString "refresh-1" /\
  refreshToken (setTokens 1700000000000 (JString "access-2") (JString "id-2")
                          (JString "") stale_client)
  <> JString "".
Proof. split; [discriminate|]. split; [reflexivity|]. simpl. discriminate. Qed.

(** A first response 401 followed by a failing refresh: one request was
    sent, not two, and the call ends with the wrapped refresh error. *)
Lemma failed_refresh_is_not_retried :
  let run := exec refusing 0 (_apiRequest "/commands/v1/appliance" no_options) in
  responses (fst run) = [Some unauthorized] /\
  is_auth_failure unauthorized = true /\
  refreshes (fst run) = [Thrown NoRefreshTokenAvailable] /\
  length (requests (fst run)) = 1 /\
  length (requests (fst run)) <> 2 /\
  snd run = Thrown (RefreshErrorDuringRequest NoRefreshTokenAvailable).
Proof.
  split; [reflexivity|]. split; [reflexivity|]. split; [reflexivity|].
  split; [reflexivity|]. split; [simpl; discriminate|reflexivity].
Qed.

(** *** Token lifetime and initialisation *)

Lemma Qle_bool_inject (x y : Z) : Qle_bool (inject_Z x) (inject_Z y) = (x <=? y)%Z.
Proof.
  destruct (x <=? y)%Z eqn:E.
  - apply Qle_bool_iff. rewrite <- Zle_Qle. apply Z.leb_le. exact E.
  - destruct (Qle_bool (inject_Z x) (inject_Z y)) eqn:E'; [|reflexivity].
    apply Qle_bool_iff in E'. rewrite <- Zle_Qle in E'. apply Z.leb_le in E'. congruence.
Qed.

Lemma Qeq_bool_inject (x y : Z) : Qeq_bool (inject_Z x) (inject_Z y) = (x =? y)%Z.
Proof.
  destruct (x =? y)%Z eqn:E.
  - apply Qeq_bool_iff. apply Z.eqb_eq in E. subst. reflexivity.
  - destruct (Qeq_bool (inject_Z x) (inject_Z y)) eqn:E'; [|reflexivity].
    apply Qeq_bool_iff in E'. unfold Qeq in E'. simpl in E'. apply Z.eqb_neq in E. lia.
Qed.

(** X1: tokens installed at [now] count as expired strictly after
    [now] plus eight hours, and not before; the one exception is the
    instant at which that sum is 0, which the check reads as no expiry
    at all. *)
Theorem installed_tokens_expire_after_lifetime
    (now t : Z) (access id refresh : JsVal) (a : Api) :
  isTokenExpired t (setTokens now access id refresh a)
  = ((now + TOKEN_LIFETIME_MS =? 0) || (now + TOKEN_LIFETIME_MS <? t))%Z%bool.
Proof.
  unfold isTokenExpired, setTokens. cbn [tokenExpiresAt expiry_set truthy num_ltb].
  change 0%Q with (inject_Z 0). rewrite Qeq_bool_inject, Qle_bool_inject.
  destruct (now + TOKEN_LIFETIME_MS =? 0)%Z; cbn [negb orb]; [reflexivity|].
  rewrite Z.ltb_antisym. reflexivity.
Qed.

(** X2: authentication only lapses with time: a client authenticated at
    [t] is authenticated at every earlier time; and when it has an
    expiry, its tokens are not expired for another hour. *)
Theorem authentication_lapses_with_time (t : Z) (a : Api) :
  isAuthenticated t a = true ->
  (forall t' : Z, (t' <= t)%Z -> isAuthenticated t' a = true) /\
  (expiry_set (tokenExpiresAt a) = true ->
   forall t' : Z, (t' <= t + TOKEN_EXPIRY_BUFFER)%Z -> isTokenExpired t' a = false).
Proof.
  unfold isAuthenticated, isTokenExpired.
  destruct (negb (_authenticated a) || negb (truthy (cognitoToken a))
            || negb (truthy (idToken a)))%bool; [discriminate|].
  destruct (tokenExpiresAt a) as [[|x]|]; cbn [expiry_set past_buffer num_add num_ltb truthy].
  - intros _. split; [reflexivity|discriminate].
  - destruct (negb (Qeq_bool x 0)); cbn [andb negb].
    + destruct (Qle_bool (inject_Z t) (x + inject_Z (- TOKEN_EXPIRY_BUFFER))) eqn:E;
        [intros _|discriminate].
      apply Qle_bool_iff in E.
      split.
      * intros t' Ht.
        assert (Qle_bool (inject_Z t') (x + inject_Z (- TOKEN_EXPIRY_BUFFER)) = true) as ->.
        { apply Qle_bool_iff. rewrite Zle_Qle in Ht. lra. }
        reflexivity.
      * intros _ t' Ht.
        assert (Qle_bool (inject_Z t') x = true) as ->.
        { apply Qle_bool_iff. rewrite Zle_Qle in Ht.
          rewrite inject_Z_plus in Ht. rewrite inject_Z_opp in E. lra. }
        reflexivity.
    + intros _. split; [reflexivity|discriminate].
  - intros _. split; [reflexivity|discriminate].
Qed.

(** *** Initialisation with pre-set tokens *)

Lemma cognito_resume_grant (r : Response) (token : JsVal) (a : Api) :
  grants r token -> cognito_resume r a = (set_cognitoToken token a, None).
Proof.
  intros (Hok & result & Hj & Ht & Htr). unfold cognito_resume.
  rewrite Hok, Hj. cbn [negb].
  subst token.
  destruct result as [| | | | |fields]; try discriminate;
    destruct (get (JObject fields) "cognitoUser") eqn:E; try discriminate;
    rewrite Htr; reflexivity.
Qed.

Lemma cognito_resume_failure (r : Response) (a a' : Api) (e : Error) :
  cognito_resume r a = (a', Some e) -> a' = a.
Proof.
  unfold cognito_resume. destruct (negb (ok r)); [intros E; inversion E; reflexivity|].
  destruct (json r) as [[]|]; try (intros E; inversion E; reflexivity);
    match goal with |- context [if ?b then _ else _] => destruct b end;
    intros E; inversion E; reflexivity.
Qed.

Lemma cognito_resume_success (r : Response) (a a' : Api) :
  cognito_resume r a = (a', None) ->
  exists token, truthy token = true /\ a' = set_cognitoToken token a.
Proof.
  unfold cognito_resume. destruct (negb (ok r)); [discriminate|].
  destruct (json r) as [[]|]; try discriminate;
    match goal with |- context [if negb (truthy ?t) then _ else _] =>
      destruct (truthy t) eqn:Ht end; cbn [negb]; try discriminate;
    intros E; inversion E; eauto.
Qed.

(** X3: installing a pair of non-empty tokens at [now] and completing
    the initialisation with a login reply that carries a token sends the
    one login request, with the installed id token, and leaves a client
    that is authenticated up to seven hours after [now] and no longer
    (always, at the one instant where the expiry is 0). *)
Theorem initialised_client_is_authenticated
    (now : Z) (access id refresh token : JsVal) (r : Response) (a : Api) :
  truthy access = true -> truthy id = true -> grants r token ->
  exists a' : Api,
    initializeWithTokens (Some r) (setTokens now access id refresh a)
    = (a', [LoginRequest id (_mobileId a)], None) /\
    cognitoToken a' = token /\
    forall t : Z,
      isAuthenticated t a'
      = ((now + TOKEN_LIFETIME_MS =? 0)
         || (t <=? now + TOKEN_LIFETIME_MS - TOKEN_EXPIRY_BUFFER))%Z%bool.
Proof.
  intros Ha Hi Hg.
  unfold initializeWithTokens, initialize_begin.
  cbn [accessToken idToken setTokens]. rewrite Ha, Hi. cbn [negb orb].
  rewrite (cognito_resume_grant r token _ Hg).
  eexists. split; [reflexivity|]. split; [reflexivity|].
  intros t. unfold isAuthenticated.
  cbn [_authenticated cognitoToken idToken tokenExpiresAt set_authenticated
       set_cognitoToken setTokens negb orb].
  destruct Hg as (_ & result & _ & _ & Ht). rewrite Ht, Hi. cbn [negb orb].
  cbn [expiry_set truthy past_buffer num_add num_ltb].
  change 0%Q with (inject_Z 0). rewrite Qeq_bool_inject.
  destruct (now + TOKEN_LIFETIME_MS =? 0)%Z; cbn [negb andb orb]; [reflexivity|].
  rewrite <- inject_Z_plus, Qle_bool_inject.
  replace (now + TOKEN_LIFETIME_MS + - TOKEN_EXPIRY_BUFFER)%Z
    with (now + TOKEN_LIFETIME_MS - TOKEN_EXPIRY_BUFFER)%Z by lia.
  destruct (t <=? _)%Z; reflexivity.
Qed.

(** X4: an initialisation that fails leaves the client exactly as it
    was, having sent the login request unless a token was missing; one
    that succeeds has sent that request and changed two fields only, the
    session flag, now set, and the Cognito token, now non-empty. *)
Theorem initialisation_outcome (reply : option Response) (a : Api) :
  let '(a', sent, failure) := initializeWithTokens reply a in
  match failure with
  | Some e =>
      a' = a /\
      if (truthy (accessToken a) && truthy (idToken a))%bool
      then sent = [LoginRequest (idToken a) (_mobileId a)] /\ e <> TokensNotSet
      else sent = [] /\ e = TokensNotSet
  | None =>
      sent = [LoginRequest (idToken a) (_mobileId a)] /\
      exists token : JsVal,
        truthy token = true /\
        a' = set_authenticated true (set_cognitoToken token a)
  end.
Proof.
  unfold initializeWithTokens, initialize_begin, login_request.
  destruct (truthy (accessToken a)), (truthy (idToken a)); cbn [negb orb andb];
    try (split; [reflexivity|split; reflexivity]).
  destruct reply as [r|].
  - destruct (cognito_resume r a) as [a' [e|]] eqn:E.
    + split; [eapply cognito_resume_failure; exact E|].
      split; [reflexivity|].
      revert E. unfold cognito_resume. destruct (negb (ok r)); [intros E; inversion E; discriminate|].
      destruct (json r) as [[]|]; try (intros E; inversion E; discriminate);
        match goal with |- context [if ?b then _ else _] => destruct b end;
        intros E; inversion E; discriminate.
    + split; [reflexivity|].
      destruct (cognito_resume_success r a a' E) as (token & Ht & ->). eauto.
  - split; [reflexivity|]. split; [reflexivity|discriminate].
Qed.

Ltac bounded_case :=
  cbn; repeat split; try lia; try (intros; discriminate);
  try (intros e' E'; inversion E'; subst; repeat split; reflexivity);
  try congruence;
  try (intros Hn; exfalso; apply Hn; reflexivity); eauto;
  try (right; split; [reflexivity|]; eexists; split; reflexivity).

(** X8: a request through [_apiRequest] fetches at most twice and
    refreshes at most once, and only after a first response 401 or 403;
    when [_ensureAuthenticated] throws, that error ends the call before
    any fetch; and the session flag is cleared only in a call that ends
    with an error carrying no status. *)
Theorem api_request_is_bounded (env : forall X, nat -> Call X -> X)
    (endpoint : string) (options : RequestOptions) :
  let run := exec env 0 (_apiRequest endpoint options) in
  length (responses (fst run)) <= 2 /\
  length (refreshes (fst run)) <= 1 /\
  (forall e : Error,
      env _ 0%nat EnsureAuthenticated = Thrown e ->
      responses (fst run) = [] /\ refreshes (fst run) = [] /\
      marks (fst run) = [] /\ snd run = Thrown e) /\
  (refreshes (fst run) <> [] ->
   exists r1 rest,
     responses (fst run) = Some r1 :: rest /\ is_auth_failure r1 = true) /\
  (marks (fst run) = [] \/
   marks (fst run) = [false] /\
   exists e : Error, snd run = Thrown e /\ error_status e = None).
Proof.
  intros run. subst run.
  unfold _apiRequest, doFetch, await, mbind, prog_bind. run_step.
  destruct (env _ 0%nat EnsureAuthenticated) as [[]|e0] eqn:E0; run_step;
    [|bounded_case].
  destruct (env _ 2%nat (Fetch _)) as [r1'|]; run_step; [|bounded_case].
  destruct (is_auth_failure r1') eqn:A1; run_step.
  - destruct (env _ 3%nat SafeRefresh) as [[]|e]; run_step.
    + destruct (env _ 5%nat (Fetch _)) as [r2|]; run_step.
      * destruct (is_auth_failure r2) eqn:A2; run_step.
        -- bounded_case.
        -- rewrite exec_conclude. bounded_case.
      * bounded_case.
    + bounded_case.
  - rewrite exec_conclude. bounded_case.
Qed.

(** *** The requests of a call *)

(** The request [doFetch] builds when it finds the object as [this]. *)
Lemma api_request_requests (env : forall X, nat -> Call X -> X) (n : nat)
    (endpoint : string) (options : RequestOptions) :
  let run := exec env n (_apiRequest endpoint options) in
  Forall2 (fun this rq =>
             rq = {| url := API_URL ++ endpoint;
                     http_method := or_else (method options) (JString "GET");
                     http_headers := headers options ∪ _buildAuthHeaders this;
                     http_body := body options |})
          (reads (fst run)) (requests (fst run)).
Proof.
  intros run. subst run.
  unfold _apiRequest, doFetch, await, mbind, prog_bind. run_step.
  destruct (env _ n EnsureAuthenticated) as [[]|e0]; run_step; [|constructor].
  destruct (env _ (S (S n)) (Fetch _)) as [r1'|]; run_step;
    [|repeat constructor].
  destruct (is_auth_failure r1') eqn:A1; run_step.
  - destruct (env _ (S (S (S n))) SafeRefresh) as [[]|e]; run_step.
    + destruct (env _ (S (S (S (S (S n))))) (Fetch _)) as [r2|]; run_step.
      * destruct (is_auth_failure r2) eqn:A2; run_step.
        -- repeat constructor.
        -- rewrite exec_conclude. repeat constructor.
      * repeat constructor.
    + repeat constructor.
  - rewrite exec_conclude. repeat constructor.
Qed.

Lemma auth_headers_tokens (this : Api) :
  _buildAuthHeaders this !! "id-token" = Some (idToken this) /\
  _buildAuthHeaders this !! "cognito-token" = Some (cognitoToken this).
Proof.
  unfold _buildAuthHeaders. split.
  - rewrite !lookup_insert_ne by discriminate. apply lookup_singleton_eq.
  - rewrite !lookup_insert_ne by discriminate. apply lookup_insert_eq.
Qed.

(** X9: every request of a call, the retry after a refresh included, is
    built from the object as it is when that request is made, so the
    retry carries the refreshed tokens; the target, the method and the
    body are those of the call, and a header passed by the caller takes
    the place of the header of the same name. *)
Theorem requests_follow_the_object (env : forall X, nat -> Call X -> X)
    (endpoint : string) (options : RequestOptions) :
  let run := exec env 0 (_apiRequest endpoint options) in
  Forall2 (fun this rq =>
             url rq = API_URL ++ endpoint /\
             http_method rq = or_else (method options) (JString "GET") /\
             http_body rq = body options /\
             (forall (k : string) (v : JsVal),
                 headers options !! k = Some v -> http_headers rq !! k = Some v) /\
             (headers options !! "id-token" = None ->
              http_headers rq !! "id-token" = Some (idToken this)) /\
             (headers options !! "cognito-token" = None ->
              http_headers rq !! "cognito-token" = Some (cognitoToken this)))
          (reads (fst run)) (requests (fst run)).
Proof.
  intros run. subst run.
  eapply Forall2_impl; [apply api_request_requests|].
  intros this rq ->. cbn [url http_method http_body http_headers].
  split; [reflexivity|]. split; [reflexivity|]. split; [reflexivity|].
  destruct (auth_headers_tokens this) as [Hi Hc].
  split; [|split].
  - intros k v Hk. apply lookup_union_Some_l. exact Hk.
  - intros Hn. rewrite lookup_union_r by exact Hn. exact Hi.
  - intros Hn. rewrite lookup_union_r by exact Hn. exact Hc.
Qed.

(** *** The command envelope *)

Lemma drop_last_app (s : string) (c : ascii) :
  drop_last (s ++ String c EmptyString) = s.
Proof.
  induction s as [|c' s IH]; [reflexivity|].
  change (drop_last (String c' (s ++ String c EmptyString)) = String c' s).
  destruct s as [|c2 s]; [reflexivity|].
  change (String c' (drop_last (String c2 s ++ String c EmptyString)) = String c' (String c2 s)).
  rewrite IH. reflexivity.
Qed.

(** X10: the envelope of a command is stamped with the clock's ISO time
    as it is (for a time that ends in Z) and identified by the MAC, an
    underscore and that time; it carries the parameters and the object's
    mobile id unchanged; a program name goes out with [startProgram] only,
    IOT_AUTO when none was given, and every other command has none
    whatever the options say; and every request [sendCommand] issues
    is a POST of that envelope to the send endpoint, none at all when the
    envelope cannot be built. *)
Theorem command_envelope (env : forall X, nat -> Call X -> X)
    (macAddress commandName : string) (parameters : gmap string JsVal)
    (options : CommandOptions) :
  let iso := env _ 0%nat Clock in
  let this := env _ 1%nat ReadThis in
  let built := payload iso this macAddress commandName parameters options in
  let run := exec env 0 (sendCommand macAddress commandName parameters options) in
  (forall p : Payload,
      built = Ok p ->
      p_parameters p = parameters /\
      p_macAddress p = macAddress /\
      mobileId (p_device p) = _mobileId this /\
      (forall stamp : string,
          iso = stamp ++ "Z" ->
          p_timestamp p = iso /\ p_transactionId p = macAddress ++ "_" ++ iso) /\
      Forall (fun rq => url rq = API_URL ++ "/commands/v1/send" /\
                        http_method rq = JString "POST" /\
                        http_body rq = Some p)
             (requests (fst run))) /\
  (commandName <> "startProgram" ->
   exists p : Payload, built = Ok p /\ p_programName p = None) /\
  (commandName = "startProgram" ->
   truthy (programName options) = false ->
   exists p : Payload, built = Ok p /\ p_programName p = Some "IOT_AUTO") /\
  (forall e : Error,
      built = Thrown e -> requests (fst run) = [] /\ snd run = Thrown e).
Proof.
  intros iso this built run.
  assert (forall p, built = Ok p ->
            run = (Did Clock iso :: Did ReadThis this
                     :: fst (exec env 2 (_apiRequest "/commands/v1/send"
                          {| method := JString "POST"; headers := ∅; body := Some p |})),
                   snd (exec env 2 (_apiRequest "/commands/v1/send"
                          {| method := JString "POST"; headers := ∅; body := Some p |}))))
    as Hrun.
  { intros p Hp. subst run. unfold sendCommand. cbn [exec fst snd].
    fold iso. fold this. fold built. rewrite Hp. reflexivity. }
  split; [|split; [|split]].
  - intros p Hp. pose proof (Hrun p Hp) as ->.
    revert Hp. subst built. unfold payload.
    destruct (program_name commandName (programName options)) as [name|e]; [|discriminate].
    intros E. injection E as Ep.
    split; [rewrite <- Ep; reflexivity|]. split; [rewrite <- Ep; reflexivity|].
    split; [rewrite <- Ep; reflexivity|]. split.
    + intros stamp Hs. rewrite <- Ep. cbn [p_timestamp p_transactionId]. rewrite Hs.
      change (stamp ++ "Z") with (stamp ++ String "Z" EmptyString).
      rewrite drop_last_app. split; reflexivity.
    + cbn [fst].
      match goal with
      | |- Forall _ (requests (_ :: _ :: ?l)) =>
          change (Forall (fun rq => url rq = API_URL ++ "/commands/v1/send" /\
                                    http_method rq = JString "POST" /\
                                    http_body rq = Some p)
                         (requests l))
      end.
      pose proof (api_request_requests env 2 "/commands/v1/send"
        {| method := JString "POST"; headers := ∅;
           body := Some {|
             p_macAddress := macAddress;
             p_timestamp := drop_last iso ++ "Z";
             p_commandName := commandName;
             p_transactionId := macAddress ++ "_" ++ drop_last iso ++ "Z";
             p_applianceOptions := or_else (applianceOptions options) (JObject []);
             p_device :=
               {| appVersion := APP_VERSION; mobileId := _mobileId this;
                  mobileOs := "ios"; osVersion := OS_VERSION;
                  deviceModel := DEVICE_MODEL |};
             p_attributes :=
               {| channel := "mobileApp"; origin := "standardProgram";
                  energyLabel := "0" |};
             p_ancillaryParameters := default ∅ (ancillaryParameters options);
             p_parameters := parameters;
             p_applianceType := "AC";
             p_programName := name |} |}) as Hf.
      cbn zeta in Hf. rewrite Ep in Hf.
      eapply Forall2_Forall_r; [exact Hf|].
      apply Forall_forall. intros this' _ rq ->.
      split; [reflexivity|]. split; reflexivity.
  - intros Hn. subst built. unfold payload, program_name.
    assert (String.eqb commandName "startProgram" = false) as ->
      by (apply String.eqb_neq; exact Hn).
    eexists. split; reflexivity.
  - intros -> Ht. subst built. unfold payload, program_name, or_else.
    rewrite Ht. cbn. eexists. split; reflexivity.
  - intros e He. subst run. unfold sendCommand. cbn [exec fst snd].
    fold iso. fold this. fold built. rewrite He. split; reflexivity.
Qed.

(** *** What a refresh persists *)

Lemma persisted_refl (a : Api) : persisted_since a a.
Proof. exists []. rewrite app_nil_r. repeat split. Qed.

Lemma persisted_trans (a b c : Api) :
  persisted_since a b -> persisted_since b c -> persisted_since a c.
Proof.
  intros (j1 & J1 & R1 & T1 & M1) (j2 & J2 & R2 & T2 & M2).
  exists (j1 ++ j2)%list. unfold stored_refreshToken, stored_tokens in *.
  rewrite !foldl_app, <- R1, <- T1, J2, J1, app_assoc. repeat split; congruence.
Qed.

Lemma persisted_fields (a b : Api) :
  refreshToken b = refreshToken a -> accessToken b = accessToken a ->
  idToken b = idToken a -> journal b = journal a -> _mobileId b = _mobileId a ->
  persisted_since a b.
Proof.
  intros H1 H2 H3 H4 H5. exists []. rewrite app_nil_r. simpl.
  repeat split; congruence.
Qed.

Lemma refresh_resume_persists `{Runtime} (now : Z) (r : Response) (a : Api) :
  persisted_since a (fst (refresh_resume now r a)) /\
  (truthy (refreshToken a) = true ->
   truthy (refreshToken (fst (refresh_resume now r a))) = true).
Proof.
  unfold refresh_resume. destruct (negb (ok r)); [split; [apply persisted_refl|auto]|].
  destruct (json r) as [result|]; [|split; [apply persisted_refl|auto]].
  assert (forall b (x y : Api * (Error + Request)), fst x = fst y ->
            fst (if b : bool then x else y) = fst x) as Hif
    by (intros [] ? ? E; congruence).
  destruct result as [| |b|n|s|fields];
    try (split; [apply persisted_refl|auto]);
    rewrite Hif by reflexivity; cbn [fst refreshToken];
    (split;
     [eexists; split; [reflexivity|];
      unfold stored_refreshToken, stored_tokens; rewrite !foldl_app;
      cbn [get]; destruct (truthy _); repeat split
     |intros Ht; destruct (truthy (get _ "refresh_token")) eqn:E; [exact E|exact Ht]]).
Qed.

Lemma refresh_finish_persists (r : Response) (a : Api) :
  persisted_since a (fst (refresh_finish r a)) /\
  refreshToken (fst (refresh_finish r a)) = refreshToken a.
Proof.
  unfold refresh_finish, cognito_resume.
  destruct (negb (ok r)); [split; [apply persisted_refl|reflexivity]|].
  destruct (json r) as [[]|]; try (split; [apply persisted_refl|reflexivity]);
    match goal with |- context [if ?b then _ else _] => destruct b end;
    (split; [apply persisted_fields; reflexivity|reflexivity]).
Qed.

Lemma step_persists `{Runtime} (a : Api) (s s' : System) (ev : Event) :
  persisted_since a (api s) /\
  (truthy (refreshToken a) = true -> truthy (refreshToken (api s)) = true) ->
  step s ev = Some s' ->
  persisted_since a (api s') /\
  (truthy (refreshToken a) = true -> truthy (refreshToken (api s')) = true).
Proof.
  intros [HP HT].
  assert (forall b : Api,
            refreshToken b = refreshToken (api s) -> accessToken b = accessToken (api s) ->
            idToken b = idToken (api s) -> journal b = journal (api s) ->
            _mobileId b = _mobileId (api s) ->
            persisted_since a b /\
            (truthy (refreshToken a) = true -> truthy (refreshToken b) = true)) as Hsame.
  { intros b H1 H2 H3 H4 H5. split.
    - eapply persisted_trans; [exact HP|]. apply persisted_fields; assumption.
    - rewrite H1. exact HT. }
  assert (forall c path, persisted_since a (api (_safeRefresh c path s)) /\
            (truthy (refreshToken a) = true ->
             truthy (refreshToken (api (_safeRefresh c path s))) = true)) as Hsafe.
  { intros c path. unfold _safeRefresh. destruct (_refreshPromise (api s));
      apply Hsame; reflexivity. }
  destruct ev as [c|c now|c|p now reply|p reply|p]; simpl.
  - intros E; inversion E. apply Hsafe.
  - intros E; inversion E. unfold _ensureAuthenticated.
    destruct (isAuthenticated now (api s)); [apply Hsame; reflexivity|].
    destruct (truthy (refreshToken (api s))) eqn:Et;
      [apply Hsafe|apply Hsame; reflexivity].
  - intros E; inversion E. apply Hsafe.
  - destruct (flights s !! p) as [[| |o]|]; try discriminate.
    destruct reply as [r|]; [|intros E; inversion E; apply Hsame; reflexivity].
    destruct (refresh_resume_persists now r (api s)) as [H1 H2].
    destruct (refresh_resume now r (api s)) as [a' [e|rq]];
      intros E; inversion E; cbn [api advance fst] in *;
      (split; [eapply persisted_trans; eassumption|auto]).
  - destruct (flights s !! p) as [[| |o]|]; try discriminate.
    destruct reply as [r|]; [|intros E; inversion E; apply Hsame; reflexivity].
    destruct (refresh_finish_persists r (api s)) as [H1 H2].
    destruct (refresh_finish r (api s)) as [a' [e|]];
      intros E; inversion E; cbn [api advance fst] in *;
      (split; [eapply persisted_trans; eassumption|rewrite H2; auto]).
  - destruct (flights s !! p) as [[| |o]|]; try discriminate.
    intros E; inversion E.
    destruct (reap_fields p o s) as (_ & _ & _ & _ & -> & _).
    match goal with |- context [found_after o ?ws ?b] =>
      destruct (found_after_same o ws b) as (Hsb & _)
    end.
    apply same_but_flag_fields in Hsb as (Hcr & Hm & _ & Hj).
    unfold credentials_of in Hcr. inversion Hcr.
    apply Hsame; assumption.
Qed.

(** X5: through every interleaving of callers, replies and callbacks,
    the shared client holds exactly what it has handed to the persistence
    callbacks: its journal only grows, its refresh token is the one last
    given to [onTokenRefresh] (the initial one if none was), its access
    and id token are the pair last given to [onTokensUpdated]; the mobile
    id never changes, and a client that started with a refresh token
    always has one. *)
Theorem persisted_tokens_are_current `{Runtime} (a : Api) (evs : list Event) (s : System) :
  run (boot a) evs = Some s ->
  (exists calls : list Hook,
      journal (api s) = (journal a ++ calls)%list /\
      refreshToken (api s) = stored_refreshToken (refreshToken a) calls /\
      (accessToken (api s), idToken (api s))
      = stored_tokens (accessToken a, idToken a) calls /\
      _mobileId (api s) = _mobileId a) /\
  (truthy (refreshToken a) = true -> truthy (refreshToken (api s)) = true).
Proof.
  change (run (boot a) evs = Some s ->
          persisted_since a (api s) /\
          (truthy (refreshToken a) = true -> truthy (refreshToken (api s)) = true)).
  assert (persisted_since a (api (boot a)) /\
          (truthy (refreshToken a) = true -> truthy (refreshToken (api (boot a))) = true))
    as H0 by (split; [apply persisted_refl|auto]).
  revert H0. generalize (boot a). induction evs as [|ev evs IH]; simpl; intros s0 H0.
  - intros E; inversion E; subst. exact H0.
  - destruct (step s0 ev) as [s1|] eqn:S; [|discriminate].
    apply IH. eapply step_persists; eauto.
Qed.

(** *** A client without a refresh token *)

Lemma isAuthenticated_guard (now : Z) (g : option nat) (a : Api) :
  isAuthenticated now (set_refreshPromise g a) = isAuthenticated now a.
Proof. reflexivity. Qed.

Lemma same_or_signed_out_fields (a b : Api) :
  same_or_signed_out a b ->
  refreshToken b = refreshToken a /\
  (forall now, isAuthenticated now b = true -> isAuthenticated now a = true).
Proof.
  intros [E|E].
  - split; [exact (f_equal refreshToken E)|].
    intros now. rewrite <- (isAuthenticated_guard now None b), E. auto.
  - split; [exact (f_equal refreshToken E)|].
    intros now. rewrite <- (isAuthenticated_guard now None b), E. discriminate.
Qed.

Lemma same_or_signed_out_found (o : Outcome) (ws : list (nat * nat * Path)) (a b : Api) :
  same_or_signed_out a b ->
  same_or_signed_out a (found_after o ws (set_refreshPromise None b)).
Proof.
  unfold same_or_signed_out, found_after.
  intros [E|E]; destruct (_ && _)%bool;
    change (set_refreshPromise None (set_authenticated false (set_refreshPromise None b)))
      with (set_authenticated false (set_refreshPromise None b));
    change (set_refreshPromise None (set_refreshPromise None b))
      with (set_refreshPromise None b);
    rewrite E; auto.
Qed.

Lemma step_without_token `{Runtime} (a : Api) (s s' : System) (ev : Event) :
  truthy (refreshToken a) = false ->
  (wire s = [] /\
   same_or_signed_out a (api s) /\
   (forall p ph, flights s !! p = Some ph ->
                 ph = Settled (Rejected NoRefreshTokenAvailable)) /\
   (forall c x, (c, x) ∈ seen s -> told_without_token x)) ->
  step s ev = Some s' ->
  wire s' = [] /\
  same_or_signed_out a (api s') /\
  (forall p ph, flights s' !! p = Some ph ->
                ph = Settled (Rejected NoRefreshTokenAvailable)) /\
  (forall c x, (c, x) ∈ seen s' -> told_without_token x).
Proof.
  intros Ha (Hw & Hapi & Hfl & Hseen).
  assert (truthy (refreshToken (api s)) = false) as Ht.
  { destruct (same_or_signed_out_fields _ _ Hapi) as [-> _]. exact Ha. }
  assert (forall c path,
    wire (_safeRefresh c path s) = [] /\
    same_or_signed_out a (api (_safeRefresh c path s)) /\
    (forall p ph, flights (_safeRefresh c path s) !! p = Some ph ->
                  ph = Settled (Rejected NoRefreshTokenAvailable)) /\
    (forall c' x, (c', x) ∈ seen (_safeRefresh c path s) -> told_without_token x))
    as Hsafe.
  { intros c path. unfold _safeRefresh.
    destruct (_refreshPromise (api s)); cbn [wire api flights seen];
      [repeat split; assumption|].
    unfold refresh_begin. rewrite Ht. cbn [negb fst snd].
    rewrite app_nil_r. split; [exact Hw|]. split; [exact Hapi|]. split; [|exact Hseen].
    intros p ph Hp. apply lookup_insert_Some in Hp as [[_ <-]|[_ Hp]]; [reflexivity|].
    eapply Hfl; exact Hp. }
  assert (forall c x, told_without_token x ->
    wire (saw c x s) = [] /\
    same_or_signed_out a (api (saw c x s)) /\
    (forall p ph, flights (saw c x s) !! p = Some ph ->
                  ph = Settled (Rejected NoRefreshTokenAvailable)) /\
    (forall c' x', (c', x') ∈ seen (saw c x s) -> told_without_token x')) as Hsaw.
  { intros c x Hx. cbn [saw wire api flights seen].
    split; [exact Hw|]. split; [exact Hapi|]. split; [exact Hfl|].
    intros c' x' Hin. apply elem_of_app in Hin as [Hin|Hin]; [eapply Hseen; exact Hin|].
    apply list_elem_of_singleton in Hin. inversion Hin; subst. exact Hx. }
  destruct ev as [c|c now|c|p now reply|p reply|p]; simpl.
  - intros E; inversion E. apply Hsafe.
  - intros E; inversion E. unfold _ensureAuthenticated.
    destruct (isAuthenticated now (api s)); [apply Hsaw; left; reflexivity|].
    rewrite Ht. apply Hsaw. right; left; reflexivity.
  - intros E; inversion E. apply Hsafe.
  - destruct (flights s !! p) as [[| |o]|] eqn:Hp; try discriminate.
    apply Hfl in Hp. discriminate.
  - destruct (flights s !! p) as [[| |o]|] eqn:Hp; try discriminate.
    apply Hfl in Hp. discriminate.
  - destruct (flights s !! p) as [[| |o]|] eqn:Hp; try discriminate.
    apply Hfl in Hp. injection Hp as ->.
    intros E; inversion E.
    destruct (reap_fields p (Rejected NoRefreshTokenAvailable) s)
      as (-> & _ & -> & _ & -> & ->).
    split; [exact Hw|]. split; [apply same_or_signed_out_found; exact Hapi|]. split.
    + intros q ph Hq. apply lookup_delete_Some in Hq as [_ Hq]. eapply Hfl; exact Hq.
    + intros c' x' Hin. apply elem_of_app in Hin as [Hin|Hin]; [eapply Hseen; exact Hin|].
      apply reap_handed in Hin as (i & w & _ & _ & ->).
      right. right. eauto.
Qed.

(** Without a caller on the retry path nothing writes the session flag. *)
Lemma step_without_retry `{Runtime} (a : Api) (s s' : System) (ev : Event) :
  truthy (refreshToken a) = false ->
  is_retry ev = false ->
  (set_refreshPromise None (api s) = set_refreshPromise None a /\
   (forall p ph, flights s !! p = Some ph ->
                 ph = Settled (Rejected NoRefreshTokenAvailable)) /\
   (forall w, w ∈ waiting s -> snd w <> ViaRetry)) ->
  step s ev = Some s' ->
  set_refreshPromise None (api s') = set_refreshPromise None a /\
  (forall p ph, flights s' !! p = Some ph ->
                ph = Settled (Rejected NoRefreshTokenAvailable)) /\
  (forall w, w ∈ waiting s' -> snd w <> ViaRetry).
Proof.
  intros Ha Hev (Hapi & Hfl & Hwait).
  assert (truthy (refreshToken (api s)) = false) as Ht.
  { change (truthy (refreshToken (set_refreshPromise None (api s))) = false).
    rewrite Hapi. exact Ha. }
  assert (forall c path, path <> ViaRetry ->
    set_refreshPromise None (api (_safeRefresh c path s)) = set_refreshPromise None a /\
    (forall p ph, flights (_safeRefresh c path s) !! p = Some ph ->
                  ph = Settled (Rejected NoRefreshTokenAvailable)) /\
    (forall w, w ∈ waiting (_safeRefresh c path s) -> snd w <> ViaRetry)) as Hsafe.
  { intros c path Hpath.
    assert (forall q w, w ∈ (waiting s ++ [(c, q, path)])%list -> snd w <> ViaRetry) as Hw'.
    { intros q w Hin. apply elem_of_app in Hin as [Hin|Hin]; [exact (Hwait w Hin)|].
      apply list_elem_of_singleton in Hin. subst w. exact Hpath. }
    unfold _safeRefresh.
    destruct (_refreshPromise (api s)); cbn [api flights waiting];
      [split; [exact Hapi|split; [exact Hfl|apply Hw']]|].
    unfold refresh_begin. rewrite Ht. cbn [negb fst snd].
    split; [exact Hapi|]. split; [|apply Hw'].
    intros p ph Hp. apply lookup_insert_Some in Hp as [[_ <-]|[_ Hp]]; [reflexivity|].
    eapply Hfl; exact Hp. }
  destruct ev as [c|c now|c|p now reply|p reply|p]; simpl; try discriminate.
  - intros E; inversion E. apply Hsafe. discriminate.
  - intros E; inversion E. unfold _ensureAuthenticated.
    destruct (isAuthenticated now (api s)); [repeat split; assumption|].
    rewrite Ht. repeat split; assumption.
  - destruct (flights s !! p) as [[| |o]|] eqn:Hp; try discriminate.
    apply Hfl in Hp. discriminate.
  - destruct (flights s !! p) as [[| |o]|] eqn:Hp; try discriminate.
    apply Hfl in Hp. discriminate.
  - destruct (flights s !! p) as [[| |o]|] eqn:Hp; try discriminate.
    intros E; inversion E.
    destruct (reap_fields p o s) as (-> & _ & _ & -> & -> & _).
    split; [|split].
    + match goal with |- context [found_after o ?ws ?b] =>
        destruct (found_after_same o ws b) as (_ & _ & _ & ->)
      end; [exact Hapi|].
      intros w Hin. apply Hwait. apply list_elem_of_In.
      apply list_elem_of_In, List.filter_In in Hin as [Hin _]. exact Hin.
    + intros q ph Hq. apply lookup_delete_Some in Hq as [_ Hq]. eapply Hfl; exact Hq.
    + intros w Hin. apply Hwait. apply list_elem_of_In.
      apply list_elem_of_In, List.filter_In in Hin as [Hin _]. exact Hin.
Qed.

(** X6: a client that holds no refresh token never puts a request on
    the wire through [_ensureAuthenticated] or [_safeRefresh], whatever
    the interleaving: every caller is told that the client is fresh, or
    refused for want of a refresh token, or resumed with the rejection of
    a refresh that had no token to use; the object changes in its guard
    and, through the [catch] of the retry path, in its session flag, which
    can only be cleared, so the client is never authenticated unless it
    was at the start; with no caller on the retry path the object changes
    in its guard only, so it is authenticated exactly when it was at the
    start. *)
Theorem no_refresh_token_no_request `{Runtime} (a : Api) (evs : list Event) (s : System) :
  truthy (refreshToken a) = false ->
  run (boot a) evs = Some s ->
  wire s = [] /\
  (forall c x, (c, x) ∈ seen s ->
     x = Fresh \/ x = Refused NotAuthenticatedNoRefreshToken \/
     exists p credentials,
       x = Awaited p (Rejected NoRefreshTokenAvailable) credentials) /\
  (set_refreshPromise None (api s) = set_refreshPromise None a \/
   set_refreshPromise None (api s)
   = set_authenticated false (set_refreshPromise None a)) /\
  (forall now : Z, isAuthenticated now (api s) = true -> isAuthenticated now a = true) /\
  (forallb (fun ev => negb (is_retry ev)) evs = true ->
   set_refreshPromise None (api s) = set_refreshPromise None a /\
   (forall now : Z, isAuthenticated now (api s) = isAuthenticated now a)).
Proof.
  intros Ha Hrun.
  assert (wire s = [] /\
          same_or_signed_out a (api s) /\
          (forall p ph, flights s !! p = Some ph ->
                        ph = Settled (Rejected NoRefreshTokenAvailable)) /\
          (forall c x, (c, x) ∈ seen s -> told_without_token x)) as (Hw & Hapi & _ & Hseen).
  { revert Hrun.
    assert (wire (boot a) = [] /\
            same_or_signed_out a (api (boot a)) /\
            (forall p ph, flights (boot a) !! p = Some ph ->
                          ph = Settled (Rejected NoRefreshTokenAvailable)) /\
            (forall c x, (c, x) ∈ seen (boot a) -> told_without_token x)) as H0.
    { cbn [boot wire api flights seen]. split; [reflexivity|].
      split; [left; reflexivity|]. split.
      - intros p ph Hp. rewrite lookup_empty in Hp. discriminate.
      - intros c x Hin. apply elem_of_nil in Hin. contradiction. }
    revert H0. generalize (boot a). induction evs as [|ev evs IH]; simpl; intros s0 H0.
    - intros E; inversion E; subst. exact H0.
    - destruct (step s0 ev) as [s1|] eqn:S; [|discriminate].
      apply IH. eapply step_without_token; eauto. }
  split; [exact Hw|]. split; [exact Hseen|]. split; [exact Hapi|].
  split; [apply same_or_signed_out_fields; exact Hapi|].
  intros Hnone.
  assert (set_refreshPromise None (api s) = set_refreshPromise None a /\
          (forall p ph, flights s !! p = Some ph ->
                        ph = Settled (Rejected NoRefreshTokenAvailable)) /\
          (forall w, w ∈ waiting s -> snd w <> ViaRetry)) as (Heq & _).
  { revert Hrun Hnone.
    assert (set_refreshPromise None (api (boot a)) = set_refreshPromise None a /\
            (forall p ph, flights (boot a) !! p = Some ph ->
                          ph = Settled (Rejected NoRefreshTokenAvailable)) /\
            (forall w, w ∈ waiting (boot a) -> snd w <> ViaRetry)) as H0.
    { cbn [boot api flights waiting]. split; [reflexivity|]. split.
      - intros p ph Hp. rewrite lookup_empty in Hp. discriminate.
      - intros w Hin. apply elem_of_nil in Hin. contradiction. }
    revert H0. generalize (boot a). induction evs as [|ev evs IH]; simpl; intros s0 H0.
    - intros E _; inversion E; subst. exact H0.
    - destruct (step s0 ev) as [s1|] eqn:S; [|discriminate].
      intros Hrun Hnone. apply andb_true_iff in Hnone as [Hev Hnone].
      apply negb_true_iff in Hev.
      apply (IH s1); [eapply step_without_retry; eauto|exact Hrun|exact Hnone]. }
  split; [exact Heq|].
  intros now. rewrite <- (isAuthenticated_guard now None (api s)), Heq. reflexivity.
Qed.

(** *** What a fulfilled refresh leaves *)

Lemma refresh_finish_signed_in (r : Response) (a a' : Api) :
  refresh_finish r a = (a', None) -> signed_in a'.
Proof.
  unfold refresh_finish, cognito_resume.
  destruct (negb (ok r)); [discriminate|].
  destruct (json r) as [[]|]; try discriminate;
    match goal with |- context [if negb (truthy ?t) then _ else _] =>
      destruct (truthy t) eqn:Ht end; cbn [negb]; try discriminate;
    intros E; inversion E; split; [reflexivity|exact Ht].
Qed.

Lemma step_signed_in `{Runtime} (s s' : System) (ev : Event) :
  Inv s ->
  ((forall p, flights s !! p = Some (Settled Fulfilled) -> signed_in (api s)) /\
   (forall c p credentials,
       (c, Awaited p Fulfilled credentials) ∈ seen s ->
       signed_in credentials /\ _refreshPromise credentials = None)) ->
  step s ev = Some s' ->
  (forall p, flights s' !! p = Some (Settled Fulfilled) -> signed_in (api s')) /\
  (forall c p credentials,
      (c, Awaited p Fulfilled credentials) ∈ seen s' ->
      signed_in credentials /\ _refreshPromise credentials = None).
Proof.
  intros HI [Hfl Hseen].
  assert (forall c path,
    (forall p, flights (_safeRefresh c path s) !! p = Some (Settled Fulfilled) ->
               signed_in (api (_safeRefresh c path s))) /\
    (forall c' p credentials,
        (c', Awaited p Fulfilled credentials) ∈ seen (_safeRefresh c path s) ->
        signed_in credentials /\ _refreshPromise credentials = None)) as Hsafe.
  { intros c path. unfold _safeRefresh.
    destruct (_refreshPromise (api s)); cbn [api flights seen]; [split; assumption|].
    split; [|exact Hseen].
    intros p Hp. apply lookup_insert_Some in Hp as [[_ Hp]|[_ Hp]].
    - destruct (refresh_begin (api s)); discriminate.
    - exact (Hfl p Hp). }
  assert (forall c x, (forall p o a, x <> Awaited p o a) ->
    (forall p, flights (saw c x s) !! p = Some (Settled Fulfilled) ->
               signed_in (api (saw c x s))) /\
    (forall c' p credentials,
        (c', Awaited p Fulfilled credentials) ∈ seen (saw c x s) ->
        signed_in credentials /\ _refreshPromise credentials = None)) as Hsaw.
  { intros c x Hx. cbn [saw api flights seen]. split; [exact Hfl|].
    intros c' p cr Hin. apply elem_of_app in Hin as [Hin|Hin]; [eapply Hseen; exact Hin|].
    apply list_elem_of_singleton in Hin. inversion Hin; subst. exfalso. eapply Hx; reflexivity. }
  assert (forall p ph a' ph' sent,
    flights s !! p = Some ph -> ph <> Settled Fulfilled ->
    (ph' = Settled Fulfilled -> signed_in a') ->
    (forall q, flights (advance p a' ph' sent s) !! q = Some (Settled Fulfilled) ->
               signed_in (api (advance p a' ph' sent s))) /\
    (forall c' q credentials,
        (c', Awaited q Fulfilled credentials) ∈ seen (advance p a' ph' sent s) ->
        signed_in credentials /\ _refreshPromise credentials = None)) as Hadv.
  { intros p ph a' ph' sent Hp Hph Hgood. cbn [advance api flights seen].
    split; [|exact Hseen].
    intros q Hq. apply lookup_insert_Some in Hq as [[_ Hq]|[Hne Hq]]; [auto|].
    destruct (inv_alive s p ph HI Hp) as (_ & Hsingle & _).
    rewrite Hsingle in Hq. apply lookup_singleton_Some in Hq as [Heq _]. congruence. }
  destruct ev as [c|c now|c|p now reply|p reply|p]; simpl.
  - intros E; inversion E. apply Hsafe.
  - intros E; inversion E. unfold _ensureAuthenticated.
    destruct (isAuthenticated now (api s)); [apply Hsaw; discriminate|].
    destruct (truthy (refreshToken (api s))); [apply Hsafe|apply Hsaw; discriminate].
  - intros E; inversion E. apply Hsafe.
  - destruct (flights s !! p) as [[| |o]|] eqn:Hp; try discriminate.
    destruct reply as [r|].
    + destruct (refresh_resume now r (api s)) as [a' [e|rq]];
        intros E; inversion E; eapply Hadv; eauto; discriminate.
    + intros E; inversion E; eapply Hadv; eauto; discriminate.
  - destruct (flights s !! p) as [[| |o]|] eqn:Hp; try discriminate.
    destruct reply as [r|].
    + destruct (refresh_finish r (api s)) as [a' [e|]] eqn:R;
        intros E; inversion E; eapply Hadv; eauto; try discriminate.
      intros _. eapply refresh_finish_signed_in; exact R.
    + intros E; inversion E; eapply Hadv; eauto; discriminate.
  - destruct (flights s !! p) as [[| |o]|] eqn:Hp; try discriminate.
    intros E; inversion E.
    destruct (reap_settled p o s HI Hp) as (R1 & _ & _ & _ & _ & R6).
    split.
    + intros q Hq. rewrite R1, lookup_empty in Hq. discriminate.
    + intros c' q cr Hin. rewrite R6 in Hin.
      apply elem_of_app in Hin as [Hin|Hin]; [eapply Hseen; exact Hin|].
      apply reap_handed in Hin as (i & w & _ & _ & Ew). inversion Ew; subst.
      destruct (found_after_same Fulfilled (take i (waiting s))
                  (set_refreshPromise None (api s))) as (_ & _ & Hfu & _).
      rewrite (Hfu eq_refl).
      split; [|reflexivity]. exact (Hfl _ Hp).
Qed.

(** X7: every caller resumed by a fulfilled refresh finds the session
    flag set, a non-empty Cognito token and the guard cleared, whatever
    other callers, replies and callbacks ran in between. *)
Theorem fulfilled_refresh_signs_in `{Runtime} (a : Api) (evs : list Event) (s : System) :
  _refreshPromise a = None ->
  run (boot a) evs = Some s ->
  forall c p credentials,
    (c, Awaited p Fulfilled credentials) ∈ seen s ->
    _authenticated credentials = true /\
    truthy (cognitoToken credentials) = true /\
    _refreshPromise credentials = None.
Proof.
  intros Ha Hrun.
  assert (Inv s /\
          (forall p, flights s !! p = Some (Settled Fulfilled) -> signed_in (api s)) /\
          (forall c p credentials,
              (c, Awaited p Fulfilled credentials) ∈ seen s ->
              signed_in credentials /\ _refreshPromise credentials = None))
    as (_ & _ & Hseen).
  { revert Hrun.
    assert (Inv (boot a) /\
            (forall p, flights (boot a) !! p = Some (Settled Fulfilled) ->
                       signed_in (api (boot a))) /\
            (forall c p credentials,
                (c, Awaited p Fulfilled credentials) ∈ seen (boot a) ->
                signed_in credentials /\ _refreshPromise credentials = None)) as H0.
    { split; [apply inv_boot; exact Ha|]. cbn [boot api flights seen]. split.
      - intros p Hp. rewrite lookup_empty in Hp. discriminate.
      - intros c p cr Hin. apply elem_of_nil in Hin. contradiction. }
    revert H0. generalize (boot a). induction evs as [|ev evs IH]; simpl; intros s0 H0.
    - intros E; inversion E; subst. exact H0.
    - destruct (step s0 ev) as [s1|] eqn:S; [|discriminate].
      apply IH. destruct H0 as [HI H0]. split; [eapply step_inv; eauto|].
      eapply step_signed_in; eauto. }
  intros c p cr Hin. destruct (Hseen c p cr Hin) as [[H1 H2] H3]. auto.
Qed.

(** *** Appliance state *)

Lemma exec_bind {A B} (env : forall X, nat -> Call X -> X) (n : nat)
    (m : Prog A) (f : A -> Prog B) :
  exec env n (bind m f)
  = match snd (exec env n m) with
    | Ok a =>
        let rest := exec env (n + length (fst (exec env n m))) (f a) in
        ((fst (exec env n m) ++ fst rest)%list, snd rest)
    | Thrown e => (fst (exec env n m), Thrown e)
    end.
Proof.
  revert n. induction m as [a|e|X c k IH]; intros n.
  - cbn [bind exec fst snd length app]. rewrite Nat.add_0_r.
    destruct (exec env n (f a)); reflexivity.
  - reflexivity.
  - cbn [bind exec fst snd length]. rewrite IH.
    replace (n + S (length (fst (exec env (S n) (k (env X n c))))))%nat
      with (S n + length (fst (exec env (S n) (k (env X n c)))))%nat by lia.
    destruct (snd (exec env (S n) (k (env X n c)))); reflexivity.
Qed.

Lemma flatten_state (result context : JsVal) :
  read result "payload" = Some context ->
  truthy context = true ->
  let parameters := get (get context "shadow") "parameters" in
  let assigned := if truthy parameters then assign literal parameters else literal in
  flatten result
  = Ok (Some (if truthy (get context "lastConnEvent")
              then define "lastConnEvent" (get context "lastConnEvent") assigned
              else assigned)).
Proof.
  intros Hr Ht. cbn zeta. unfold flatten. rewrite Hr, Ht. cbn [negb].
  assert (match get context "shadow" with
          | JNull | JUndefined => JUndefined
          | shadow => get shadow "parameters"
          end = get (get context "shadow") "parameters") as ->
    by (destruct (get context "shadow"); reflexivity).
  rewrite put_plain by discriminate. reflexivity.
Qed.

(** X11: [getApplianceState] performs the operations of the one request
    to the context endpoint and nothing else; a rejection of the request
    is passed on; a result without a payload gives [null]; otherwise the
    state's own properties are the shadow parameters other than
    [__proto__], except that a last connection event, when there is one,
    is stored under [lastConnEvent] in place of a parameter of that name;
    a parameter named [__proto__] is not copied: when its value is an
    object that object becomes the prototype of the state (and [null]
    leaves the state without one), so that the state reads the properties
    of that object under the names it does not own. *)
Theorem appliance_state_is_flattened (encodeURIComponent : string -> string)
    (env : forall X, nat -> Call X -> X) (macAddress : string) :
  let request :=
    exec env 0 (_apiRequest ("/commands/v1/context?macAddress="
                             ++ encodeURIComponent macAddress
                             ++ "&applianceType=AC&category=CYCLE") no_options) in
  let run := exec env 0 (getApplianceState encodeURIComponent macAddress) in
  fst run = fst request /\
  snd run = (match snd request with
             | Ok result => flatten result
             | Thrown e => Thrown e
             end) /\
  forall result context : JsVal,
    read result "payload" = Some context ->
    if truthy context then
      (exists state : Obj,
        flatten result = Ok (Some state) /\
        (truthy (get context "lastConnEvent") = true ->
         own state !! "lastConnEvent" = Some (get context "lastConnEvent")) /\
        (forall name : string,
          name <> "lastConnEvent" \/ truthy (get context "lastConnEvent") = false ->
          own state !! name
          = (match get (get context "shadow") "parameters" with
             | JObject fields =>
                 if String.eqb name "__proto__" then None else assoc name fields
             | _ => if truthy (get (get context "shadow") "parameters")
                    then own (assign literal (get (get context "shadow") "parameters"))
                         !! name
                    else None
             end)) /\
        prototype state
        = (match get (get context "shadow") "parameters" with
           | JObject fields => chosen_prototype (assoc "__proto__" fields)
           | _ => if truthy (get (get context "shadow") "parameters")
                  then prototype (assign literal (get (get context "shadow") "parameters"))
                  else ObjectPrototype
           end) /\
        (forall (fields inherited : list (string * JsVal)) (name : string),
          get (get context "shadow") "parameters" = JObject fields ->
          assoc "__proto__" fields = Some (JObject inherited) ->
          name <> "__proto__" ->
          own state !! name = None ->
          property state name = assoc name inherited))
    else (flatten result = Ok None).
Proof.
  intros request run. subst request run.
  unfold getApplianceState, mbind, prog_bind. rewrite exec_bind.
  split; [|split].
  - destruct (exec env 0 (_apiRequest _ no_options)) as [tr [result|e]]; cbn [fst snd];
      [|reflexivity].
    destruct (flatten result) as [st|e]; cbn; apply app_nil_r.
  - destruct (exec env 0 (_apiRequest _ no_options)) as [tr [result|e]]; cbn [fst snd];
      [|reflexivity].
    destruct (flatten result) as [st|e]; reflexivity.
  - clear. intros result context Hr.
    destruct (truthy context) eqn:Ht;
      [|unfold flatten; rewrite Hr, Ht; reflexivity].
    pose proof (flatten_state result context Hr Ht) as Hf. cbn zeta in Hf.
    set (parameters := get (get context "shadow") "parameters") in *.
    set (assigned := if truthy parameters then assign literal parameters else literal) in *.
    assert (forall name,
              own assigned !! name
              = match parameters with
                | JObject fields =>
                    if String.eqb name "__proto__" then None else assoc name fields
                | _ => if truthy parameters then own (assign literal parameters) !! name
                       else None
                end) as Hown.
    { intros name. subst assigned. clearbody parameters.
      destruct parameters as [| |b|[|q]|s|fields]; cbn [truthy];
        [idtac .. |apply assign_object];
        try (match goal with |- context [if ?c then _ else _] => destruct c end);
        try reflexivity; apply lookup_empty. }
    assert (prototype assigned
            = match parameters with
              | JObject fields => chosen_prototype (assoc "__proto__" fields)
              | _ => if truthy parameters then prototype (assign literal parameters)
                     else ObjectPrototype
              end) as Hproto.
    { subst assigned. clearbody parameters.
      destruct parameters as [| |b|[|q]|s|fields]; cbn [truthy];
        [idtac .. |apply assign_object];
        try (match goal with |- context [if ?c then _ else _] => destruct c end);
        reflexivity. }
    eexists. split; [exact Hf|].
    assert (prototype (if truthy (get context "lastConnEvent")
                       then define "lastConnEvent" (get context "lastConnEvent") assigned
                       else assigned) = prototype assigned) as Hp
      by (destruct (truthy (get context "lastConnEvent")); reflexivity).
    split; [|split; [|split]].
    + intros ->. apply lookup_insert_eq.
    + intros name Hn. rewrite <- Hown.
      destruct (truthy (get context "lastConnEvent")); [|reflexivity].
      destruct Hn as [Hn|Hn]; [|discriminate].
      apply lookup_insert_ne. congruence.
    + rewrite Hp. exact Hproto.
    + intros fields inherited name Ep Ei Hn Ho.
      unfold property. rewrite Ho, Hp, Hproto, Ep, Ei. cbn [chosen_prototype].
      apply String.eqb_neq in Hn. rewrite Hn.
      destruct (assoc name inherited); reflexivity.
Qed.

(** A context whose parameters carry [__proto__]: the state owns
    [tempSel] alone and reads [onOffStatus] from the object sent under
    [__proto__]. *)
Lemma prototype_parameter_is_inherited :
  let context :=
    JObject [ ("shadow",
               JObject [ ("parameters",
                          JObject [ ("__proto__", JObject [ ("onOffStatus", JString "1") ]);
                                    ("tempSel", JString "22") ]) ]) ] in
  exists state : Obj,
    flatten (JObject [ ("payload", context) ]) = Ok (Some state) /\
    own state = {[ "tempSel" := JString "22" ]} /\
    property state "onOffStatus" = Some (JString "1").
Proof.
  eexists. split; [reflexivity|]. split; [vm_compute; reflexivity|reflexivity].
Qed.

(** *** The further statements at sample inputs *)

Lemma authentication_lapses_with_time_witness :
  isAuthenticated 1700000000000
    (set_authenticated true (set_cognitoToken (JString "cognito-1") popup_client))
  = true /\
  isTokenExpired (1700000000000 + 3600000)
    (set_authenticated true (set_cognitoToken (JString "cognito-1") popup_client))
  = false.
Proof.
  destruct (authentication_lapses_with_time 1700003600000
    (set_authenticated true (set_cognitoToken (JString "cognito-1") popup_client)))
    as [H1 H2].
  - vm_compute. reflexivity.
  - split.
    + apply H1. lia.
    + apply H2; [vm_compute; reflexivity|]. unfold TOKEN_EXPIRY_BUFFER. lia.
Defined.

Lemma initialised_client_is_authenticated_witness :
  exists a' : Api,
    initializeWithTokens (Some (success login_grant)) popup_client
    = (a', [LoginRequest (JString "id-1") "mobile-1"], None) /\
    cognitoToken a' = JString "cognito-2" /\
    isAuthenticated (1700000000000 + 7 * 3600000) a' = true /\
    isAuthenticated (1700000000000 + 7 * 3600000 + 1) a' = false.
Proof.
  destruct (initialised_client_is_authenticated 1700000000000
              (JString "access-1") (JString "id-1") (JString "refresh-1")
              (JString "cognito-2") (success login_grant)
              (constructor JUndefined "mobile-1"))
    as (a' & Hi & Hc & Ht).
  - reflexivity.
  - reflexivity.
  - split; [reflexivity|]. exists login_grant. repeat split.
  - exists a'. split; [exact Hi|]. split; [exact Hc|].
    rewrite !Ht. split; vm_compute; reflexivity.
Defined.

Lemma persisted_tokens_are_current_witness :
  exists calls : list Hook,
    journal (api three_callers_end) = (journal stale_client ++ calls)%list /\
    refreshToken (api three_callers_end)
    = stored_refreshToken (refreshToken stale_client) calls /\
    (accessToken (api three_callers_end), idToken (api three_callers_end))
    = stored_tokens (accessToken stale_client, idToken stale_client) calls.
Proof.
  destruct (@persisted_tokens_are_current decimalRuntime stale_client three_callers
              three_callers_end) as ((calls & Hj & Hr & Ht & _) & _).
  - vm_compute. reflexivity.
  - exists calls. split; [exact Hj|]. split; [exact Hr|exact Ht].
Defined.

Lemma no_refresh_token_no_request_witness :
  exists s : System,
    @run decimalRuntime (boot bare_client) bare_calls = Some s /\
    wire s = [] /\
    isAuthenticated 1700000000000 (api s) = false.
Proof.
  destruct (@run decimalRuntime (boot bare_client) bare_calls) as [s|] eqn:E;
    [|vm_compute in E; discriminate].
  exists s. split; [reflexivity|].
  destruct (@no_refresh_token_no_request decimalRuntime bare_client bare_calls s)
    as (Hw & _ & _ & _ & Ha).
  - reflexivity.
  - exact E.
  - split; [exact Hw|]. destruct (Ha eq_refl) as [_ ->]. reflexivity.
Defined.

Lemma fulfilled_refresh_signs_in_witness :
  Forall (fun told =>
            match snd told with
            | Awaited _ Fulfilled credentials =>
                _authenticated credentials = true /\
                truthy (cognitoToken credentials) = true /\
                _refreshPromise credentials = None
            | _ => True
            end)
         (seen three_callers_end).
Proof.
  apply Forall_forall. intros [c x] Hin.
  destruct x as [|e|p [|e] credentials]; try exact I.
  apply (@fulfilled_refresh_signs_in decimalRuntime stale_client three_callers
           three_callers_end eq_refl) with (c := c) (p := p).
  - vm_compute. reflexivity.
  - exact Hin.
Defined.


(** *** The statements at sample inputs *)

Lemma single_flight_refresh_witness :
  @run decimalRuntime (boot stale_client) three_callers = Some three_callers_end /\
  (forall p, token_requests p (wire three_callers_end) <= 1 /\
             login_requests p (wire three_callers_end) <= 1) /\
  (forall c p o credentials,
      (c, Awaited p o credentials) ∈ seen three_callers_end ->
      (o = Fulfilled ->
       token_requests p (wire three_callers_end) = 1 /\
       login_requests p (wire three_callers_end) = 1) /\
      (forall e, o = Rejected e -> rejected_counts p e (wire three_callers_end)) /\
      (forall c' o' credentials',
          (c', Awaited p o' credentials') ∈ seen three_callers_end ->
          o' = o /\
          credentials_of credentials' = credentials_of credentials /\
          same_but_flag credentials' credentials /\
          (o = Fulfilled -> credentials' = credentials))) /\
  @step decimalRuntime refresh_started (CallRetry 3)
  = Some (joined 3 0 ViaRetry refresh_started) /\
  @step decimalRuntime refresh_started (CallEnsureAuthenticated 2 1700000000001)
  = Some (joined 2 0 ViaEnsure refresh_started).
Proof.
  split; [vm_compute; reflexivity|].
  destruct (@single_flight_refresh decimalRuntime stale_client three_callers
              three_callers_end) as (_ & _ & _ & Hc & Hs & _).
  - reflexivity.
  - vm_compute. reflexivity.
  - split; [exact Hc|]. split; [exact Hs|].
    destruct (@single_flight_refresh decimalRuntime stale_client
                [CallEnsureAuthenticated 1 1700000000000] refresh_started)
      as (_ & _ & _ & _ & _ & Hj & _).
    + reflexivity.
    + vm_compute. reflexivity.
    + split; apply Hj; try reflexivity.
      * split; reflexivity.
      * repeat split; reflexivity.
Defined.

Lemma api_request_retry_witness :
  let run := exec recovering 0 (_apiRequest "/commands/v1/appliance" no_options) in
  exists x : Result Error unit,
    refreshes (fst run) = [x] /\
    match x with
    | Thrown e =>
        [Some (success (JObject []))] = [] /\ marks (fst run) = [false] /\
        snd run = Thrown (RefreshErrorDuringRequest e)
    | Ok _ =>
        exists y : option Response,
          [Some (success (JObject []))] = [y] /\
          match y with
          | None => marks (fst run) = [] /\ snd run = Thrown FetchRejected
          | Some r2 =>
              if is_auth_failure r2 then
                marks (fst run) = [false] /\
                snd run = Thrown (AuthFailedAfterRefresh (status r2) (text r2))
              else
                marks (fst run) = [] /\ snd run = conclude r2
          end
    end.
Proof.
  exact (proj2 (proj2 (api_request_retry recovering "/commands/v1/appliance" no_options))
           unauthorized [Some (success (JObject []))] eq_refl).
Defined.

Lemma setTokens_effect_witness :
  refreshToken (setTokens 1700000000000 (JString "access-2") (JString "id-2")
                          JNull stale_client) = JString "refresh-1" /\
  refreshToken (setTokens 1700000000000 (JString "access-2") (JString "id-2")
                          (JString "refresh-2") stale_client) = JString "refresh-2".
Proof.
  destruct (setTokens_effect 1700000000000 (JString "access-2") (JString "id-2")
              JNull stale_client) as (_ & _ & _ & Hnull & _).
  destruct (setTokens_effect 1700000000000 (JString "access-2") (JString "id-2")
              (JString "refresh-2") stale_client) as (_ & _ & _ & _ & _ & Hset & _).
  split.
  - apply Hnull. left. reflexivity.
  - apply Hset. reflexivity.
Defined.

End HonApiProps.
